(** * A simplified RIP daemon (src/RIP/rip.py): model and verification

    The development embeds the message codec ([ResponseMessage]), the
    neighbour link ([Connection]), the route record ([Route]) and the daemon
    core ([RIPDaemon]) of [rip.py] and states the properties of the
    specification against them.

    Conventions of the embedding:
    - a Python [int] is a [Z]; [&] and [>>] are [Z.land] and [Z.shiftr];
    - a [bytes]/[bytearray] is a [list Z] whose items lie in [0, 256);
      indexing and item assignment raise as in Python;
    - a Python exception is the [Raise] outcome of the [result] monad;
    - console output ([print]) is not part of the model. *)

From Stdlib Require Import ZArith Lia Ascii String.
From stdpp Require Import base list.

Local Open Scope Z_scope.

(** ** Exceptions *)

Inductive exn : Set := IndexError | ValueError | TypeError.

Inductive result (A : Type) : Type :=
| Return (a : A)
| Raise (e : exn).
Arguments Return {A} a.
Arguments Raise {A} e.

Definition bind {A B : Type} (m : result A) (k : A -> result B) : result B :=
  match m with
  | Return a => k a
  | Raise e => Raise e
  end.

Notation "'do' x <- m ; k" := (bind m (fun x => k))
  (at level 10, x name, m at level 100, k at level 200,
   format "'[v' 'do'  x  <-  m ; '/' k ']'").

(** ** Module constants (rip.py lines 18-21) *)

Definition INFINITE_METRIC : Z := 16.
Definition PERIODIC_UPDATE_TIMER_INTERVAL : Z := 7.
Definition TIMEOUT_TIMER_INTERVAL : Z := PERIODIC_UPDATE_TIMER_INTERVAL * 6.
Definition GARBAGE_COLLECTION_TIMER_INTERVAL : Z := PERIODIC_UPDATE_TIMER_INTERVAL * 4.

(** ** class Route

    [timeout_timer] is [None] before [activate_timeout_timer] and afterwards
    holds the instant (on the daemon's logical clock) at which the current
    [threading.Timer] was started.  [timeout_callback] is always the daemon's
    [timeout_timer_callback] and is not stored. *)

Module Route.
Record t : Set := Build
  { src : Z; dest : Z; neighbor : Z; metric : Z; timeout_timer : option nat }.

(** [Route(src, dest, neighbor, metric)] *)
Definition new (src dest neighbor metric : Z) : t :=
  Build src dest neighbor metric None.

Definition set_metric (r : t) (m : Z) : t :=
  Build (src r) (dest r) (neighbor r) m (timeout_timer r).

Definition set_neighbor (r : t) (n : Z) : t :=
  Build (src r) (dest r) n (metric r) (timeout_timer r).

(** [activate_timeout_timer]: a running timer is cancelled and a new one
    is started at instant [now]. *)
Definition activate_timeout_timer (r : t) (now : nat) : t :=
  Build (src r) (dest r) (neighbor r) (metric r) (Some now).
End Route.

(** ** class ResponseMessage *)

Module RIPEntry.
Record t : Set := Build
  { address_family_identifier : Z; dest_router_id : Z; next_hop : Z; metric : Z }.

(** [RIPEntry(route)] with a route *)
Definition of_route (route : Route.t) : t :=
  Build 2 (Route.dest route) (Route.neighbor route) (Route.metric route).
End RIPEntry.

(** [bytearray] item assignment and [bytes] indexing. *)
Definition setitem (message : list Z) (i : nat) (v : Z) : result (list Z) :=
  if (i <? length message)%nat then
    if (0 <=? v) && (v <? 256) then Return (<[i:=v]> message) else Raise ValueError
  else Raise IndexError.

Definition getitem (data : list Z) (i : nat) : result Z :=
  match data !! i with
  | Some b => Return b
  | None => Raise IndexError
  end.

Module ResponseMessage.
Record t : Set := Build
  { command : Z; version : Z; sending_router_id : Z; rip_entries : list RIPEntry.t }.

(** [ResponseMessage(router_id)]; [router_id] defaults to 0. *)
Definition new (router_id : Z) : t := Build 2 2 router_id [].

Definition append_entry (self : t) (entry : RIPEntry.t) : t :=
  Build (command self) (version self) (sending_router_id self)
        (rip_entries self ++ [entry]).

Definition add_rip_entry (self : t) (route : Route.t) : t :=
  append_entry self (RIPEntry.of_route route).

Definition set_command (self : t) (c : Z) : t :=
  Build c (version self) (sending_router_id self) (rip_entries self).
Definition set_version (self : t) (v : Z) : t :=
  Build (command self) v (sending_router_id self) (rip_entries self).
Definition set_sending_router_id (self : t) (i : Z) : t :=
  Build (command self) (version self) i (rip_entries self).

(** The body of the [for entry in self.rip_entries] loop of [encode],
    lines 98-133. *)
Fixpoint encode_entries (entries : list RIPEntry.t) (start_index : nat)
    (message : list Z) : result (list Z) :=
  match entries with
  | [] => Return message
  | entry :: rest =>
    do message <- setitem message start_index
                    (Z.land (RIPEntry.address_family_identifier entry) 255);
    do message <- setitem message (start_index + 1) 0;
    do message <- setitem message (start_index + 2) 0;
    do message <- setitem message (start_index + 3) 0;
    do message <- setitem message (start_index + 4)
                    (Z.land (RIPEntry.dest_router_id entry) 255);
    do message <- setitem message (start_index + 5)
                    (Z.land (Z.shiftr (RIPEntry.dest_router_id entry) 8) 255);
    do message <- setitem message (start_index + 6) 0;
    do message <- setitem message (start_index + 7) 0;
    do message <- setitem message (start_index + 8) 0;
    do message <- setitem message (start_index + 9) 0;
    do message <- setitem message (start_index + 10) 0;
    do message <- setitem message (start_index + 11) 0;
    do message <- setitem message (start_index + 12)
                    (Z.land (RIPEntry.next_hop entry) 255);
    do message <- setitem message (start_index + 13)
                    (Z.land (Z.shiftr (RIPEntry.dest_router_id entry) 8) 255);
    do message <- setitem message (start_index + 14) 0;
    do message <- setitem message (start_index + 15) 0;
    do message <- setitem message (start_index + 16)
                    (Z.land (RIPEntry.metric entry) 255);
    do message <- setitem message (start_index + 17) 0;
    do message <- setitem message (start_index + 18) 0;
    do message <- setitem message (start_index + 19) 0;
    encode_entries rest (start_index + 20) message
  end.

Definition encode (self : t) : result (list Z) :=
  let message := replicate (4 + 20 * length (rip_entries self)) 0 in
  do message <- setitem message 0 (command self);
  do message <- setitem message 1 (version self);
  do message <- setitem message 2 (Z.land (sending_router_id self) 255);
  do message <- setitem message 3 (Z.land (Z.shiftr (sending_router_id self) 8) 255);
  encode_entries (rip_entries self) 4 message.

(** The [for i in range(entry_number)] loop of [decode], lines 163-194.
    [decode] returns a boolean and leaves what it has parsed in [self]. *)
Fixpoint decode_entries (data : list Z) (entry_number : nat) (start_index : nat)
    (self : t) : result (bool * t) :=
  match entry_number with
  | O => Return (true, self)
  | S remaining =>
    do afi <- getitem data start_index;
    if negb (afi =? 2) then Return (false, self) else
    do d4 <- getitem data (start_index + 4);
    do d5 <- getitem data (start_index + 5);
    let dest_router_id := d4 + d5 * 256 in
    if (dest_router_id >? 64000) || (dest_router_id <? 1) then Return (false, self) else
    do d12 <- getitem data (start_index + 12);
    do d13 <- getitem data (start_index + 13);
    let next_hop := d12 + d13 * 256 in
    if (next_hop >? 64000) || (next_hop <? 1) then Return (false, self) else
    do metric <- getitem data (start_index + 16);
    if (metric >? INFINITE_METRIC) || (next_hop <? 1) then Return (false, self) else
    decode_entries data remaining (start_index + 20)
      (append_entry self (RIPEntry.Build afi dest_router_id next_hop metric))
  end.

Definition decode (self : t) (data : list Z) : result (bool * t) :=
  do c <- getitem data 0;
  let self := set_command self c in
  if negb (c =? 2) then Return (false, self) else
  do v <- getitem data 1;
  let self := set_version self v in
  if negb (v =? 2) then Return (false, self) else
  do d2 <- getitem data 2;
  do d3 <- getitem data 3;
  let self := set_sending_router_id self (d2 + d3 * 256) in
  if (sending_router_id self >? 64000) || (sending_router_id self <? 1)
  then Return (false, self) else
  let entry_number := Z.to_nat ((Z.of_nat (length data) - 4) / 20) in
  decode_entries data entry_number 4 self.
End ResponseMessage.

(** ** class Connection

    Route objects are mutable and shared by reference: the daemon's table is
    a Python list of references to them.  The object store maps an address to
    the current fields of the object living there; [next] is the first
    address not yet allocated.  The sockets are represented by what is handed
    to [sendto], in order. *)

Abbreviation ref := nat (only parsing).

Module Store.
Record t : Set := Build { cells : ref -> Route.t; next : ref }.

Definition load (h : t) (l : ref) : Route.t := cells h l.

Definition store (h : t) (l : ref) (r : Route.t) : t :=
  Build (fun x => if (x =? l)%nat then r else cells h x) (next h).

(** Object creation: the new object gets the first free address. *)
Definition alloc (h : t) (r : Route.t) : t * ref :=
  (Build (fun x => if (x =? next h)%nat then r else cells h x) (S (next h)), next h).
End Store.

Module Connection.
Record t : Set := Build
  { sending_router_id : Z; neighbor_router_id : Z;
    input_port : Z; output_port : Z; metric : Z }.

(** [routes[index]] on a Python list *)
Definition list_getitem (routes : list ref) (index : nat) : result ref :=
  match routes !! index with
  | Some l => Return l
  | None => Raise IndexError
  end.

(** The inner loop [for index in range(start_index, len(routes))],
    lines 279-287; [indices] is what is left of the range. *)
Fixpoint add_routes (self : t) (routes : list ref) (indices : list nat)
    (message : ResponseMessage.t) (h : Store.t) : result (ResponseMessage.t * Store.t) :=
  match indices with
  | [] => Return (message, h)
  | index :: rest =>
    do route <- list_getitem routes index;
    let '(h, sending_route) :=
      Store.alloc h (Route.new (Route.src (Store.load h route))
                               (Route.dest (Store.load h route))
                               (Route.neighbor (Store.load h route))
                               (Route.metric (Store.load h route))) in
    let h :=
      if (Route.neighbor (Store.load h route) =? neighbor_router_id self)
         && negb (Route.dest (Store.load h route) =? neighbor_router_id self)
      then Store.store h sending_route
             (Route.set_metric (Store.load h sending_route) INFINITE_METRIC)
      else h in
    let message := ResponseMessage.add_rip_entry message (Store.load h sending_route) in
    add_routes self routes rest message h
  end.

(** The outer loop [for i in range(message_count)], lines 275-302; [sent]
    collects the datagrams built for [sendto], in order.  The socket is
    outside the model: [sendto] is taken to accept each datagram, which it
    does up to the largest UDP payload. *)
Fixpoint send_messages (self : t) (routes : list ref) (range : list nat)
    (h : Store.t) (sent : list (list Z)) : result (Store.t * list (list Z)) :=
  match range with
  | [] => Return (h, sent)
  | i :: rest =>
    let message := ResponseMessage.new (sending_router_id self) in
    let start_index := (i * 25)%nat in
    do mh <- add_routes self routes (seq start_index (length routes - start_index)) message h;
    let '(message, h) := mh in
    let '(h, sending_route) :=
      Store.alloc h (Route.new (sending_router_id self) (neighbor_router_id self)
                               (neighbor_router_id self) (metric self)) in
    let message := ResponseMessage.add_rip_entry message (Store.load h sending_route) in
    do data <- ResponseMessage.encode message;
    send_messages self routes rest h (sent ++ [data])
  end.

Definition send_routing_table_entries_to_neighbor (self : t) (routes : list ref)
    (h : Store.t) : result (Store.t * list (list Z)) :=
  let message_count := (length routes / 25)%nat in
  let message_count :=
    if negb (length routes mod 25 =? 0)%nat then (message_count + 1)%nat
    else message_count in
  send_messages self routes (seq 0 message_count) h [].

(** The conversion at the end of [receive_routing_table_entries_from_neighbor],
    lines 248-263, applied to the datagram read from the socket; [None] is
    Python's [None]. *)
Definition receive_routing_table_entries_from_neighbor (data : list Z)
    : result (option (list Route.t)) :=
  do res <- ResponseMessage.decode (ResponseMessage.new 0) data;
  let '(ok, response_message) := res in
  if negb ok then Return None else
  Return (Some (map (fun entry =>
                       Route.new (ResponseMessage.sending_router_id response_message)
                                 (RIPEntry.dest_router_id entry)
                                 (RIPEntry.next_hop entry)
                                 (RIPEntry.metric entry))
                    (ResponseMessage.rip_entries response_message))).
End Connection.

(** ** Python [str] methods used by the configuration loader

    A [str] is a [string]; the model covers text whose code points are below
    256.  On those, [str.isspace] holds of TAB, LF, VT, FF, CR, FS, GS, RS, US,
    SPACE, NEL (133) and NBSP (160), and [str.isdecimal] only of the digits
    '0'..'9'.  [int] is taken on strings short enough for the interpreter's
    integer-string conversion limit. *)

Module Str.
Local Open Scope string_scope.
Local Open Scope nat_scope.

Definition isspace (c : ascii) : bool :=
  let n := nat_of_ascii c in
  ((9 <=? n) && (n <=? 13)) || ((28 <=? n) && (n <=? 32)) || (n =? 133) || (n =? 160).

Definition isdigit (c : ascii) : bool :=
  let n := nat_of_ascii c in (48 <=? n) && (n <=? 57).

Definition is_empty (s : string) : bool :=
  match s with EmptyString => true | String _ _ => false end.

Fixpoint lstrip (P : ascii -> bool) (s : string) : string :=
  match s with
  | EmptyString => EmptyString
  | String c s' => if P c then lstrip P s' else s
  end.

Fixpoint rstrip (P : ascii -> bool) (s : string) : string :=
  match s with
  | EmptyString => EmptyString
  | String c s' =>
    let t := rstrip P s' in
    if P c && is_empty t then EmptyString else String c t
  end.

(** [s.strip()] and [s.strip(',')] *)
Definition strip (s : string) : string := rstrip isspace (lstrip isspace s).
Definition strip_char (ch : ascii) (s : string) : string :=
  rstrip (Ascii.eqb ch) (lstrip (Ascii.eqb ch) s).

Definition startswith_char (ch : ascii) (s : string) : bool :=
  match s with
  | EmptyString => false
  | String c _ => Ascii.eqb c ch
  end.

(** [s.split()]: maximal runs of non-whitespace; [word] is the run being
    read. *)
Fixpoint split_from (s : string) (word : string) : list string :=
  match s with
  | EmptyString => if is_empty word then [] else [word]
  | String c s' =>
    if isspace c
    then (if is_empty word then split_from s' EmptyString
          else word :: split_from s' EmptyString)
    else split_from s' (word ++ String c EmptyString)
  end.
Definition split (s : string) : list string := split_from s EmptyString.

(** [s.split(sep)] for a one-character separator *)
Fixpoint split_on_from (sep : ascii) (s : string) (word : string) : list string :=
  match s with
  | EmptyString => [word]
  | String c s' =>
    if Ascii.eqb c sep then word :: split_on_from sep s' EmptyString
    else split_on_from sep s' (word ++ String c EmptyString)
  end.
Definition split_on (sep : ascii) (s : string) : list string :=
  split_on_from sep s EmptyString.

Fixpoint all_digits (s : string) : bool :=
  match s with
  | EmptyString => true
  | String c s' => isdigit c && all_digits s'
  end.

Definition isdecimal (s : string) : bool := negb (is_empty s) && all_digits s.

(** [int(s)] for a decimal [s] of at most 4300 digits; on a longer one the
    interpreter raises [ValueError], and what is proved of the loader is
    proved of files without such a token. *)
Fixpoint int_from (s : string) (acc : Z) : Z :=
  match s with
  | EmptyString => acc
  | String c s' => int_from s' (10 * acc + Z.of_nat (nat_of_ascii c - 48))%Z
  end.
Definition int (s : string) : Z := int_from s 0%Z.
End Str.

(** ** class RIPDaemon

    The daemon's state is its router id, the configured outputs
    [(port, metric, neighbour id)], one connection per neighbour, the routing
    table (the objects of [self.routes], in list order; assigning to a field
    of a table object replaces the object at its position), the list of
    garbage-collection timers [(timer, neighbor, destination)], the list of
    triggered-update timers, and a logical clock.  A timer is represented by
    the instant at which it was started.  The periodic timer and the selector
    only drive transmission and are not part of the state. *)

Inductive file : Set :=
| FileNotFound
| File (raw_lines : list string).

Module RIPDaemon.
Record t : Set := Build
  { id : Z;
    outputs : list (Z * Z * Z);
    connections : list Connection.t;
    routes : list Route.t;
    garbage_collection_timers : list (nat * Z * Z);
    triggered_update_timers : list nat;
    now : nat }.

Definition with_routes (self : t) (rs : list Route.t) : t :=
  Build (id self) (outputs self) (connections self) rs
        (garbage_collection_timers self) (triggered_update_timers self) (now self).

Definition with_garbage_collection_timers (self : t) (gs : list (nat * Z * Z)) : t :=
  Build (id self) (outputs self) (connections self) (routes self)
        gs (triggered_update_timers self) (now self).

Definition with_triggered_update_timers (self : t) (ts : list nat) : t :=
  Build (id self) (outputs self) (connections self) (routes self)
        (garbage_collection_timers self) ts (now self).

(** *** load_config_file, lines 414-499

    [None] stands for the returned tuple whose first component is
    [False]; the other components of that tuple are not used by the
    caller. *)

Fixpoint content_lines (raw_lines : list string) : list string :=
  match raw_lines with
  | [] => []
  | line :: rest =>
    if negb (Str.is_empty (Str.strip line))
       && negb (Str.startswith_char "#" (Str.strip line))
    then Str.strip line :: content_lines rest
    else content_lines rest
  end.

(** The loop over [second_line_data[1:]], lines 458-463 *)
Fixpoint parse_input_ports (tokens : list string) (input_ports : list Z)
    : option (list Z) :=
  match tokens with
  | [] => Some input_ports
  | token :: rest =>
    let port := Str.strip_char "," token in
    if negb (Str.isdecimal port) || (Str.int port <? 1024) || (Str.int port >? 64000)
    then None
    else parse_input_ports rest (input_ports ++ [Str.int port])
  end.

(** The loop over [third_line_data[1:]], lines 477-492; unpacking a split
    that has not exactly three parts raises [ValueError]. *)
Fixpoint parse_outputs (tokens : list string) (input_ports : list Z)
    (outputs : list (Z * Z * Z)) : result (option (list (Z * Z * Z))) :=
  match tokens with
  | [] => Return (Some outputs)
  | token :: rest =>
    match Str.split_on "-" (Str.strip_char "," token) with
    | [port; metric; neighbor_id] =>
      if negb (Str.isdecimal port) || (Str.int port <? 1024) || (Str.int port >? 64000)
         || bool_decide (Str.int port ∈ input_ports)
      then Return None
      else if negb (Str.isdecimal metric) || (Str.int metric <? 1) || (Str.int metric >? 16)
      then Return None
      else if negb (Str.isdecimal neighbor_id) || (Str.int neighbor_id <? 1)
              || (Str.int neighbor_id >? 64000)
      then Return None
      else parse_outputs rest input_ports
             (outputs ++ [(Str.int port, Str.int metric, Str.int neighbor_id)])
    | _ => Raise ValueError
    end
  end.

Definition load_config_file (f : file)
    : result (option (Z * list Z * list (Z * Z * Z))) :=
  match f with
  | FileNotFound => Return None
  | File raw_lines =>
    let lines := content_lines raw_lines in
    match lines with
    | line0 :: line1 :: line2 :: _ =>
      let first_line_data := Str.split line0 in
      match first_line_data with
      | keyword :: route_id :: _ =>
        if negb (String.eqb keyword "router-id") then Return None else
        if negb (Str.isdecimal route_id) || (Str.int route_id <? 1)
           || (Str.int route_id >? 64000)
        then Return None else
        let second_line_data := Str.split line1 in
        match second_line_data with
        | keyword :: port0 :: ports =>
          if negb (String.eqb keyword "input-ports") then Return None else
          match parse_input_ports (port0 :: ports) [] with
          | None => Return None
          | Some input_ports =>
            if negb (length (remove_dups input_ports) =? length input_ports)%nat
            then Return None else
            let third_line_data := Str.split line2 in
            match third_line_data with
            | keyword :: output0 :: outs =>
              if negb (String.eqb keyword "outputs") then Return None else
              do parsed <- parse_outputs (output0 :: outs) input_ports [];
              match parsed with
              | None => Return None
              | Some outputs =>
                if negb (length input_ports =? length outputs)%nat then Return None
                else Return (Some (Str.int route_id, input_ports, outputs))
              end
            | _ => Return None
            end
          end
        | _ => Return None
        end
      | _ => Return None
      end
    | _ => Return None
    end
  end.

(** *** The constructor, lines 351-390 *)

Fixpoint initial_routes (id : Z) (outputs : list (Z * Z * Z)) (indices : list nat)
    (routes : list Route.t) : result (list Route.t) :=
  match indices with
  | [] => Return routes
  | index :: rest =>
    match outputs !! index with
    | None => Raise IndexError
    | Some (output_port, metric, neightbor) =>
      let route := Route.new id neightbor neightbor metric in
      let route := Route.activate_timeout_timer route 0 in
      initial_routes id outputs rest (routes ++ [route])
    end
  end.

Fixpoint initial_connections (id : Z) (input_ports : list Z)
    (outputs : list (Z * Z * Z)) (indices : list nat)
    (connections : list Connection.t) : result (list Connection.t) :=
  match indices with
  | [] => Return connections
  | index :: rest =>
    match input_ports !! index, outputs !! index with
    | Some input_port, Some (output_port, metric, neightbor) =>
      initial_connections id input_ports outputs rest
        (connections ++ [Connection.Build id neightbor input_port output_port metric])
    | _, _ => Raise IndexError
    end
  end.

Inductive startup : Set :=
| Started (daemon : t)
| Exit (code : Z)
| Uncaught (e : exn).

(** [RIPDaemon(file_name)]: [exit(1)] when the loader fails. *)
Definition init (f : file) : startup :=
  match load_config_file f with
  | Raise e => Uncaught e
  | Return None => Exit 1
  | Return (Some (id, input_ports, outputs)) =>
    let range := seq 0 (length input_ports) in
    match initial_routes id outputs range [] with
    | Raise e => Uncaught e
    | Return routes =>
      match initial_connections id input_ports outputs range [] with
      | Raise e => Uncaught e
      | Return connections => Started (Build id outputs connections routes [] [] 0)
      end
    end
  end.

(** *** Queries, lines 547-593 *)

Definition is_valid_router_id (router_id : Z) : bool :=
  (router_id <=? 64000) && (router_id >? 0).

Definition is_valid_metric (metric : Z) : bool :=
  (metric >=? 1) && (metric <=? INFINITE_METRIC).

Definition is_neighbor (self : t) (router_id : Z) : bool :=
  existsb (fun connection => Connection.neighbor_router_id connection =? router_id)
          (connections self).

(** [None] is Python's [None]. *)
Fixpoint metric_to_neighbor_in (outputs : list (Z * Z * Z)) (neighbor_router_id : Z)
    : option Z :=
  match outputs with
  | [] => None
  | (_, metric, neightbor) :: rest =>
    if neightbor =? neighbor_router_id then Some metric
    else metric_to_neighbor_in rest neighbor_router_id
  end.

Definition get_metric_to_neighbor (self : t) (neighbor_router_id : Z) : option Z :=
  metric_to_neighbor_in (outputs self) neighbor_router_id.

(** The table object found, with its position in [self.routes]. *)
Definition get_route_destinating_to (self : t) (dest : Z) : option (nat * Route.t) :=
  list_find (fun route => Route.dest route = dest) (routes self).

(** *** Timers, lines 596-631 and 732-755 *)

Definition invalidate_garbage_collection_timer (self : t)
    (neighbor_id destination_id : Z) : t :=
  match list_find (fun entry : nat * Z * Z =>
                     entry.1.2 = neighbor_id /\ entry.2 = destination_id)
                  (garbage_collection_timers self) with
  | Some (i, _) =>
    with_garbage_collection_timers self (delete i (garbage_collection_timers self))
  | None => self
  end.

Definition reset_timeout_timer (self : t) (neighbor_id destination_id : Z) : t :=
  match list_find (fun route =>
                     Route.neighbor route = neighbor_id /\ Route.dest route = destination_id)
                  (routes self) with
  | Some (i, route) =>
    let self :=
      with_routes self (<[i := Route.activate_timeout_timer route (now self)]> (routes self)) in
    invalidate_garbage_collection_timer self neighbor_id destination_id
  | None => self
  end.

Definition add_new_route (self : t) (neighbor destination metric : Z) : t :=
  let self := invalidate_garbage_collection_timer self neighbor destination in
  let new_route := Route.new (id self) destination neighbor metric in
  let new_route := Route.activate_timeout_timer new_route (now self) in
  with_routes self (routes self ++ [new_route]).

Definition activate_triggered_updates_timer (self : t) : t :=
  with_triggered_update_timers self (triggered_update_timers self ++ [now self]).

Definition activate_garbage_collection_timer (self : t) (neighbor destination : Z) : t :=
  if existsb (fun entry : nat * Z * Z =>
                (entry.1.2 =? neighbor) && (entry.2 =? destination))
             (garbage_collection_timers self)
  then self
  else with_garbage_collection_timers self
         (garbage_collection_timers self ++ [(now self, neighbor, destination)]).

(** *** update_routing_table, lines 634-716 *)

(** One iteration of [for route in routes]. *)
Definition update_route (self : t) (route : Route.t) : result t :=
  if negb (is_neighbor self (Route.src route)) then Return self else
  if negb (is_valid_router_id (Route.neighbor route)) then Return self else
  if negb (is_valid_router_id (Route.dest route)) then Return self else
  if negb (is_valid_metric (Route.metric route)) then Return self else
  if Route.dest route =? id self then
    if Route.neighbor route =? id self then
      match get_route_destinating_to self (Route.src route) with
      | None =>
        Return (add_new_route self (Route.src route) (Route.src route) (Route.metric route))
      | Some (i, route_in_routing_table) =>
        if Route.neighbor route_in_routing_table =? Route.src route then
          if negb (Route.metric route =? INFINITE_METRIC) then
            let self :=
              with_routes self
                (<[i := Route.set_metric route_in_routing_table (Route.metric route)]>
                   (routes self)) in
            Return (reset_timeout_timer self (Route.src route) (Route.src route))
          else Return self
        else
          if Route.metric route <? Route.metric route_in_routing_table then
            let self :=
              with_routes self
                (<[i := Route.set_metric
                          (Route.set_neighbor route_in_routing_table (Route.src route))
                          (Route.metric route)]>
                   (routes self)) in
            Return (reset_timeout_timer self (Route.src route) (Route.dest route))
          else Return self
      end
    else Return self
  else
    do metric_to_neighbor <-
      match get_metric_to_neighbor self (Route.src route) with
      | Some m => Return m
      | None => Raise TypeError
      end;
    let metric := Z.min (metric_to_neighbor + Route.metric route) INFINITE_METRIC in
    match get_route_destinating_to self (Route.dest route) with
    | None =>
      if negb (metric =? INFINITE_METRIC)
      then Return (add_new_route self (Route.src route) (Route.dest route) metric)
      else Return self
    | Some (i, route_in_routing_table) =>
      if Route.neighbor route_in_routing_table =? Route.src route then
        if negb (Route.metric route_in_routing_table =? INFINITE_METRIC) then
          let self :=
            with_routes self
              (<[i := Route.set_metric route_in_routing_table metric]> (routes self)) in
          if metric =? INFINITE_METRIC then
            let self := activate_triggered_updates_timer self in
            Return (activate_garbage_collection_timer self
                      (Route.neighbor route_in_routing_table)
                      (Route.dest route_in_routing_table))
          else Return (reset_timeout_timer self (Route.src route) (Route.dest route))
        else Return self
      else
        if metric <? Route.metric route_in_routing_table then
          let self :=
            with_routes self
              (<[i := Route.set_metric
                        (Route.set_neighbor route_in_routing_table (Route.src route))
                        metric]>
                 (routes self)) in
          Return (reset_timeout_timer self (Route.src route) (Route.dest route))
        else Return self
    end.

Fixpoint update_routing_table (self : t) (routes : list Route.t) : result t :=
  match routes with
  | [] => Return self
  | route :: rest =>
    do self <- update_route self route;
    update_routing_table self rest
  end.

(** The read branch of the event loop, lines 515-519, on the datagram read
    from the readable socket: a frame that fails to decode makes
    [receive_routing_table_entries_from_neighbor] return [None], and
    [for route in None] raises [TypeError]. *)
Definition on_readable (self : t) (data : list Z) : result t :=
  do routes <- Connection.receive_routing_table_entries_from_neighbor data;
  match routes with
  | None => Raise TypeError
  | Some routes => update_routing_table self routes
  end.

(** *** Timer callbacks, lines 786-818 *)

Definition timeout_timer_callback (self : t) (neighbor destination : Z) : t :=
  let self :=
    with_routes self
      (map (fun route =>
              if (Route.neighbor route =? neighbor) && (Route.dest route =? destination)
              then Route.set_metric route INFINITE_METRIC
              else route)
           (routes self)) in
  let self := activate_triggered_updates_timer self in
  activate_garbage_collection_timer self neighbor destination.

Definition garbage_collection_timer_callback (self : t) (neighbor destination : Z) : t :=
  with_routes self
    (filter (fun route =>
               ~ (Route.neighbor route = neighbor /\ Route.dest route = destination))
            (routes self)).

(** The clock advances between events. *)
Definition tick (self : t) : t :=
  Build (id self) (outputs self) (connections self) (routes self)
        (garbage_collection_timers self) (triggered_update_timers self) (S (now self)).

(** *** Reachable states

    The routing table is only touched under [self.lock]: by
    [update_routing_table] on a received frame, by the locked part of
    [timeout_timer_callback] and by [garbage_collection_timer_callback].
    The events of the daemon are therefore taken one at a time.  A timeout
    timer calls back with the [(neighbor, dest)] its route object holds when
    it fires, a garbage-collection timer with the pair it was created for;
    the relation lets either callback run with any pair and so covers every
    firing.  [timeout_timer_callback] appends to the timer lists after it
    has released the lock; the relation takes the callback as one step, and
    is used for what holds of the routing table and of the configuration. *)
Inductive reachable : t -> Prop :=
| reachable_init f daemon :
    init f = Started daemon -> reachable daemon
| reachable_update self routes self' :
    reachable self -> update_routing_table self routes = Return self' ->
    reachable self'
| reachable_timeout self neighbor destination :
    reachable self -> reachable (timeout_timer_callback self neighbor destination)
| reachable_garbage_collection self neighbor destination :
    reachable self ->
    reachable (garbage_collection_timer_callback self neighbor destination)
| reachable_tick self :
    reachable self -> reachable (tick self).
End RIPDaemon.

(** ** Wire layout, as [encode] writes it *)

Definition entry_bytes (entry : RIPEntry.t) : list Z :=
  [ Z.land (RIPEntry.address_family_identifier entry) 255; 0; 0; 0;
    Z.land (RIPEntry.dest_router_id entry) 255;
    Z.land (Z.shiftr (RIPEntry.dest_router_id entry) 8) 255; 0; 0;
    0; 0; 0; 0;
    Z.land (RIPEntry.next_hop entry) 255;
    Z.land (Z.shiftr (RIPEntry.dest_router_id entry) 8) 255; 0; 0;
    Z.land (RIPEntry.metric entry) 255; 0; 0; 0 ].

Definition header_bytes (self : ResponseMessage.t) : list Z :=
  [ ResponseMessage.command self; ResponseMessage.version self;
    Z.land (ResponseMessage.sending_router_id self) 255;
    Z.land (Z.shiftr (ResponseMessage.sending_router_id self) 8) 255 ].

Definition frame_bytes (self : ResponseMessage.t) : list Z :=
  header_bytes self ++ concat (map entry_bytes (ResponseMessage.rip_entries self)).

Definition is_byte (v : Z) : Prop := 0 <= v < 256.

(** The message whose next hop does not share its high byte with its
    destination: router 7 advertises destination 1 via next hop 513. *)
Definition next_hop_513 : ResponseMessage.t :=
  ResponseMessage.add_rip_entry (ResponseMessage.new 7) (Route.new 7 1 513 3).

(** ** What [decode] reads

    [entry_at data start_index] is the entry made of the six bytes that one
    iteration of the decoding loop reads; [entry_fields_valid] and
    [header_fields_valid] are the checks of lines 144-156 and 168-190 that let
    decoding go on. *)

Definition entry_at (data : list Z) (start_index : nat) : option RIPEntry.t :=
  match data !! start_index, data !! (start_index + 4)%nat, data !! (start_index + 5)%nat with
  | Some afi, Some d4, Some d5 =>
    match data !! (start_index + 12)%nat, data !! (start_index + 13)%nat,
          data !! (start_index + 16)%nat with
    | Some d12, Some d13, Some metric =>
      Some (RIPEntry.Build afi (d4 + d5 * 256) (d12 + d13 * 256) metric)
    | _, _, _ => None
    end
  | _, _, _ => None
  end.

Definition entry_fields_valid (entry : RIPEntry.t) : bool :=
  (RIPEntry.address_family_identifier entry =? 2)
  && negb ((RIPEntry.dest_router_id entry >? 64000) || (RIPEntry.dest_router_id entry <? 1))
  && negb ((RIPEntry.next_hop entry >? 64000) || (RIPEntry.next_hop entry <? 1))
  && negb (RIPEntry.metric entry >? INFINITE_METRIC).

Definition header_fields_valid (data : list Z) : bool :=
  match data !! 0%nat, data !! 1%nat, data !! 2%nat, data !! 3%nat with
  | Some c, Some v, Some d2, Some d3 =>
    (c =? 2) && (v =? 2) && negb ((d2 + d3 * 256 >? 64000) || (d2 + d3 * 256 <? 1))
  | _, _, _, _ => false
  end.

(** The number of entries [decode] loops over. *)
Definition entry_count (data : list Z) : nat := ((length data - 4) / 20)%nat.

(** A frame with a valid header followed by one all-zero entry. *)
Definition zero_entry_frame : list Z := [2; 2; 1; 0] ++ replicate 20 0.

(** A frame with one valid entry and seven trailing bytes. *)
Definition trailing_frame : list Z :=
  [2; 2; 9; 0;  2; 0; 0; 0;  5; 0; 0; 0;  0; 0; 0; 0;  5; 0; 0; 0;  3; 0; 0; 0;
   1; 2; 3; 4; 5; 6; 7].

(** ** Well-formed messages (spec section 4.2) *)

Definition well_formed_entry (entry : RIPEntry.t) : Prop :=
  RIPEntry.address_family_identifier entry = 2
  /\ 1 <= RIPEntry.dest_router_id entry <= 64000
  /\ 1 <= RIPEntry.next_hop entry <= 64000
  /\ 1 <= RIPEntry.metric entry <= 16.

Definition well_formed (self : ResponseMessage.t) : Prop :=
  ResponseMessage.command self = 2
  /\ ResponseMessage.version self = 2
  /\ 1 <= ResponseMessage.sending_router_id self <= 64000
  /\ Forall well_formed_entry (ResponseMessage.rip_entries self).

(** The entries for which the byte written at offset 13 happens to be the
    high byte of the next hop. *)
Definition same_high_byte (entry : RIPEntry.t) : Prop :=
  Z.shiftr (RIPEntry.next_hop entry) 8 = Z.shiftr (RIPEntry.dest_router_id entry) 8.

(** ** What a neighbour is sent

    [advertised self route] is the entry built from a table route for the
    neighbour of connection [self]; [direct_link self] is the entry appended
    to every message; [message_for self table i] is message number [i] for
    the table whose objects currently hold the values [table]. *)

Definition advertised (self : Connection.t) (route : Route.t) : RIPEntry.t :=
  RIPEntry.Build 2 (Route.dest route) (Route.neighbor route)
    (if (Route.neighbor route =? Connection.neighbor_router_id self)
        && negb (Route.dest route =? Connection.neighbor_router_id self)
     then INFINITE_METRIC else Route.metric route).

Definition direct_link (self : Connection.t) : RIPEntry.t :=
  RIPEntry.Build 2 (Connection.neighbor_router_id self)
    (Connection.neighbor_router_id self) (Connection.metric self).

Definition message_for (self : Connection.t) (table : list Route.t) (i : nat)
    : ResponseMessage.t :=
  ResponseMessage.Build 2 2 (Connection.sending_router_id self)
    (map (advertised self) (drop (i * 25) table) ++ [direct_link self]).

Definition message_count (routes : nat) : nat :=
  if negb (routes mod 25 =? 0)%nat then (routes / 25 + 1)%nat else (routes / 25)%nat.

(** Every address of [routes] holds an object of the store. *)
Definition allocated (h : Store.t) (routes : list ref) : Prop :=
  Forall (fun l => (l < Store.next h)%nat) routes.

(** [h'] has every object of [h], unchanged, and possibly more. *)
Definition extends (h h' : Store.t) : Prop :=
  (Store.next h <= Store.next h')%nat
  /\ forall l, (l < Store.next h)%nat -> Store.load h' l = Store.load h l.

(** The store that holds the objects of a table, object [i] at address [i],
    and the daemon's table as the list of their addresses. *)
Definition table_store (table : list Route.t) : Store.t :=
  Store.Build (fun l => default (Route.new 0 0 0 0) (table !! l)) (length table).

Definition table_refs (table : list Route.t) : list ref := seq 0 (length table).

(** A table of 26 routes learnt through neighbour 3, to destinations
    101 .. 126, sent by router 1 to its neighbour 2 over a link of metric 1. *)
Definition table_26 : list Route.t :=
  map (fun k => Route.new 1 (100 + Z.of_nat k) 3 2) (seq 1 26).

Definition link_1_2 : Connection.t := Connection.Build 1 2 6110 5000 1.

(** Router 1's table with its two neighbours 2 and 3 and two learnt routes,
    one through each. *)
Definition table_4 : list Route.t :=
  [ Route.new 1 2 2 1; Route.new 1 3 3 4; Route.new 1 5 2 3; Route.new 1 6 3 5 ].

(** ** The routing table *)

Definition unique_dests (routes : list Route.t) : Prop :=
  NoDup (map Route.dest routes).

Definition neighbor_ids (outputs : list (Z * Z * Z)) : list Z :=
  map (fun output => output.2) outputs.

(** The route installed at start-up for one configured output. *)
Definition direct_route (id : Z) (output : Z * Z * Z) : Route.t :=
  Route.activate_timeout_timer (Route.new id output.2 output.2 output.1.2) 0.

(** ** Configuration files, as [readlines] returns them *)

Definition nl : string := String "010" EmptyString.

(** Router 1 with neighbours 2 and 3. *)
Definition config_1 : file :=
  File [ ("# router 1" ++ nl)%string;
         ("router-id 1" ++ nl)%string;
         nl;
         ("input-ports 6110, 6201" ++ nl)%string;
         ("outputs 5000-1-2, 5001-5-3" ++ nl)%string ].

(** Two links to the same neighbour 2. *)
Definition config_two_links : file :=
  File [ ("router-id 1" ++ nl)%string;
         ("input-ports 6110, 6201" ++ nl)%string;
         ("outputs 5000-1-2, 5001-5-2" ++ nl)%string ].

(** Four content lines. *)
Definition config_four_lines : file :=
  File [ ("router-id 1" ++ nl)%string;
         ("input-ports 6110, 6201" ++ nl)%string;
         ("outputs 5000-1-2, 5001-5-3" ++ nl)%string;
         ("timers 7" ++ nl)%string ].

(** A token after the router id. *)
Definition config_extra_token : file :=
  File [ ("router-id 1 backbone" ++ nl)%string;
         ("input-ports 6110, 6201" ++ nl)%string;
         ("outputs 5000-1-2, 5001-5-3" ++ nl)%string ].

(** The metric of the first output is out of range. *)
Definition config_bad_metric : file :=
  File [ ("router-id 1" ++ nl)%string;
         ("input-ports 6110, 6201" ++ nl)%string;
         ("outputs 5000-17-2, 5001-5-3" ++ nl)%string ].

(** ** Daemon states used as examples

    [daemon_1] is router 1 just started from [config_1].  One instant later
    neighbour 2 advertises destination 7 at metric 3 ([daemon_1_learnt]); one
    instant later it advertises 7 at metric 16 ([daemon_1_poisoned]); one
    instant later garbage collection for (2, 7) fires
    ([daemon_1_collected]). *)

Definition stopped : RIPDaemon.t := RIPDaemon.Build 0 [] [] [] [] [] 0.

Definition started (f : file) : RIPDaemon.t :=
  match RIPDaemon.init f with
  | RIPDaemon.Started daemon => daemon
  | _ => stopped
  end.

Definition received (self : RIPDaemon.t) (routes : list Route.t) : RIPDaemon.t :=
  match RIPDaemon.update_routing_table self routes with
  | Return self' => self'
  | Raise _ => stopped
  end.

Definition daemon_1 : RIPDaemon.t := Eval vm_compute in started config_1.

Definition daemon_1_learnt : RIPDaemon.t :=
  Eval vm_compute in received (RIPDaemon.tick daemon_1) [Route.new 2 7 2 3].

Definition daemon_1_poisoned : RIPDaemon.t :=
  Eval vm_compute in received (RIPDaemon.tick daemon_1_learnt) [Route.new 2 7 2 16].

Definition daemon_1_refresh : RIPDaemon.t :=
  Eval vm_compute in RIPDaemon.tick daemon_1_poisoned.

Definition daemon_1_collected : RIPDaemon.t :=
  Eval vm_compute in
    RIPDaemon.garbage_collection_timer_callback daemon_1_refresh 2 7.

Definition daemon_two_links : RIPDaemon.t := Eval vm_compute in started config_two_links.

(** The destination, next hop and metric of a route. *)
Definition fields (route : Route.t) : Z * Z * Z :=
  (Route.dest route, Route.neighbor route, Route.metric route).

(** Router 1 after the direct route to neighbour 2 timed out and was
    collected. *)
Definition daemon_1_lost_2 : RIPDaemon.t :=
  Eval vm_compute in
    RIPDaemon.garbage_collection_timer_callback
      (RIPDaemon.timeout_timer_callback daemon_1 2 2) 2 2.

(** ** Accepted configurations (spec section 4.1)

    [accepted f id input_ports outputs]: the file has at least three content
    lines; the first reads [router-id N ...] with [N] a decimal in
    [1, 64000]; the second reads [input-ports P1 P2 ...] with at least one
    port, each a decimal in [1024, 64000] once surrounding commas are
    dropped, all distinct; the third reads [outputs T1 T2 ...] with at least
    one triple, each [port-metric-id] of decimals with the port in
    [1024, 64000] and not an input port, the metric in [1, 16] and the id in
    [1, 64000]; and there are as many outputs as input ports. *)

Definition decimal_in (s : string) (lo hi : Z) : Prop :=
  Str.isdecimal s = true /\ lo <= Str.int s <= hi.

Definition input_port_of (token : string) (port : Z) : Prop :=
  decimal_in (Str.strip_char "," token) 1024 64000
  /\ port = Str.int (Str.strip_char "," token).

Definition output_of (input_ports : list Z) (token : string) (output : Z * Z * Z) : Prop :=
  exists port metric neighbor_id,
    Str.split_on "-" (Str.strip_char "," token) = [port; metric; neighbor_id]
    /\ decimal_in port 1024 64000
    /\ (Str.int port ∉ input_ports)
    /\ decimal_in metric 1 16
    /\ decimal_in neighbor_id 1 64000
    /\ output = (Str.int port, Str.int metric, Str.int neighbor_id).

Definition accepted (f : file) (id : Z) (input_ports : list Z)
    (outputs : list (Z * Z * Z)) : Prop :=
  exists raw_lines line0 line1 line2 more route_id rest port_tokens output_tokens,
    f = File raw_lines
    /\ RIPDaemon.content_lines raw_lines = line0 :: line1 :: line2 :: more
    /\ Str.split line0 = "router-id"%string :: route_id :: rest
    /\ decimal_in route_id 1 64000
    /\ id = Str.int route_id
    /\ Str.split line1 = "input-ports"%string :: port_tokens
    /\ port_tokens <> []
    /\ Forall2 input_port_of port_tokens input_ports
    /\ NoDup input_ports
    /\ Str.split line2 = "outputs"%string :: output_tokens
    /\ output_tokens <> []
    /\ Forall2 (output_of input_ports) output_tokens outputs
    /\ length outputs = length input_ports.

(** The interpreter refuses to convert a decimal string of more than 4300
    digits: there [int] raises [ValueError].  No token of a file whose lines
    have at most 4300 characters is that long. *)
Definition within_int_limit (f : file) : Prop :=
  match f with
  | FileNotFound => True
  | File raw_lines => Forall (fun line => (String.length line <= 4300)%nat) raw_lines
  end.

(** Every token after the keyword of the third content line has three
    parts between its ['-'] separators, so that the unpacking of line 478
    has three values to bind. *)
Definition outputs_are_triples (f : file) : Prop :=
  forall raw_lines line0 line1 line2 more,
    f = File raw_lines ->
    RIPDaemon.content_lines raw_lines = line0 :: line1 :: line2 :: more ->
    Forall (fun token =>
              length (Str.split_on "-" (Str.strip_char "," token)) = 3%nat)
           (tail (Str.split line2)).

(** ** What every reachable state satisfies

    [output_ok] are the ranges the loader enforces on an output;
    [route_ok id neighbors route]: the route was produced by router [id], goes
    through one of [neighbors], and has its destination, metric and timeout
    timer in place; [timer_key] is the [(neighbor, destination)] pair a
    garbage-collection timer was created for. *)

Definition output_ok (output : Z * Z * Z) : Prop :=
  1024 <= output.1.1 <= 64000 /\ 1 <= output.1.2 <= 16 /\ 1 <= output.2 <= 64000.

Definition route_ok (id : Z) (neighbors : list Z) (route : Route.t) : Prop :=
  Route.src route = id
  /\ Route.neighbor route ∈ neighbors
  /\ 1 <= Route.dest route <= 64000
  /\ 1 <= Route.metric route <= INFINITE_METRIC
  /\ is_Some (Route.timeout_timer route).

Definition timer_key (entry : nat * Z * Z) : Z * Z := (entry.1.2, entry.2).

Definition invariant (self : RIPDaemon.t) : Prop :=
  1 <= RIPDaemon.id self <= 64000
  /\ Forall output_ok (RIPDaemon.outputs self)
  /\ map Connection.neighbor_router_id (RIPDaemon.connections self)
     = neighbor_ids (RIPDaemon.outputs self)
  /\ Forall (route_ok (RIPDaemon.id self) (neighbor_ids (RIPDaemon.outputs self)))
            (RIPDaemon.routes self)
  /\ NoDup (map timer_key (RIPDaemon.garbage_collection_timers self)).

(** The part of the state that only start-up writes. *)
Definition configuration (self : RIPDaemon.t) : Z * list (Z * Z * Z) * list Connection.t :=
  (RIPDaemon.id self, RIPDaemon.outputs self, RIPDaemon.connections self).

(** The connection opened at start-up for an input port and the output at
    the same index. *)
Definition connection_of (id : Z) (input_port : Z) (output : Z * Z * Z) : Connection.t :=
  Connection.Build id output.2 input_port output.1.1 output.1.2.

(** The message built by the constructor and one [add_rip_entry] per
    route. *)
Definition built (router_id : Z) (routes : list Route.t) : ResponseMessage.t :=
  fold_left ResponseMessage.add_rip_entry routes (ResponseMessage.new router_id).

(** The routes [receive_routing_table_entries_from_neighbor] makes of a
    decoded message. *)
Definition routes_of (msg : ResponseMessage.t) : list Route.t :=
  map (fun entry =>
         Route.new (ResponseMessage.sending_router_id msg)
                   (RIPEntry.dest_router_id entry) (RIPEntry.next_hop entry)
                   (RIPEntry.metric entry))
      (ResponseMessage.rip_entries msg).

(** A table route whose destination and next hop are below 256. *)
Definition small_route (route : Route.t) : Prop :=
  1 <= Route.dest route < 256
  /\ 1 <= Route.neighbor route < 256
  /\ 1 <= Route.metric route <= INFINITE_METRIC.

(** [recvfrom(bufsize)] on a datagram socket, line 246: the datagram is
    returned whole when it fits the buffer; bytes beyond the buffer size
    are dropped. *)
Definition recvfrom (bufsize : nat) (datagram : list Z) : list Z :=
  take bufsize datagram.

(** ** Effects on the list of garbage-collection timers

    [first_timer_removed n d old new]: [new] is [old] without its first
    timer for the pair ([n], [d]); when [old] has no timer for the pair the
    two lists are the same. *)
Definition first_timer_removed (n d : Z) (old new : list (nat * Z * Z)) : Prop :=
  ((forall timer, (timer, n, d) ∉ old) /\ new = old)
  \/ exists before timer after,
       old = before ++ (timer, n, d) :: after
       /\ (forall timer', (timer', n, d) ∉ before)
       /\ new = before ++ after.

(** Router 1 after the timeout of its direct route to neighbour 2: the route
    has metric 16 and the garbage-collection timer of (2, 2) is running. *)
Definition daemon_1_timed_out_2 : RIPDaemon.t :=
  Eval vm_compute in RIPDaemon.timeout_timer_callback daemon_1 2 2.

(** Router 1 after it lost its direct route to neighbour 2 and learnt a
    route to 2 through neighbour 3. *)
Definition daemon_1_detour_2 : RIPDaemon.t :=
  Eval vm_compute in received daemon_1_lost_2 [Route.new 3 2 3 1].

(** Router 1 holding a stale timer: it learnt destination 7 through
    neighbour 3, the route timed out and was collected (the timer of (3, 7)
    stays in the list), and it learnt 7 again through neighbour 2. *)
Definition daemon_1_stale_timer : RIPDaemon.t :=
  Eval vm_compute in
    received
      (RIPDaemon.garbage_collection_timer_callback
         (RIPDaemon.timeout_timer_callback (received daemon_1 [Route.new 3 7 3 4]) 3 7)
         3 7)
      [Route.new 2 7 2 9].

(** Router 1 after the route of [daemon_1_detour_2] went back to neighbour
    2: the timer of (2, 2) is still in the list. *)
Definition daemon_1_rebound_2 : RIPDaemon.t :=
  Eval vm_compute in received daemon_1_detour_2 [Route.new 2 1 1 1].

(** The largest payload of a UDP datagram over IPv4 (65535 bytes less the
    IP and UDP headers); [sendto] raises [OSError] on a longer one. *)
Definition UDP_MAX_PAYLOAD : Z := 65507.

(** * Properties *)

(** ** The result monad *)

Lemma bind_inv {A B : Type} (m : result A) (k : A -> result B) (b : B) :
  bind m k = Return b -> exists a, m = Return a /\ k a = Return b.
Proof. destruct m as [a|e]; simpl; [eauto | discriminate]. Qed.

(** ** Bytes *)

Lemma land_255_byte (x : Z) : is_byte (Z.land x 255).
Proof.
  unfold is_byte. change 255 with (Z.ones 8).
  rewrite Z.land_ones by lia. apply Z.mod_pos_bound. lia.
Qed.

Lemma zero_byte : is_byte 0.
Proof. unfold is_byte. lia. Qed.

Lemma split_16 (x : Z) :
  0 <= x < 65536 -> Z.land x 255 + Z.land (Z.shiftr x 8) 255 * 256 = x.
Proof.
  intros Hx. change 255 with (Z.ones 8).
  rewrite !Z.land_ones, Z.shiftr_div_pow2 by lia.
  change (2 ^ 8) with 256.
  rewrite (Z.mod_small (x / 256)) by (split; [apply Z.div_pos | apply Z.div_lt_upper_bound]; lia).
  pose proof (Z.div_mod x 256). lia.
Qed.

Lemma setitem_ok (message : list Z) (k : nat) (v : Z) :
  (k < length message)%nat -> is_byte v ->
  setitem message k v = Return (<[k:=v]> message).
Proof.
  intros Hk [Hv0 Hv1]. unfold setitem.
  destruct (Nat.ltb_spec k (length message)); [|lia].
  destruct (Z.leb_spec 0 v); [|lia]. destruct (Z.ltb_spec v 256); [|lia].
  reflexivity.
Qed.

Lemma setitem_app (pre blk : list Z) (k : nat) (v : Z) :
  (k < length blk)%nat -> is_byte v ->
  setitem (pre ++ blk) (length pre + k) v = Return (pre ++ <[k:=v]> blk).
Proof.
  intros Hk Hv. rewrite setitem_ok by (rewrite ?length_app; lia || done).
  by rewrite insert_app_r.
Qed.

Lemma setitem_app0 (pre blk : list Z) (v : Z) :
  (0 < length blk)%nat -> is_byte v ->
  setitem (pre ++ blk) (length pre) v = Return (pre ++ <[0%nat:=v]> blk).
Proof. intros. rewrite <- (Nat.add_0_r (length pre)) at 1. by apply setitem_app. Qed.

Ltac write_item :=
  (rewrite setitem_app || rewrite setitem_app0);
  [ cbn [bind insert list_insert]
  | simpl; lia
  | auto using land_255_byte, zero_byte ].

Lemma encode_entries_frame (entries : list RIPEntry.t) :
  forall (pre post : list Z) (start_index : nat),
    length pre = start_index ->
    ResponseMessage.encode_entries entries start_index
      (pre ++ replicate (20 * length entries) 0 ++ post)
    = Return (pre ++ concat (map entry_bytes entries) ++ post).
Proof.
  induction entries as [|entry rest IH]; intros pre post start_index Hpre.
  - reflexivity.
  - replace (20 * length (entry :: rest))%nat with (20 + 20 * length rest)%nat
      by (simpl; lia).
    rewrite replicate_add. cbn [replicate app ResponseMessage.encode_entries].
    subst start_index. do 20 write_item.
    specialize (IH (pre ++ entry_bytes entry) post (length pre + 20)%nat).
    rewrite <- !app_assoc in IH. cbn [entry_bytes app] in IH.
    rewrite IH; [reflexivity|]. rewrite length_app. simpl. lia.
Qed.

Lemma encode_frame (self : ResponseMessage.t) :
  is_byte (ResponseMessage.command self) -> is_byte (ResponseMessage.version self) ->
  ResponseMessage.encode self = Return (frame_bytes self).
Proof.
  intros Hc Hv. unfold ResponseMessage.encode, frame_bytes.
  rewrite replicate_add. cbn [replicate app].
  do 4 (rewrite setitem_ok;
        [ cbn [bind insert list_insert] | simpl; lia | auto using land_255_byte ]).
  pose proof (encode_entries_frame (ResponseMessage.rip_entries self)
                (header_bytes self) [] 4%nat eq_refl) as H.
  rewrite !app_nil_r in H. exact H.
Qed.

(** ** Decoding *)

Lemma getitem_lookup (data : list Z) (i : nat) (b : Z) :
  data !! i = Some b -> getitem data i = Return b.
Proof. unfold getitem. by intros ->. Qed.

Lemma decode_entries_ext (data data' : list Z) (n : nat) :
  forall (start_index : nat) (self : ResponseMessage.t),
    (forall i, (i < start_index + 20 * n)%nat -> data !! i = data' !! i) ->
    ResponseMessage.decode_entries data n start_index self
    = ResponseMessage.decode_entries data' n start_index self.
Proof.
  induction n as [|n IH]; intros start_index self Hagree; [reflexivity|].
  cbn [ResponseMessage.decode_entries]. unfold getitem.
  rewrite <- !Hagree by lia.
  repeat match goal with
         | |- context [match data !! ?i with _ => _ end] =>
           destruct (data !! i); cbn [bind]; [|reflexivity]
         | |- context [if ?b then _ else _] => destruct b; [reflexivity|]
         end.
  apply IH. intros i Hi. apply Hagree. lia.
Qed.

Lemma decode_entries_step (data : list Z) (n start_index : nat)
    (self : ResponseMessage.t) (entry : RIPEntry.t) :
  entry_at data start_index = Some entry -> entry_fields_valid entry = true ->
  ResponseMessage.decode_entries data (S n) start_index self
  = ResponseMessage.decode_entries data n (start_index + 20)
      (ResponseMessage.append_entry self entry).
Proof.
  unfold entry_at, entry_fields_valid. intros Hat Hvalid.
  destruct (data !! start_index) as [afi|] eqn:E0; [|discriminate].
  destruct (data !! (start_index + 4)%nat) as [d4|] eqn:E4; [|discriminate].
  destruct (data !! (start_index + 5)%nat) as [d5|] eqn:E5; [|discriminate].
  destruct (data !! (start_index + 12)%nat) as [d12|] eqn:E12; [|discriminate].
  destruct (data !! (start_index + 13)%nat) as [d13|] eqn:E13; [|discriminate].
  destruct (data !! (start_index + 16)%nat) as [m|] eqn:E16; [|discriminate].
  injection Hat as <-. cbn [RIPEntry.address_family_identifier RIPEntry.dest_router_id
                           RIPEntry.next_hop RIPEntry.metric] in Hvalid.
  apply andb_prop in Hvalid as [Hvalid Hm].
  apply andb_prop in Hvalid as [Hvalid Hn].
  apply andb_prop in Hvalid as [Hafi Hd].
  apply negb_true_iff in Hm, Hn, Hd.
  cbn [ResponseMessage.decode_entries].
  rewrite (getitem_lookup _ _ _ E0), (getitem_lookup _ _ _ E4), (getitem_lookup _ _ _ E5),
    (getitem_lookup _ _ _ E12), (getitem_lookup _ _ _ E13), (getitem_lookup _ _ _ E16).
  cbn [bind]. rewrite Hafi, Hd, Hn. cbn [negb].
  apply orb_false_iff in Hn as [_ Hn]. rewrite Hm, Hn. reflexivity.
Qed.

Lemma decode_entries_ok (data : list Z) (n : nat) :
  forall (start_index : nat) (self : ResponseMessage.t),
    (forall j, (j < n)%nat ->
       exists entry, entry_at data (start_index + 20 * j) = Some entry
                     /\ entry_fields_valid entry = true) ->
    exists entries,
      ResponseMessage.decode_entries data n start_index self
      = Return (true, ResponseMessage.Build (ResponseMessage.command self)
                        (ResponseMessage.version self)
                        (ResponseMessage.sending_router_id self)
                        (ResponseMessage.rip_entries self ++ entries))
      /\ length entries = n
      /\ forall j, (j < n)%nat -> entry_at data (start_index + 20 * j) = entries !! j.
Proof.
  induction n as [|n IH]; intros start_index self Hvalid.
  - exists []. rewrite app_nil_r. destruct self. split; [reflexivity|].
    split; [reflexivity|]. lia.
  - destruct (Hvalid 0%nat ltac:(lia)) as (entry & Hat & Hok).
    rewrite Nat.mul_0_r, Nat.add_0_r in Hat.
    rewrite (decode_entries_step _ _ _ _ _ Hat Hok).
    destruct (IH (start_index + 20)%nat (ResponseMessage.append_entry self entry))
      as (entries & Hdec & Hlen & Hlook).
    { intros j Hj. destruct (Hvalid (S j) ltac:(lia)) as (e & He & Hv).
      exists e. split; [|done]. rewrite <- He. f_equal. lia. }
    exists (entry :: entries). rewrite Hdec. cbn -[Nat.mul].
    rewrite <- app_assoc. split; [reflexivity|].
    split; [by rewrite Hlen|].
    intros [|j] Hj.
    + by rewrite Nat.mul_0_r, Nat.add_0_r.
    + cbn [lookup list_lookup]. rewrite <- Hlook by lia. f_equal. lia.
Qed.

Lemma entry_number_count (data : list Z) :
  (4 <= length data)%nat ->
  Z.to_nat ((Z.of_nat (length data) - 4) / 20) = entry_count data.
Proof.
  intros Hlen. unfold entry_count.
  replace (Z.of_nat (length data) - 4) with (Z.of_nat (length data - 4)) by lia.
  change 20 with (Z.of_nat 20). by rewrite <- Nat2Z.inj_div, Nat2Z.id.
Qed.

Lemma header_valid_length (data : list Z) :
  header_fields_valid data = true -> (4 <= length data)%nat.
Proof.
  unfold header_fields_valid. intros H.
  destruct (data !! 3%nat) as [d3|] eqn:E3.
  - apply lookup_lt_Some in E3. lia.
  - by destruct (data !! 0%nat), (data !! 1%nat), (data !! 2%nat).
Qed.

Lemma decode_valid_header (data : list Z) :
  header_fields_valid data = true ->
  ResponseMessage.decode (ResponseMessage.new 0) data
  = ResponseMessage.decode_entries data (entry_count data) 4
      (ResponseMessage.Build 2 2
         (default 0 (data !! 2%nat) + default 0 (data !! 3%nat) * 256) []).
Proof.
  intros Hvalid. pose proof (header_valid_length _ Hvalid) as Hlen.
  unfold header_fields_valid in Hvalid. unfold ResponseMessage.decode, getitem.
  rewrite (entry_number_count _ Hlen).
  destruct (data !! 0%nat) as [c|]; [|discriminate].
  destruct (data !! 1%nat) as [v|]; [|discriminate].
  destruct (data !! 2%nat) as [d2|]; [|discriminate].
  destruct (data !! 3%nat) as [d3|]; [|discriminate].
  apply andb_prop in Hvalid as [Hvalid Hid].
  apply andb_prop in Hvalid as [Hc Hv].
  apply negb_true_iff in Hid. apply Z.eqb_eq in Hc, Hv. subst c v.
  cbn. rewrite Hid. reflexivity.
Qed.

Lemma header_valid_take (data : list Z) (k : nat) :
  (4 <= k)%nat -> header_fields_valid (take k data) = header_fields_valid data.
Proof. intros Hk. unfold header_fields_valid. by rewrite !lookup_take_lt by lia. Qed.

Lemma entry_count_bound (data : list Z) :
  (4 <= length data)%nat -> (4 + 20 * entry_count data <= length data)%nat.
Proof.
  intros Hlen. unfold entry_count.
  pose proof (Nat.Div0.mul_div_le (length data - 4) 20). lia.
Qed.

Lemma entry_count_take (data : list Z) :
  (4 <= length data)%nat ->
  entry_count (take (4 + 20 * entry_count data) data) = entry_count data.
Proof.
  intros Hlen. pose proof (entry_count_bound _ Hlen) as Hb.
  unfold entry_count at 1. rewrite length_take_le by done.
  replace (4 + 20 * entry_count data - 4)%nat with (entry_count data * 20)%nat by lia.
  by rewrite Nat.div_mul.
Qed.

Lemma decode_complete_entries (data : list Z) :
  header_fields_valid data = true ->
  (forall j, (j < entry_count data)%nat ->
     exists entry, entry_at data (4 + 20 * j) = Some entry
                   /\ entry_fields_valid entry = true) ->
  exists entries,
    let msg :=
      ResponseMessage.Build 2 2
        (default 0 (data !! 2%nat) + default 0 (data !! 3%nat) * 256) entries in
    ResponseMessage.decode (ResponseMessage.new 0) data = Return (true, msg)
    /\ length entries = entry_count data
    /\ (forall j, (j < entry_count data)%nat -> entries !! j = entry_at data (4 + 20 * j))
    /\ ResponseMessage.decode (ResponseMessage.new 0)
         (take (4 + 20 * entry_count data) data) = Return (true, msg).
Proof.
  intros Hheader Hentries.
  pose proof (header_valid_length _ Hheader) as Hlen.
  pose proof (entry_count_bound _ Hlen) as Hbound.
  destruct (decode_entries_ok data (entry_count data) 4
              (ResponseMessage.Build 2 2
                 (default 0 (data !! 2%nat) + default 0 (data !! 3%nat) * 256) [])
              Hentries) as (entries & Hdec & Hcount & Hlook).
  cbn [ResponseMessage.command ResponseMessage.version ResponseMessage.sending_router_id
       ResponseMessage.rip_entries app] in Hdec.
  exists entries. cbv zeta. split.
  { rewrite decode_valid_header by done. exact Hdec. }
  split; [exact Hcount|]. split.
  { intros j Hj. symmetry. by apply Hlook. }
  rewrite decode_valid_header by (by rewrite header_valid_take by lia).
  rewrite entry_count_take, !lookup_take_lt by lia.
  rewrite <- Hdec. apply decode_entries_ext.
  intros i Hi. by rewrite lookup_take_lt by lia.
Qed.

(** C9, as the code has it.  A buffer of at least four bytes whose header
    fields are valid and whose [(len - 4) div 20] complete entries all pass
    the entry checks is decoded successfully into exactly that many entries,
    entry [j] being read at offset [4 + 20 j]; the bytes after the last
    complete entry are not looked at, so the buffer cut after that entry
    decodes to the same message.  A four-byte buffer gives the empty
    message. *)
Theorem decode_parses_complete_entries (data : list Z) :
  (4 <= length data)%nat ->
  header_fields_valid data = true ->
  (forall j, (j < entry_count data)%nat ->
     exists entry, entry_at data (4 + 20 * j) = Some entry
                   /\ entry_fields_valid entry = true) ->
  exists msg,
    ResponseMessage.decode (ResponseMessage.new 0) data = Return (true, msg)
    /\ length (ResponseMessage.rip_entries msg) = entry_count data
    /\ (forall j, (j < entry_count data)%nat ->
          ResponseMessage.rip_entries msg !! j = entry_at data (4 + 20 * j))
    /\ ResponseMessage.decode (ResponseMessage.new 0)
         (take (4 + 20 * entry_count data) data) = Return (true, msg).
Proof.
  intros _ Hheader Hentries.
  destruct (decode_complete_entries data Hheader Hentries) as (entries & H).
  eexists. exact H.
Qed.

Lemma decode_parses_complete_entries_witness :
  exists msg,
    ResponseMessage.decode (ResponseMessage.new 0) trailing_frame = Return (true, msg)
    /\ length (ResponseMessage.rip_entries msg) = entry_count trailing_frame
    /\ (forall j, (j < entry_count trailing_frame)%nat ->
          ResponseMessage.rip_entries msg !! j = entry_at trailing_frame (4 + 20 * j))
    /\ ResponseMessage.decode (ResponseMessage.new 0)
         (take (4 + 20 * entry_count trailing_frame) trailing_frame) = Return (true, msg).
Proof.
  apply (decode_parses_complete_entries trailing_frame).
  - vm_compute. lia.
  - reflexivity.
  - intros j Hj. change (entry_count trailing_frame) with 1%nat in Hj.
    destruct j as [|j]; [|lia].
    exists (RIPEntry.Build 2 5 5 3). split; reflexivity.
Defined.

(** C9, as stated, fails: a valid header does not make decoding succeed.
    The 24-byte buffer [zero_entry_frame] has a valid header and one complete
    entry whose address family identifier is 0; decoding returns [False]. *)
Lemma decode_valid_header_bad_entry :
  (4 <= length zero_entry_frame)%nat
  /\ header_fields_valid zero_entry_frame = true
  /\ entry_count zero_entry_frame = 1%nat
  /\ ResponseMessage.decode (ResponseMessage.new 0) zero_entry_frame
     = Return (false, ResponseMessage.Build 2 2 1 []).
Proof. repeat split; try reflexivity. vm_compute. lia. Qed.

(** A four-byte buffer with a valid header is the empty message. *)
Lemma decode_header_only (c v d2 d3 : Z) :
  header_fields_valid [c; v; d2; d3] = true ->
  ResponseMessage.decode (ResponseMessage.new 0) [c; v; d2; d3]
  = Return (true, ResponseMessage.Build 2 2 (d2 + d3 * 256) []).
Proof. intros H. by rewrite decode_valid_header. Qed.

(** ** The frame written by [encode] *)

Lemma entry_bytes_length (entry : RIPEntry.t) : length (entry_bytes entry) = 20%nat.
Proof. reflexivity. Qed.

Lemma concat_entry_bytes_length (entries : list RIPEntry.t) :
  length (concat (map entry_bytes entries)) = (20 * length entries)%nat.
Proof.
  induction entries as [|entry rest IH]; [reflexivity|].
  cbn [map concat]. rewrite length_app, IH, entry_bytes_length. simpl. lia.
Qed.

Lemma frame_bytes_length (self : ResponseMessage.t) :
  length (frame_bytes self) = (4 + 20 * length (ResponseMessage.rip_entries self))%nat.
Proof. unfold frame_bytes. by rewrite length_app, concat_entry_bytes_length. Qed.

Lemma concat_entry_lookup (entries : list RIPEntry.t) :
  forall (i k : nat) (entry : RIPEntry.t),
    entries !! i = Some entry -> (k < 20)%nat ->
    concat (map entry_bytes entries) !! (20 * i + k)%nat = entry_bytes entry !! k.
Proof.
  induction entries as [|e rest IH]; intros i k entry Hi Hk; [done|].
  cbn [map concat]. destruct i as [|i].
  - injection Hi as ->. rewrite Nat.mul_0_r. by apply lookup_app_l.
  - rewrite lookup_app_r by (rewrite entry_bytes_length; lia).
    rewrite entry_bytes_length, <- (IH i k entry Hi Hk). f_equal. lia.
Qed.

Lemma frame_entry_lookup (self : ResponseMessage.t) (i k : nat) (entry : RIPEntry.t) :
  ResponseMessage.rip_entries self !! i = Some entry -> (k < 20)%nat ->
  frame_bytes self !! (4 + 20 * i + k)%nat = entry_bytes entry !! k.
Proof.
  intros Hi Hk. unfold frame_bytes.
  rewrite lookup_app_r by (simpl; lia).
  rewrite <- (concat_entry_lookup _ i k entry Hi Hk). f_equal. simpl. lia.
Qed.

(** Bytes 12 and 13 of every entry of every encoded message: the low byte of
    the next hop, and the high byte of the destination. *)
Lemma encode_next_hop_bytes (self : ResponseMessage.t) (i : nat) (entry : RIPEntry.t) :
  is_byte (ResponseMessage.command self) -> is_byte (ResponseMessage.version self) ->
  ResponseMessage.rip_entries self !! i = Some entry ->
  exists data,
    ResponseMessage.encode self = Return data
    /\ data !! (4 + 20 * i + 12)%nat = Some (Z.land (RIPEntry.next_hop entry) 255)
    /\ data !! (4 + 20 * i + 13)%nat
       = Some (Z.land (Z.shiftr (RIPEntry.dest_router_id entry) 8) 255).
Proof.
  intros Hc Hv Hi. exists (frame_bytes self). split; [by apply encode_frame|].
  by rewrite !(frame_entry_lookup self i _ entry Hi) by lia.
Qed.

(** C1: the code departs from the claim.  For the entry (dest 1, next hop
    513) the encoder writes the low byte of the next hop, 1, at entry byte 12,
    and at entry byte 13 the high byte of the destination, 0, whereas the
    high byte of the next hop is 2. *)
Theorem encode_byte_13_not_next_hop :
  exists data,
    ResponseMessage.encode next_hop_513 = Return data
    /\ data !! (4 + 12)%nat = Some (Z.land 513 255)
    /\ data !! (4 + 13)%nat = Some 0
    /\ Z.land (Z.shiftr 513 8) 255 = 2.
Proof. eexists. repeat split. Qed.

(** C2: the code departs from the claim.  [next_hop_513] is well formed
    (command 2, version 2, ids in [1, 64000], AFI 2, metric 3), yet decoding
    its encoding succeeds with next hop 1 in place of 513. *)
Theorem decode_encode_next_hop_513 :
  well_formed next_hop_513
  /\ exists data,
       ResponseMessage.encode next_hop_513 = Return data
       /\ ResponseMessage.decode (ResponseMessage.new 0) data
          = Return (true, ResponseMessage.Build 2 2 7 [RIPEntry.Build 2 1 1 3])
       /\ ResponseMessage.rip_entries next_hop_513 = [RIPEntry.Build 2 1 513 3].
Proof.
  split.
  - unfold well_formed, next_hop_513; cbn. repeat split; try lia.
    repeat constructor; cbn; lia.
  - eexists. repeat split.
Qed.

(** Where the two high bytes agree the round trip does hold, for any number
    of entries. *)
Lemma land_255_small (x : Z) : 0 <= x < 256 -> Z.land x 255 = x.
Proof.
  intros Hx. change 255 with (Z.ones 8). rewrite Z.land_ones by lia.
  by apply Z.mod_small.
Qed.

(** What the decoding loop reads back from an encoded entry. *)
Lemma entry_at_frame_bytes (self : ResponseMessage.t) (j : nat) (entry : RIPEntry.t) :
  ResponseMessage.rip_entries self !! j = Some entry ->
  entry_at (frame_bytes self) (4 + 20 * j)
  = Some (RIPEntry.Build
            (Z.land (RIPEntry.address_family_identifier entry) 255)
            (Z.land (RIPEntry.dest_router_id entry) 255
             + Z.land (Z.shiftr (RIPEntry.dest_router_id entry) 8) 255 * 256)
            (Z.land (RIPEntry.next_hop entry) 255
             + Z.land (Z.shiftr (RIPEntry.dest_router_id entry) 8) 255 * 256)
            (Z.land (RIPEntry.metric entry) 255)).
Proof.
  intros Hj. unfold entry_at.
  rewrite <- (Nat.add_0_r (4 + 20 * j)) at 1.
  rewrite !(frame_entry_lookup self j _ entry Hj) by lia.
  reflexivity.
Qed.

Lemma entry_at_frame (self : ResponseMessage.t) (j : nat) (entry : RIPEntry.t) :
  ResponseMessage.rip_entries self !! j = Some entry ->
  well_formed_entry entry -> same_high_byte entry ->
  entry_at (frame_bytes self) (4 + 20 * j) = Some entry.
Proof.
  intros Hj (Hafi & Hdest & Hnext & Hmetric) Hsame.
  rewrite (entry_at_frame_bytes self j entry Hj).
  destruct entry as [afi dest next metric].
  unfold same_high_byte in Hsame. cbn in Hafi, Hdest, Hnext, Hmetric, Hsame |- *.
  rewrite <- Hsame at 2. rewrite !split_16 by lia.
  rewrite (land_255_small metric) by lia. subst afi. reflexivity.
Qed.

Lemma decode_encode_same_high_byte (self : ResponseMessage.t) :
  well_formed self ->
  Forall same_high_byte (ResponseMessage.rip_entries self) ->
  exists data,
    ResponseMessage.encode self = Return data
    /\ ResponseMessage.decode (ResponseMessage.new 0) data = Return (true, self).
Proof.
  intros (Hc & Hv & Hid & Hentries) Hsame.
  exists (frame_bytes self). split.
  { apply encode_frame; unfold is_byte; lia. }
  assert (Hheader : header_fields_valid (frame_bytes self) = true).
  { unfold header_fields_valid, frame_bytes. cbn [header_bytes app lookup list_lookup].
    rewrite Hc, Hv, split_16 by lia. cbn [Z.eqb Pos.eqb andb].
    apply negb_true_iff, orb_false_iff. split; lia. }
  assert (Hcount : entry_count (frame_bytes self)
                   = length (ResponseMessage.rip_entries self)).
  { unfold entry_count. rewrite frame_bytes_length.
    replace (4 + 20 * length (ResponseMessage.rip_entries self) - 4)%nat
      with (length (ResponseMessage.rip_entries self) * 20)%nat by lia.
    by rewrite Nat.div_mul. }
  assert (Hat : forall j, (j < entry_count (frame_bytes self))%nat ->
                  entry_at (frame_bytes self) (4 + 20 * j)
                  = ResponseMessage.rip_entries self !! j).
  { intros j Hj. rewrite Hcount in Hj.
    destruct (lookup_lt_is_Some_2 _ _ Hj) as [entry Hentry]. rewrite Hentry.
    apply entry_at_frame; [done| |].
    - by eapply (proj1 (Forall_lookup _ _) Hentries).
    - by eapply (proj1 (Forall_lookup _ _) Hsame). }
  destruct (decode_complete_entries (frame_bytes self)) as (entries & Hdec & Hlen & Hlook & _).
  { done. }
  { intros j Hj. rewrite (Hat j Hj). rewrite Hcount in Hj.
    destruct (lookup_lt_is_Some_2 _ _ Hj) as [entry Hentry]. exists entry. split; [done|].
    destruct (proj1 (Forall_lookup _ _) Hentries j entry Hentry) as (Hafi & Hd & Hn & Hm).
    unfold entry_fields_valid, INFINITE_METRIC. rewrite Hafi.
    repeat (apply andb_true_intro; split); try reflexivity;
      apply negb_true_iff; try apply orb_false_iff; try split; lia. }
  rewrite Hdec. do 2 f_equal.
  assert (entries = ResponseMessage.rip_entries self) as ->.
  { apply list_eq. intros j.
    destruct (decide (j < length (ResponseMessage.rip_entries self))%nat) as [Hj|Hj].
    - rewrite Hlook, Hat by lia. done.
    - rewrite !(proj2 (lookup_ge_None _ _)) by lia. done. }
  destruct self as [c v sid entries0].
  cbn in Hc, Hv, Hid |- *. subst c v.
  unfold frame_bytes. cbn [header_bytes app lookup list_lookup default
    ResponseMessage.sending_router_id ResponseMessage.command ResponseMessage.version].
  by rewrite split_16 by lia.
Qed.

(** ** Sending the table *)

Lemma extends_refl (h : Store.t) : extends h h.
Proof. split; [lia | done]. Qed.

Lemma extends_trans (h1 h2 h3 : Store.t) : extends h1 h2 -> extends h2 h3 -> extends h1 h3.
Proof.
  intros [Hn12 Hl12] [Hn23 Hl23]. split; [lia|].
  intros l Hl. rewrite Hl23 by lia. by apply Hl12.
Qed.

Lemma extends_alloc (h : Store.t) (r : Route.t) : extends h (Store.alloc h r).1.
Proof.
  split; cbn; [lia|]. intros l Hl. unfold Store.load; cbn.
  destruct (Nat.eqb_spec l (Store.next h)); [lia | done].
Qed.

Lemma load_alloc (h : Store.t) (r : Route.t) :
  Store.load (Store.alloc h r).1 (Store.alloc h r).2 = r.
Proof. unfold Store.load; cbn. by rewrite Nat.eqb_refl. Qed.

Lemma extends_store_new (h0 h : Store.t) (l : ref) (r : Route.t) :
  extends h0 h -> (Store.next h0 <= l)%nat -> extends h0 (Store.store h l r).
Proof.
  intros [Hn Hl] Hfresh. split; [done|]. intros x Hx. unfold Store.load; cbn.
  destruct (Nat.eqb_spec x l); [lia|]. by apply Hl.
Qed.

Lemma load_store (h : Store.t) (l : ref) (r : Route.t) :
  Store.load (Store.store h l r) l = r.
Proof. unfold Store.load; cbn. by rewrite Nat.eqb_refl. Qed.

Lemma add_routes_ok (self : Connection.t) (routes : list ref) (h0 : Store.t)
    (indices : list nat) :
  forall (ls : list ref) (message : ResponseMessage.t) (h : Store.t),
    Forall2 (fun index l => routes !! index = Some l) indices ls ->
    allocated h0 ls -> extends h0 h ->
    exists h',
      Connection.add_routes self routes indices message h
      = Return (ResponseMessage.Build (ResponseMessage.command message)
                  (ResponseMessage.version message)
                  (ResponseMessage.sending_router_id message)
                  (ResponseMessage.rip_entries message
                   ++ map (fun l => advertised self (Store.load h0 l)) ls), h')
      /\ extends h0 h'.
Proof.
  induction indices as [|index rest IH]; intros ls message h Hls Halloc Hext.
  - apply Forall2_nil_inv_l in Hls as ->. exists h. cbn. rewrite app_nil_r.
    by destruct message.
  - apply Forall2_cons_inv_l in Hls as (l & ls' & Hl & Hrest & ->).
    apply Forall_cons in Halloc as [Hlt Halloc].
    cbn [Connection.add_routes]. unfold Connection.list_getitem. rewrite Hl. cbn [bind].
    destruct Hext as [Hnext Hload].
    set (fresh := Route.new _ _ _ _).
    pose proof (extends_alloc h fresh) as [Hn1 Hl1].
    pose proof (load_alloc h fresh) as Hnew.
    destruct (Store.alloc h fresh) as [h1 sending_route] eqn:Ealloc.
    assert (Hsr : sending_route = Store.next h) by (by injection Ealloc as _ <-).
    cbn [fst snd] in Hn1, Hl1, Hnew.
    assert (Hsame : Store.load h1 l = Store.load h0 l).
    { rewrite Hl1 by lia. by apply Hload. }
    assert (Hh1 : extends h0 h1).
    { split; [lia|]. intros x Hx. rewrite Hl1 by lia. by apply Hload. }
    rewrite Hsame.
    match goal with
    | |- context [Connection.add_routes _ _ _ _ ?x] => set (h2 := x)
    end.
    assert (Hh2 : extends h0 h2).
    { subst h2. destruct (_ && _); [|done]. apply extends_store_new; [done | lia]. }
    assert (Hentry : RIPEntry.of_route (Store.load h2 sending_route)
                     = advertised self (Store.load h0 l)).
    { subst h2. unfold advertised.
      destruct ((Route.neighbor (Store.load h0 l) =? Connection.neighbor_router_id self)
                && negb (Route.dest (Store.load h0 l) =? Connection.neighbor_router_id self)).
      - rewrite load_store, Hnew. subst fresh. by rewrite Hload by lia.
      - rewrite Hnew. subst fresh. by rewrite Hload by lia. }
    destruct (IH ls' (ResponseMessage.add_rip_entry message (Store.load h2 sending_route)) h2
                Hrest Halloc Hh2) as (h' & Hrun & Hext').
    exists h'. split; [|done]. rewrite Hrun. unfold ResponseMessage.add_rip_entry.
    cbn. rewrite Hentry, <- app_assoc. reflexivity.
Qed.

Lemma range_refs (routes : list ref) (start_index : nat) :
  Forall2 (fun index l => routes !! index = Some l)
          (seq start_index (length routes - start_index)) (drop start_index routes).
Proof.
  apply Forall2_same_length_lookup_2.
  - by rewrite length_seq, length_drop.
  - intros i index l Hindex Hl. apply lookup_seq in Hindex as [-> _].
    by rewrite lookup_drop in Hl.
Qed.

Lemma send_messages_ok (self : Connection.t) (routes : list ref) (h0 : Store.t)
    (range : list nat) :
  forall (h : Store.t) (sent : list (list Z)),
    allocated h0 routes -> extends h0 h ->
    exists h',
      Connection.send_messages self routes range h sent
      = Return (h', sent ++ map (fun i => frame_bytes
                                   (message_for self (map (Store.load h0) routes) i))
                                range)
      /\ extends h0 h'.
Proof.
  induction range as [|i rest IH]; intros h sent Halloc Hext.
  - exists h. cbn. by rewrite app_nil_r.
  - cbn [Connection.send_messages].
    destruct (add_routes_ok self routes h0 _ _
                (ResponseMessage.new (Connection.sending_router_id self)) h
                (range_refs routes (i * 25)) (Forall_drop _ _ _ Halloc) Hext)
      as (h1 & -> & Hh1).
    cbn [bind ResponseMessage.new ResponseMessage.command ResponseMessage.version
         ResponseMessage.sending_router_id ResponseMessage.rip_entries app].
    set (fresh := Route.new _ _ _ _).
    pose proof (extends_alloc h1 fresh) as Hh2.
    pose proof (load_alloc h1 fresh) as Hnew.
    destruct (Store.alloc h1 fresh) as [h2 sending_route].
    cbn [fst snd] in Hh2, Hnew. rewrite Hnew.
    rewrite encode_frame by (cbn; unfold is_byte; lia). cbn [bind].
    destruct (IH h2 (sent ++ [frame_bytes (ResponseMessage.add_rip_entry
                 (ResponseMessage.Build 2 2 (Connection.sending_router_id self)
                    (map (fun l => advertised self (Store.load h0 l)) (drop (i * 25) routes)))
                 fresh)]) Halloc (extends_trans _ _ _ Hh1 Hh2))
      as (h' & -> & Hh').
    exists h'. split; [|done]. rewrite <- app_assoc. cbn [map app].
    do 4 f_equal. unfold message_for, ResponseMessage.add_rip_entry,
      ResponseMessage.append_entry. cbn.
    by rewrite <- fmap_drop, <- list_fmap_compose.
Qed.

(** What the call does: it returns, the store keeps every object it had, and
    the datagrams handed to [sendto] are the encodings of the messages
    [message_for self table 0], [message_for self table 1], ... *)
Lemma send_routing_table_ok (self : Connection.t) (routes : list ref) (h : Store.t) :
  allocated h routes ->
  exists h',
    Connection.send_routing_table_entries_to_neighbor self routes h
    = Return (h', map (fun i => frame_bytes
                         (message_for self (map (Store.load h) routes) i))
                      (seq 0 (message_count (length routes))))
    /\ extends h h'.
Proof.
  intros Halloc. unfold Connection.send_routing_table_entries_to_neighbor.
  destruct (send_messages_ok self routes h
              (seq 0 (message_count (length routes))) h [] Halloc (extends_refl h))
    as (h' & Hrun & Hext).
  exists h'. split; [|done]. unfold message_count in Hrun |- *.
  destruct (negb (length routes mod 25 =? 0)%nat); exact Hrun.
Qed.

Lemma message_for_route (self : Connection.t) (table : list Route.t) (i j : nat)
    (route : Route.t) :
  table !! (i * 25 + j)%nat = Some route ->
  ResponseMessage.rip_entries (message_for self table i) !! j
  = Some (advertised self route).
Proof.
  intros Hroute. unfold message_for. cbn [ResponseMessage.rip_entries].
  apply lookup_app_l_Some.
  by rewrite list_lookup_fmap, lookup_drop, Hroute.
Qed.

Lemma message_for_direct_link (self : Connection.t) (table : list Route.t) (i : nat) :
  ResponseMessage.rip_entries (message_for self table i) !! (length table - i * 25)%nat
  = Some (direct_link self).
Proof.
  unfold message_for. cbn [ResponseMessage.rip_entries].
  rewrite lookup_app_r by (by rewrite length_fmap, length_drop).
  by rewrite length_fmap, length_drop, Nat.sub_diag.
Qed.

Lemma message_for_length (self : Connection.t) (table : list Route.t) (i : nat) :
  length (ResponseMessage.rip_entries (message_for self table i))
  = (length table - i * 25 + 1)%nat.
Proof.
  unfold message_for. cbn [ResponseMessage.rip_entries].
  by rewrite length_app, length_fmap, length_drop.
Qed.

Lemma allocated_table (table : list Route.t) :
  allocated (table_store table) (table_refs table).
Proof.
  unfold allocated, table_refs. apply Forall_lookup. intros i l Hl.
  apply lookup_seq in Hl as [-> Hi]. cbn. lia.
Qed.

(** Message number [i] carries every route from position [25 i] to the end
    of the table, and the direct-link entry: its datagram has
    [4 + 20 (len - 25 i + 1)] bytes. *)
Lemma datagram_length (self : Connection.t) (routes : list ref) (h h' : Store.t)
    (sent : list (list Z)) (i : nat) (data : list Z) :
  allocated h routes ->
  Connection.send_routing_table_entries_to_neighbor self routes h = Return (h', sent) ->
  sent !! i = Some data ->
  length data = (4 + 20 * (length routes - i * 25 + 1))%nat.
Proof.
  intros Halloc Hsend Hdata.
  destruct (send_routing_table_ok self routes h Halloc) as (h1 & Hrun & _).
  rewrite Hsend in Hrun. injection Hrun as _ ->.
  rewrite list_lookup_fmap in Hdata.
  destruct (seq 0 (message_count (length routes)) !! i) as [k|] eqn:Ek; [|done].
  apply lookup_seq in Ek as [-> _]. injection Hdata as <-.
  by rewrite frame_bytes_length, message_for_length, length_fmap.
Qed.

(** C3: the code departs from the claim.  A table of 26 routes is sent as
    two datagrams; the first has 544 = 4 + 20 * 27 bytes, that is all 26
    routes and the direct-link entry, the second 44 = 4 + 20 * 2 bytes. *)
Theorem send_26_routes_datagram_sizes :
  length table_26 = 26%nat
  /\ bind (Connection.send_routing_table_entries_to_neighbor link_1_2
             (table_refs table_26) (table_store table_26))
          (fun r => Return (map length r.2))
     = Return [544; 44]%nat.
Proof. split; vm_compute; reflexivity. Qed.

(** C6.  When the table is serialised for the neighbour [N] of a connection,
    the call returns, and in each datagram the receiver reads, for the
    table route at position [j] of the message, metric 16 if the route goes
    via [N] to a destination other than [N] and the stored metric
    otherwise; the entry after the table routes is the direct link
    (dest [N], next hop [N], the configured link metric). *)
Theorem split_horizon_with_poisoned_reverse (self : Connection.t) (routes : list ref)
    (h : Store.t) :
  allocated h routes ->
  Forall (fun l => is_byte (Route.metric (Store.load h l))) routes ->
  0 <= Connection.neighbor_router_id self < 65536 ->
  is_byte (Connection.metric self) ->
  exists h' sent,
    Connection.send_routing_table_entries_to_neighbor self routes h = Return (h', sent)
    /\ length sent = message_count (length routes)
    /\ forall i data, sent !! i = Some data ->
         (forall j l, routes !! (i * 25 + j)%nat = Some l ->
            RIPEntry.metric <$> entry_at data (4 + 20 * j)
            = Some (if (Route.neighbor (Store.load h l) =? Connection.neighbor_router_id self)
                       && negb (Route.dest (Store.load h l)
                                =? Connection.neighbor_router_id self)
                    then INFINITE_METRIC
                    else Route.metric (Store.load h l)))
         /\ entry_at data (4 + 20 * (length routes - i * 25)) = Some (direct_link self).
Proof.
  intros Halloc Hmetrics Hid Hlink.
  destruct (send_routing_table_ok self routes h Halloc) as (h' & Hrun & _).
  eexists h', _. split; [exact Hrun|]. split.
  { by rewrite length_fmap, length_seq. }
  intros i data Hdata. rewrite list_lookup_fmap in Hdata.
  destruct (seq 0 (message_count (length routes)) !! i) as [k|] eqn:Ek; [|done].
  apply lookup_seq in Ek as [-> _]. injection Hdata as <-.
  change (0 + i)%nat with i. split.
  - intros j l Hl.
    rewrite (entry_at_frame_bytes _ j (advertised self (Store.load h l))).
    2:{ apply message_for_route. by rewrite list_lookup_fmap, Hl. }
    cbn [fmap option_fmap option_map RIPEntry.metric advertised]. f_equal.
    destruct (_ && _).
    + reflexivity.
    + apply land_255_small. by eapply (proj1 (Forall_lookup _ _) Hmetrics).
  - rewrite (entry_at_frame_bytes _ _ (direct_link self)).
    2:{ rewrite <- (length_fmap (Store.load h) routes). apply message_for_direct_link. }
    unfold direct_link. cbn [RIPEntry.address_family_identifier RIPEntry.dest_router_id
                             RIPEntry.next_hop RIPEntry.metric].
    by rewrite split_16, (land_255_small (Connection.metric self)) by done.
Qed.

Lemma split_horizon_with_poisoned_reverse_witness :
  exists h' sent,
    Connection.send_routing_table_entries_to_neighbor link_1_2
      (table_refs table_4) (table_store table_4) = Return (h', sent)
    /\ length sent = message_count (length (table_refs table_4))
    /\ forall i data, sent !! i = Some data ->
         (forall j l, table_refs table_4 !! (i * 25 + j)%nat = Some l ->
            RIPEntry.metric <$> entry_at data (4 + 20 * j)
            = Some (if (Route.neighbor (Store.load (table_store table_4) l)
                        =? Connection.neighbor_router_id link_1_2)
                       && negb (Route.dest (Store.load (table_store table_4) l)
                                =? Connection.neighbor_router_id link_1_2)
                    then INFINITE_METRIC
                    else Route.metric (Store.load (table_store table_4) l)))
         /\ entry_at data (4 + 20 * (length (table_refs table_4) - i * 25))
            = Some (direct_link link_1_2).
Proof.
  apply (split_horizon_with_poisoned_reverse link_1_2 (table_refs table_4)
           (table_store table_4)).
  - apply allocated_table.
  - unfold is_byte. repeat constructor; vm_compute; congruence.
  - simpl. lia.
  - unfold is_byte. simpl. lia.
Defined.

(** C10.  Sending the table returns and leaves every object the store held
    before the call as it was; in particular each route of the list passed in
    has the fields (dest, via, metric and the others) it had. *)
Theorem send_leaves_routes_unchanged (self : Connection.t) (routes : list ref)
    (h : Store.t) :
  allocated h routes ->
  exists h' sent,
    Connection.send_routing_table_entries_to_neighbor self routes h = Return (h', sent)
    /\ (forall l, (l < Store.next h)%nat -> Store.load h' l = Store.load h l)
    /\ (forall l, l ∈ routes -> Store.load h' l = Store.load h l).
Proof.
  intros Halloc.
  destruct (send_routing_table_ok self routes h Halloc) as (h' & Hrun & _ & Hsame).
  eexists h', _. split; [exact Hrun|]. split; [exact Hsame|].
  intros l Hl. apply Hsame. by eapply (proj1 (Forall_forall _ _) Halloc).
Qed.

(** The daemon's table, read back after the call, is the table. *)
Lemma send_table_unchanged (self : Connection.t) (table : list Route.t) :
  exists h' sent,
    Connection.send_routing_table_entries_to_neighbor self
      (table_refs table) (table_store table) = Return (h', sent)
    /\ map (Store.load h') (table_refs table) = table.
Proof.
  destruct (send_routing_table_ok self _ _ (allocated_table table))
    as (h' & Hrun & _ & Hsame).
  eexists h', _. split; [exact Hrun|].
  apply list_eq. intros i. rewrite list_lookup_fmap. unfold table_refs.
  destruct (decide (i < length table)%nat) as [Hi|Hi].
  - rewrite lookup_seq_lt by done. cbn [fmap option_fmap option_map Nat.add].
    rewrite Hsame by done.
    destruct (lookup_lt_is_Some_2 _ _ Hi) as [route Hroute]. rewrite Hroute.
    unfold Store.load, table_store. cbn [Store.cells]. by rewrite Hroute.
  - rewrite lookup_seq_ge, (lookup_ge_None_2 table) by lia. done.
Qed.

Lemma send_leaves_routes_unchanged_witness :
  exists h' sent,
    Connection.send_routing_table_entries_to_neighbor link_1_2
      (table_refs table_4) (table_store table_4) = Return (h', sent)
    /\ (forall l, (l < Store.next (table_store table_4))%nat ->
          Store.load h' l = Store.load (table_store table_4) l)
    /\ (forall l, l ∈ table_refs table_4 ->
          Store.load h' l = Store.load (table_store table_4) l).
Proof.
  apply (send_leaves_routes_unchanged link_1_2 (table_refs table_4) (table_store table_4)).
  apply allocated_table.
Defined.

(** ** The routing table keeps one route per destination *)

Lemma get_route_None (self : RIPDaemon.t) (dest : Z) :
  RIPDaemon.get_route_destinating_to self dest = None ->
  dest ∉ map Route.dest (RIPDaemon.routes self).
Proof.
  unfold RIPDaemon.get_route_destinating_to. intros Hnone%list_find_None.
  intros (route & -> & Hin)%list_elem_of_fmap.
  by apply (proj1 (Forall_forall _ _) Hnone route Hin).
Qed.

Lemma get_route_Some (self : RIPDaemon.t) (dest : Z) (i : nat) (route : Route.t) :
  RIPDaemon.get_route_destinating_to self dest = Some (i, route) ->
  RIPDaemon.routes self !! i = Some route /\ Route.dest route = dest.
Proof.
  unfold RIPDaemon.get_route_destinating_to.
  intros (Hi & Hdest & _)%list_find_Some. done.
Qed.

Lemma dests_insert (routes : list Route.t) (i : nat) (old new : Route.t) :
  routes !! i = Some old -> Route.dest new = Route.dest old ->
  map Route.dest (<[i:=new]> routes) = map Route.dest routes.
Proof.
  intros Hi Hdest. rewrite (list_fmap_insert Route.dest). apply list_insert_id.
  by rewrite list_lookup_fmap, Hi, Hdest.
Qed.

Lemma invalidate_routes (self : RIPDaemon.t) (n d : Z) :
  RIPDaemon.routes (RIPDaemon.invalidate_garbage_collection_timer self n d)
  = RIPDaemon.routes self.
Proof.
  unfold RIPDaemon.invalidate_garbage_collection_timer.
  by destruct (list_find _ _) as [[i e]|].
Qed.

Lemma reset_timeout_dests (self : RIPDaemon.t) (n d : Z) :
  map Route.dest (RIPDaemon.routes (RIPDaemon.reset_timeout_timer self n d))
  = map Route.dest (RIPDaemon.routes self).
Proof.
  unfold RIPDaemon.reset_timeout_timer.
  destruct (list_find _ _) as [[i route]|] eqn:Hfind; [|done].
  apply list_find_Some in Hfind as (Hi & _ & _).
  rewrite invalidate_routes. cbn. by apply (dests_insert _ _ route).
Qed.

Lemma add_new_route_dests (self : RIPDaemon.t) (n d m : Z) :
  map Route.dest (RIPDaemon.routes (RIPDaemon.add_new_route self n d m))
  = map Route.dest (RIPDaemon.routes self) ++ [d].
Proof.
  unfold RIPDaemon.add_new_route. cbn. by rewrite invalidate_routes, map_app.
Qed.

Lemma activate_garbage_collection_routes (self : RIPDaemon.t) (n d : Z) :
  RIPDaemon.routes (RIPDaemon.activate_garbage_collection_timer self n d)
  = RIPDaemon.routes self.
Proof. unfold RIPDaemon.activate_garbage_collection_timer. by destruct (existsb _ _). Qed.

(** [add_new_route] keeps the table free of duplicates at its call sites,
    where no route to the destination exists. *)
Lemma add_new_route_unique (self : RIPDaemon.t) (n d m : Z) :
  RIPDaemon.get_route_destinating_to self d = None ->
  unique_dests (RIPDaemon.routes self) ->
  unique_dests (RIPDaemon.routes (RIPDaemon.add_new_route self n d m)).
Proof.
  intros Hnone Hunique. unfold unique_dests. rewrite add_new_route_dests.
  apply NoDup_app. split; [done|]. split; [|apply NoDup_singleton].
  intros x Hx ->%list_elem_of_singleton. by apply (get_route_None _ _ Hnone).
Qed.

(** An entry either leaves the destinations of the table as they are or
    appends one that was absent. *)
Lemma update_route_dests (self self' : RIPDaemon.t) (route : Route.t) :
  RIPDaemon.update_route self route = Return self' ->
  map Route.dest (RIPDaemon.routes self') = map Route.dest (RIPDaemon.routes self)
  \/ exists d, (d ∉ map Route.dest (RIPDaemon.routes self))
               /\ map Route.dest (RIPDaemon.routes self')
                  = map Route.dest (RIPDaemon.routes self) ++ [d].
Proof.
  unfold RIPDaemon.update_route. intros Hrun.
  repeat match type of Hrun with
         | (if ?b then _ else _) = _ => destruct b
         | bind ?m _ = _ => destruct m; cbn [bind] in Hrun
         | match RIPDaemon.get_route_destinating_to ?s ?d with _ => _ end = _ =>
           let E := fresh "Hget" in
           destruct (RIPDaemon.get_route_destinating_to s d) as [[? ?]|] eqn:E;
           [apply get_route_Some in E as [? ?] | apply get_route_None in E]
         end;
    try discriminate; injection Hrun as <-;
    rewrite ?reset_timeout_dests, ?activate_garbage_collection_routes;
    cbn [RIPDaemon.routes RIPDaemon.with_routes RIPDaemon.activate_triggered_updates_timer
         RIPDaemon.with_triggered_update_timers];
    try (left; reflexivity);
    try (left; by eapply dests_insert);
    right; eexists; (split; [eassumption | apply add_new_route_dests]).
Qed.

Lemma update_route_unique (self self' : RIPDaemon.t) (route : Route.t) :
  RIPDaemon.update_route self route = Return self' ->
  unique_dests (RIPDaemon.routes self) -> unique_dests (RIPDaemon.routes self').
Proof.
  intros Hrun Hunique. unfold unique_dests in *.
  destruct (update_route_dests _ _ _ Hrun) as [-> | (d & Hd & ->)]; [done|].
  apply NoDup_app. split; [done|]. split; [|apply NoDup_singleton].
  by intros x Hx ->%list_elem_of_singleton.
Qed.

Lemma update_routing_table_unique (routes : list Route.t) :
  forall self self' : RIPDaemon.t,
    RIPDaemon.update_routing_table self routes = Return self' ->
    unique_dests (RIPDaemon.routes self) -> unique_dests (RIPDaemon.routes self').
Proof.
  induction routes as [|route rest IH]; intros self self' Hrun Hunique.
  - by injection Hrun as <-.
  - cbn [RIPDaemon.update_routing_table] in Hrun.
    apply bind_inv in Hrun as (self1 & Hone & Hrest).
    eauto using update_route_unique.
Qed.

Lemma timeout_unique (self : RIPDaemon.t) (n d : Z) :
  unique_dests (RIPDaemon.routes self) ->
  unique_dests (RIPDaemon.routes (RIPDaemon.timeout_timer_callback self n d)).
Proof.
  unfold unique_dests, RIPDaemon.timeout_timer_callback.
  rewrite activate_garbage_collection_routes. cbn. rewrite map_map.
  intros Hunique. erewrite map_ext; [exact Hunique|].
  intros route. by destruct (_ && _).
Qed.

Lemma dests_filter_unique (P : Route.t -> Prop) `{!forall r, Decision (P r)}
    (routes : list Route.t) :
  unique_dests routes -> unique_dests (filter P routes).
Proof.
  unfold unique_dests. induction routes as [|route rest IH]; [done|].
  cbn [map]. intros [Hnotin Hrest]%NoDup_cons. rewrite filter_cons.
  destruct (decide (P route)); [|by apply IH].
  cbn [map]. apply NoDup_cons. split; [|by apply IH].
  intros (r & Hr & Hin%list_elem_of_filter)%list_elem_of_fmap.
  apply Hnotin, list_elem_of_fmap. exists r. by destruct Hin.
Qed.

Lemma garbage_collection_unique (self : RIPDaemon.t) (n d : Z) :
  unique_dests (RIPDaemon.routes self) ->
  unique_dests (RIPDaemon.routes (RIPDaemon.garbage_collection_timer_callback self n d)).
Proof. apply dests_filter_unique. Qed.

(** The configured outputs never change. *)
Lemma invalidate_outputs (self : RIPDaemon.t) (n d : Z) :
  RIPDaemon.outputs (RIPDaemon.invalidate_garbage_collection_timer self n d)
  = RIPDaemon.outputs self.
Proof.
  unfold RIPDaemon.invalidate_garbage_collection_timer.
  by destruct (list_find _ _) as [[i e]|].
Qed.

Lemma reset_timeout_outputs (self : RIPDaemon.t) (n d : Z) :
  RIPDaemon.outputs (RIPDaemon.reset_timeout_timer self n d) = RIPDaemon.outputs self.
Proof.
  unfold RIPDaemon.reset_timeout_timer.
  destruct (list_find _ _) as [[i route]|]; [|done]. by rewrite invalidate_outputs.
Qed.

Lemma activate_garbage_collection_outputs (self : RIPDaemon.t) (n d : Z) :
  RIPDaemon.outputs (RIPDaemon.activate_garbage_collection_timer self n d)
  = RIPDaemon.outputs self.
Proof. unfold RIPDaemon.activate_garbage_collection_timer. by destruct (existsb _ _). Qed.

Lemma update_route_outputs (self self' : RIPDaemon.t) (route : Route.t) :
  RIPDaemon.update_route self route = Return self' ->
  RIPDaemon.outputs self' = RIPDaemon.outputs self.
Proof.
  unfold RIPDaemon.update_route. intros Hrun.
  repeat match type of Hrun with
         | (if ?b then _ else _) = _ => destruct b
         | bind ?m _ = _ => destruct m; cbn [bind] in Hrun
         | (match ?o with _ => _ end) = _ => destruct o as [[? ?]|]
         end;
    try discriminate; injection Hrun as <-;
    by rewrite ?reset_timeout_outputs, ?activate_garbage_collection_outputs;
       unfold RIPDaemon.add_new_route; cbn; rewrite ?invalidate_outputs.
Qed.

Lemma update_routing_table_outputs (routes : list Route.t) :
  forall self self' : RIPDaemon.t,
    RIPDaemon.update_routing_table self routes = Return self' ->
    RIPDaemon.outputs self' = RIPDaemon.outputs self.
Proof.
  induction routes as [|route rest IH]; intros self self' Hrun.
  - by injection Hrun as <-.
  - cbn [RIPDaemon.update_routing_table] in Hrun.
    apply bind_inv in Hrun as (self1 & Hone & Hrest).
    rewrite (IH _ _ Hrest). by eapply update_route_outputs.
Qed.

(** Start-up installs one route per index, to the neighbour of the output
    at that index. *)
Lemma initial_routes_ok (id : Z) (outputs : list (Z * Z * Z)) (indices : list nat) :
  forall routes acc : list Route.t,
    RIPDaemon.initial_routes id outputs indices acc = Return routes ->
    exists outs,
      Forall2 (fun index output => outputs !! index = Some output) indices outs
      /\ routes = acc ++ map (direct_route id) outs.
Proof.
  induction indices as [|index rest IH]; intros routes acc Hrun.
  - injection Hrun as <-. exists []. by rewrite app_nil_r.
  - cbn [RIPDaemon.initial_routes] in Hrun.
    destruct (outputs !! index) as [[[port metric] neightbor]|] eqn:Hout; [|done].
    apply IH in Hrun as (outs & Houts & ->).
    exists ((port, metric, neightbor) :: outs). split; [by constructor|].
    by rewrite <- app_assoc.
Qed.

Lemma range_take {A : Type} (l : list A) (n : nat) (k : list A) :
  Forall2 (fun index x => l !! index = Some x) (seq 0 n) k -> k = take n l.
Proof.
  intros Hk. apply list_eq. intros i.
  destruct (decide (i < n)%nat) as [Hi|Hi].
  - rewrite lookup_take_lt by done.
    destruct (Forall2_lookup_l _ _ _ i i Hk) as (x & -> & Hx); [|done].
    by apply lookup_seq_lt.
  - rewrite lookup_take_ge by lia. apply lookup_ge_None.
    rewrite <- (Forall2_length _ _ _ Hk), length_seq. lia.
Qed.

Lemma init_routes (f : file) (daemon : RIPDaemon.t) :
  RIPDaemon.init f = RIPDaemon.Started daemon ->
  exists n, map Route.dest (RIPDaemon.routes daemon)
            = take n (neighbor_ids (RIPDaemon.outputs daemon)).
Proof.
  unfold RIPDaemon.init. intros Hinit.
  destruct (RIPDaemon.load_config_file f) as [[[[id input_ports] outputs]|]|];
    try discriminate.
  destruct (RIPDaemon.initial_routes _ _ _ _) as [routes|] eqn:Hroutes; [|done].
  destruct (RIPDaemon.initial_connections _ _ _ _ _) as [connections|]; [|done].
  injection Hinit as <-. cbn.
  apply initial_routes_ok in Hroutes as (outs & Houts & ->).
  apply range_take in Houts as ->. exists (length input_ports).
  unfold neighbor_ids. rewrite <- fmap_take. cbn [app].
  by rewrite map_map.
Qed.

(** C7, as the code has it.  In every state reached from start-up by
    received frames ([update_routing_table], which is where [add_new_route]
    is called), timeouts, garbage collections and the passing of time, the
    table holds at most one route per destination, provided the configured
    outputs name pairwise distinct neighbours. *)
Theorem reachable_unique_dests (self : RIPDaemon.t) :
  RIPDaemon.reachable self ->
  NoDup (neighbor_ids (RIPDaemon.outputs self)) ->
  unique_dests (RIPDaemon.routes self).
Proof.
  induction 1 as [f daemon Hinit | self routes self' _ IH Hrun | self n d _ IH
                 | self n d _ IH | self _ IH]; intros Hids.
  - destruct (init_routes _ _ Hinit) as [n Hdests]. unfold unique_dests.
    rewrite Hdests. eapply sublist_NoDup; [exact Hids | apply sublist_take].
  - eapply update_routing_table_unique; [exact Hrun|]. apply IH.
    by rewrite <- (update_routing_table_outputs _ _ _ Hrun).
  - apply timeout_unique, IH.
    unfold RIPDaemon.timeout_timer_callback in Hids.
    by rewrite activate_garbage_collection_outputs in Hids.
  - apply garbage_collection_unique, IH. exact Hids.
  - apply IH. exact Hids.
Qed.

Lemma daemon_1_reachable : RIPDaemon.reachable daemon_1.
Proof. by apply (RIPDaemon.reachable_init config_1). Qed.

Lemma daemon_1_learnt_reachable : RIPDaemon.reachable daemon_1_learnt.
Proof.
  apply (RIPDaemon.reachable_update (RIPDaemon.tick daemon_1) [Route.new 2 7 2 3]).
  - apply RIPDaemon.reachable_tick, daemon_1_reachable.
  - reflexivity.
Qed.

Lemma daemon_1_poisoned_reachable : RIPDaemon.reachable daemon_1_poisoned.
Proof.
  apply (RIPDaemon.reachable_update (RIPDaemon.tick daemon_1_learnt) [Route.new 2 7 2 16]).
  - apply RIPDaemon.reachable_tick, daemon_1_learnt_reachable.
  - reflexivity.
Qed.

Lemma reachable_unique_dests_witness : unique_dests (RIPDaemon.routes daemon_1_poisoned).
Proof.
  apply (reachable_unique_dests daemon_1_poisoned).
  - apply (RIPDaemon.reachable_update (RIPDaemon.tick daemon_1_learnt)
             [Route.new 2 7 2 16]); [|reflexivity].
    apply RIPDaemon.reachable_tick.
    apply (RIPDaemon.reachable_update (RIPDaemon.tick daemon_1) [Route.new 2 7 2 3]);
      [|reflexivity].
    apply RIPDaemon.reachable_tick.
    apply (RIPDaemon.reachable_init config_1). reflexivity.
  - apply (bool_decide_unpack _). vm_compute. exact I.
Defined.

(** C7, as stated, fails: the loader accepts two outputs that name the same
    neighbour, and the daemon then starts with two routes to it. *)
Lemma two_links_two_routes :
  RIPDaemon.init config_two_links = RIPDaemon.Started daemon_two_links
  /\ RIPDaemon.reachable daemon_two_links
  /\ map Route.dest (RIPDaemon.routes daemon_two_links) = [2; 2]
  /\ ~ unique_dests (RIPDaemon.routes daemon_two_links).
Proof.
  split; [reflexivity|]. split; [by apply (RIPDaemon.reachable_init config_two_links)|].
  split; [reflexivity|].
  unfold unique_dests. change (map Route.dest _) with [2; 2].
  intros [Hnotin _]%NoDup_cons. apply Hnotin. by left.
Qed.

(** Every frame the event loop processes is a step of [reachable]. *)
Lemma on_readable_reachable (self self' : RIPDaemon.t) (data : list Z) :
  RIPDaemon.reachable self -> RIPDaemon.on_readable self data = Return self' ->
  RIPDaemon.reachable self'.
Proof.
  intros Hreach Hrun. unfold RIPDaemon.on_readable in Hrun.
  apply bind_inv in Hrun as ([routes|] & _ & Hupdate); [|done].
  by eapply RIPDaemon.reachable_update.
Qed.

(** ** Processing one advertisement *)

Lemma update_one (self : RIPDaemon.t) (route : Route.t) :
  RIPDaemon.update_routing_table self [route] = RIPDaemon.update_route self route.
Proof.
  cbn [RIPDaemon.update_routing_table].
  by destruct (RIPDaemon.update_route self route).
Qed.

Lemma invalidate_id (self : RIPDaemon.t) (n d : Z) :
  RIPDaemon.id (RIPDaemon.invalidate_garbage_collection_timer self n d) = RIPDaemon.id self.
Proof.
  unfold RIPDaemon.invalidate_garbage_collection_timer.
  by destruct (list_find _ _) as [[i e]|].
Qed.

Lemma invalidate_now (self : RIPDaemon.t) (n d : Z) :
  RIPDaemon.now (RIPDaemon.invalidate_garbage_collection_timer self n d) = RIPDaemon.now self.
Proof.
  unfold RIPDaemon.invalidate_garbage_collection_timer.
  by destruct (list_find _ _) as [[i e]|].
Qed.

Lemma add_new_route_routes (self : RIPDaemon.t) (n d m : Z) :
  RIPDaemon.routes (RIPDaemon.add_new_route self n d m)
  = RIPDaemon.routes self ++ [Route.Build (RIPDaemon.id self) d n m (Some (RIPDaemon.now self))].
Proof.
  unfold RIPDaemon.add_new_route. cbn.
  by rewrite invalidate_routes, invalidate_id, invalidate_now.
Qed.

Lemma add_new_route_timers (self : RIPDaemon.t) (n d m : Z) :
  RIPDaemon.garbage_collection_timers (RIPDaemon.add_new_route self n d m)
  = RIPDaemon.garbage_collection_timers
      (RIPDaemon.invalidate_garbage_collection_timer self n d).
Proof. reflexivity. Qed.

(** After [invalidate_garbage_collection_timer] a list that held at most one
    timer for the pair holds none. *)
Lemma invalidate_clears (self : RIPDaemon.t) (n d : Z) :
  NoDup (map (fun entry : nat * Z * Z => (entry.1.2, entry.2))
             (RIPDaemon.garbage_collection_timers self)) ->
  forall timer,
    (timer, n, d) ∉ RIPDaemon.garbage_collection_timers
                      (RIPDaemon.invalidate_garbage_collection_timer self n d).
Proof.
  intros Hnodup timer. unfold RIPDaemon.invalidate_garbage_collection_timer.
  destruct (list_find _ _) as [[i [[t n'] d']]|] eqn:Hfind.
  - apply list_find_Some in Hfind as (Hi & [Hn Hd] & _). cbn in Hn, Hd. subst n' d'.
    cbn. revert i Hi Hnodup.
    induction (RIPDaemon.garbage_collection_timers self) as [|e rest IH];
      intros i Hi Hnodup; [done|].
    cbn [map] in Hnodup. apply NoDup_cons in Hnodup as [Hnotin Hrest].
    destruct i as [|i]; cbn.
    + injection Hi as ->. cbn in Hnotin. intros Hin. apply Hnotin.
      apply list_elem_of_fmap. by exists (timer, n, d).
    + intros [Heq | Hin]%elem_of_cons.
      * subst e. cbn in Hnotin. apply Hnotin, list_elem_of_fmap.
        exists (t, n, d). split; [done|]. by eapply list_elem_of_lookup_2.
      * by apply (IH i Hi Hrest).
  - apply list_find_None in Hfind. intros Hin.
    apply (proj1 (Forall_forall _ _) Hfind _ Hin). done.
Qed.

(** What [invalidate_garbage_collection_timer] does to the list: the first
    timer of the pair goes, the others stay in place. *)
Lemma invalidate_first_removed (self : RIPDaemon.t) (n d : Z) :
  first_timer_removed n d
    (RIPDaemon.garbage_collection_timers self)
    (RIPDaemon.garbage_collection_timers
       (RIPDaemon.invalidate_garbage_collection_timer self n d)).
Proof.
  unfold first_timer_removed, RIPDaemon.invalidate_garbage_collection_timer.
  destruct (list_find _ _) as [[i [[t n'] d']]|] eqn:Hfind.
  - right. apply list_find_Some in Hfind as (Hi & [Hn Hd] & Hfirst).
    cbn in Hn, Hd. subst n' d'.
    exists (take i (RIPDaemon.garbage_collection_timers self)), t,
      (drop (S i) (RIPDaemon.garbage_collection_timers self)).
    split; [|split].
    + symmetry. by apply take_drop_middle.
    + intros timer' Hin. apply list_elem_of_lookup in Hin as [j Hj].
      pose proof (lookup_lt_Some _ _ _ Hj) as Hlt. rewrite length_take in Hlt.
      rewrite lookup_take_lt in Hj by lia.
      apply (Hfirst j _ Hj); [lia|done].
    + cbn. apply delete_take_drop.
  - left. apply list_find_None in Hfind. split; [|done]. intros timer Hin.
    apply (proj1 (Forall_forall _ _) Hfind _ Hin). done.
Qed.

(** [activate_garbage_collection_timer] starts no second timer for a pair,
    and starts one, now, for a pair that has none. *)
Lemma activate_garbage_existing (self : RIPDaemon.t) (n d : Z) (timer : nat) :
  (timer, n, d) ∈ RIPDaemon.garbage_collection_timers self ->
  RIPDaemon.activate_garbage_collection_timer self n d = self.
Proof.
  intros Hin. unfold RIPDaemon.activate_garbage_collection_timer.
  destruct (existsb _ _) eqn:Hexists; [done|].
  apply not_true_iff_false in Hexists. destruct Hexists. apply existsb_exists.
  exists (timer, n, d). split; [by apply list_elem_of_In|]. cbn. by rewrite !Z.eqb_refl.
Qed.

Lemma activate_garbage_fresh (self : RIPDaemon.t) (n d : Z) :
  (forall timer, (timer, n, d) ∉ RIPDaemon.garbage_collection_timers self) ->
  RIPDaemon.activate_garbage_collection_timer self n d
  = RIPDaemon.with_garbage_collection_timers self
      (RIPDaemon.garbage_collection_timers self ++ [(RIPDaemon.now self, n, d)]).
Proof.
  intros Hnone. unfold RIPDaemon.activate_garbage_collection_timer.
  destruct (existsb _ _) eqn:Hexists; [|done].
  apply existsb_exists in Hexists as ([[timer n'] d'] & Hin & Hkey).
  cbn in Hkey. apply andb_prop in Hkey as [->%Z.eqb_eq ->%Z.eqb_eq].
  destruct (Hnone timer). by apply list_elem_of_In.
Qed.

(** The state left by [invalidate_garbage_collection_timer] and a new
    table. *)
Lemma cleared_effect (self : RIPDaemon.t) (n d : Z) (rs : list Route.t) :
  RIPDaemon.routes
    (RIPDaemon.with_routes (RIPDaemon.invalidate_garbage_collection_timer self n d) rs)
  = rs
  /\ first_timer_removed n d
       (RIPDaemon.garbage_collection_timers self)
       (RIPDaemon.garbage_collection_timers
          (RIPDaemon.with_routes
             (RIPDaemon.invalidate_garbage_collection_timer self n d) rs))
  /\ (NoDup (map timer_key (RIPDaemon.garbage_collection_timers self)) ->
      forall timer,
        (timer, n, d)
        ∉ RIPDaemon.garbage_collection_timers
            (RIPDaemon.with_routes
               (RIPDaemon.invalidate_garbage_collection_timer self n d) rs))
  /\ RIPDaemon.triggered_update_timers
       (RIPDaemon.with_routes (RIPDaemon.invalidate_garbage_collection_timer self n d) rs)
     = RIPDaemon.triggered_update_timers self
  /\ configuration
       (RIPDaemon.with_routes (RIPDaemon.invalidate_garbage_collection_timer self n d) rs)
     = configuration self
  /\ RIPDaemon.now
       (RIPDaemon.with_routes (RIPDaemon.invalidate_garbage_collection_timer self n d) rs)
     = RIPDaemon.now self.
Proof.
  split; [reflexivity|]. split; [apply invalidate_first_removed|].
  split; [apply invalidate_clears|].
  unfold RIPDaemon.invalidate_garbage_collection_timer, configuration.
  by destruct (list_find _ _) as [[k e]|].
Qed.

Lemma filter_all {A} (P : A -> Prop) `{forall x, Decision (P x)} (l : list A) :
  (forall x, x ∈ l -> P x) -> filter P l = l.
Proof.
  induction l as [|x l IH]; intros Hall; [done|].
  rewrite filter_cons_True by (apply Hall; by left).
  f_equal. apply IH. intros y Hy. apply Hall. by right.
Qed.

(** On a list with at most one timer per pair,
    [invalidate_garbage_collection_timer] leaves the timers of the other
    pairs, in order. *)
Lemma invalidate_filter (self : RIPDaemon.t) (n d : Z) :
  NoDup (map timer_key (RIPDaemon.garbage_collection_timers self)) ->
  RIPDaemon.garbage_collection_timers
    (RIPDaemon.invalidate_garbage_collection_timer self n d)
  = filter (fun entry => timer_key entry <> (n, d))
           (RIPDaemon.garbage_collection_timers self).
Proof.
  intros Hkeys.
  destruct (invalidate_first_removed self n d)
    as [[Hnone ->] | (before & timer & after & Hold & Hbefore & ->)].
  - symmetry. apply filter_all. intros [[t n'] d'] Hin [= -> ->]. by apply (Hnone t).
  - rewrite Hold in Hkeys |- *. rewrite map_app in Hkeys. cbn [map] in Hkeys.
    apply NoDup_app in Hkeys as (_ & _ & [Hafter _]%NoDup_cons).
    rewrite filter_app, filter_cons_False by (intros Hne; by apply Hne).
    rewrite !filter_all; [done| |].
    + intros [[t n'] d'] Hin [= -> ->]. apply Hafter, list_elem_of_fmap.
      by exists (t, n, d).
    + intros [[t n'] d'] Hin [= -> ->]. by apply (Hbefore t).
Qed.




(** ** The entry for this router's own id *)

Lemma invalidate_with_routes (self : RIPDaemon.t) (routes : list Route.t) (n d : Z) :
  RIPDaemon.invalidate_garbage_collection_timer (RIPDaemon.with_routes self routes) n d
  = RIPDaemon.with_routes (RIPDaemon.invalidate_garbage_collection_timer self n d) routes.
Proof.
  unfold RIPDaemon.invalidate_garbage_collection_timer. cbn.
  by destruct (list_find _ _) as [[i e]|].
Qed.

Lemma reset_timeout_fields (self : RIPDaemon.t) (n d : Z) :
  map fields (RIPDaemon.routes (RIPDaemon.reset_timeout_timer self n d))
  = map fields (RIPDaemon.routes self).
Proof.
  unfold RIPDaemon.reset_timeout_timer.
  destruct (list_find _ _) as [[i route]|] eqn:Hfind; [|done].
  apply list_find_Some in Hfind as (Hi & _ & _).
  rewrite invalidate_routes. cbn. rewrite (list_fmap_insert fields).
  apply list_insert_id. by rewrite list_lookup_fmap, Hi.
Qed.

(** [reset_timeout_timer] restarts the timer of the first route to the
    destination when that route goes through the neighbour. *)
Lemma reset_timeout_first (self : RIPDaemon.t) (i : nat) (route : Route.t) (n d : Z) :
  RIPDaemon.routes self !! i = Some route ->
  Route.neighbor route = n -> Route.dest route = d ->
  (forall j other, RIPDaemon.routes self !! j = Some other -> (j < i)%nat ->
                   Route.dest other <> d) ->
  RIPDaemon.reset_timeout_timer self n d
  = RIPDaemon.invalidate_garbage_collection_timer
      (RIPDaemon.with_routes self
         (<[i := Route.activate_timeout_timer route (RIPDaemon.now self)]>
            (RIPDaemon.routes self))) n d.
Proof.
  intros Hi Hn Hd Hfirst. unfold RIPDaemon.reset_timeout_timer.
  rewrite (proj2 (list_find_Some _ _ i route)); [done|].
  split; [done|]. split; [done|].
  intros j other Hj Hlt [_ Hdest]. by apply (Hfirst j other Hj Hlt).
Qed.

(** C5, as the code has it.  Let a configured neighbour [src] send an entry
    with valid fields whose destination is this router's own id.  The entry
    is ignored unless its next hop is this router's own id as well.  When it
    is: with no route to [src] in the table, the route (dest [src], via
    [src], the advertised metric) is added with a fresh timeout; with a
    route to [src] through [src], a metric other than 16 replaces the stored
    one, restarts the timeout and clears the garbage-collection timer of
    ([src], [src]) (the first timer of the pair is taken out of the list, so
    none is left when there was at most one), and metric 16 changes nothing;
    with a route to [src]
    through another neighbour, a smaller metric makes the route go through
    [src] with that metric, and any other metric changes nothing. *)
Theorem own_id_entry_rebinds_direct_link (self : RIPDaemon.t) (route : Route.t) :
  RIPDaemon.is_neighbor self (Route.src route) = true ->
  RIPDaemon.is_valid_router_id (Route.neighbor route) = true ->
  RIPDaemon.is_valid_router_id (Route.dest route) = true ->
  RIPDaemon.is_valid_metric (Route.metric route) = true ->
  Route.dest route = RIPDaemon.id self ->
  (Route.neighbor route <> RIPDaemon.id self ->
   RIPDaemon.update_routing_table self [route] = Return self)
  /\ (Route.neighbor route = RIPDaemon.id self ->
      (RIPDaemon.get_route_destinating_to self (Route.src route) = None ->
       exists self',
         RIPDaemon.update_routing_table self [route] = Return self'
         /\ RIPDaemon.routes self'
            = RIPDaemon.routes self
              ++ [Route.Build (RIPDaemon.id self) (Route.src route) (Route.src route)
                    (Route.metric route) (Some (RIPDaemon.now self))])
      /\ forall i existing,
           RIPDaemon.get_route_destinating_to self (Route.src route) = Some (i, existing) ->
           (Route.neighbor existing = Route.src route ->
            Route.metric route <> INFINITE_METRIC ->
            exists self',
              RIPDaemon.update_routing_table self [route] = Return self'
              /\ RIPDaemon.routes self'
                 = <[i := Route.Build (Route.src existing) (Route.src route)
                            (Route.src route) (Route.metric route)
                            (Some (RIPDaemon.now self))]> (RIPDaemon.routes self)
              /\ first_timer_removed (Route.src route) (Route.src route)
                   (RIPDaemon.garbage_collection_timers self)
                   (RIPDaemon.garbage_collection_timers self')
              /\ (NoDup (map timer_key (RIPDaemon.garbage_collection_timers self)) ->
                  forall timer,
                    (timer, Route.src route, Route.src route)
                    ∉ RIPDaemon.garbage_collection_timers self')
              /\ RIPDaemon.triggered_update_timers self'
                 = RIPDaemon.triggered_update_timers self)
           /\ (Route.neighbor existing = Route.src route ->
               Route.metric route = INFINITE_METRIC ->
               RIPDaemon.update_routing_table self [route] = Return self)
           /\ (Route.neighbor existing <> Route.src route ->
               Route.metric route < Route.metric existing ->
               exists self',
                 RIPDaemon.update_routing_table self [route] = Return self'
                 /\ map fields (RIPDaemon.routes self')
                    = <[i := (Route.src route, Route.src route, Route.metric route)]>
                        (map fields (RIPDaemon.routes self)))
           /\ (Route.neighbor existing <> Route.src route ->
               Route.metric existing <= Route.metric route ->
               RIPDaemon.update_routing_table self [route] = Return self)).
Proof.
  intros Hsrc Hnext Hdest Hmetric Hown.
  rewrite update_one. unfold RIPDaemon.update_route.
  rewrite Hsrc, Hnext, Hdest, Hmetric. cbn [negb].
  destruct (Z.eqb_spec (Route.dest route) (RIPDaemon.id self)) as [_|]; [|done]. split.
  { intros Hother. by destruct (Z.eqb_spec (Route.neighbor route) (RIPDaemon.id self)). }
  intros ->. rewrite Z.eqb_refl. split.
  { intros ->. eexists. split; [reflexivity|]. apply add_new_route_routes. }
  intros i existing Hget. rewrite Hget.
  unfold RIPDaemon.get_route_destinating_to in Hget.
  apply list_find_Some in Hget as (Hi & Hto & Hfirst).
  pose proof (lookup_lt_Some _ _ _ Hi) as Hlt.
  split; [|split; [|split]].
  - intros Hvia Hfinite. rewrite Hvia, Z.eqb_refl.
    destruct (Z.eqb_spec (Route.metric route) INFINITE_METRIC); [done|]. cbn [negb].
    eexists. split; [reflexivity|].
    rewrite (reset_timeout_first _ i (Route.set_metric existing (Route.metric route))
               (Route.src route) (Route.src route)).
    + rewrite !invalidate_with_routes. cbn. rewrite list_insert_insert_eq.
      split; [|split; [|split]].
      * unfold Route.activate_timeout_timer. cbn. by rewrite Hto, Hvia.
      * apply invalidate_first_removed.
      * apply invalidate_clears.
      * unfold RIPDaemon.invalidate_garbage_collection_timer.
        by destruct (list_find _ _) as [[k e]|].
    + cbn. by apply list_lookup_insert_eq.
    + done.
    + done.
    + cbn. intros j other Hj Hji. rewrite list_lookup_insert_ne in Hj by lia. eauto.
  - intros Hvia ->. by rewrite Hvia, Z.eqb_refl.
  - intros Hvia Hbetter.
    destruct (Z.eqb_spec (Route.neighbor existing) (Route.src route)); [done|].
    destruct (Z.ltb_spec (Route.metric route) (Route.metric existing)); [|lia].
    eexists. split; [reflexivity|].
    rewrite reset_timeout_fields. cbn. rewrite (list_fmap_insert fields).
    unfold fields at 1. cbn. by rewrite Hto.
  - intros Hvia Hworse.
    destruct (Z.eqb_spec (Route.neighbor existing) (Route.src route)); [done|].
    by destruct (Z.ltb_spec (Route.metric route) (Route.metric existing)); [lia|].
Qed.

Lemma own_id_entry_rebinds_direct_link_witness :
  RIPDaemon.update_routing_table daemon_1_lost_2 [Route.new 2 1 2 1] = Return daemon_1_lost_2
  /\ (exists self',
        RIPDaemon.update_routing_table daemon_1_lost_2 [Route.new 2 1 1 4] = Return self'
        /\ RIPDaemon.routes self'
           = RIPDaemon.routes daemon_1_lost_2 ++ [Route.Build 1 2 2 4 (Some 0%nat)])
  /\ (exists self',
        RIPDaemon.update_routing_table daemon_1_timed_out_2 [Route.new 2 1 1 1]
        = Return self'
        /\ RIPDaemon.routes self'
           = <[0%nat := Route.Build 1 2 2 1 (Some 0%nat)]>
               (RIPDaemon.routes daemon_1_timed_out_2)
        /\ first_timer_removed 2 2 [(0%nat, 2, 2)]
             (RIPDaemon.garbage_collection_timers self')
        /\ (NoDup (map timer_key [(0%nat, 2, 2)]) ->
            forall timer, (timer, 2, 2) ∉ RIPDaemon.garbage_collection_timers self')
        /\ RIPDaemon.triggered_update_timers self' = [0%nat])
  /\ RIPDaemon.update_routing_table daemon_1 [Route.new 2 1 1 16] = Return daemon_1
  /\ (exists self',
        RIPDaemon.update_routing_table daemon_1_detour_2 [Route.new 2 1 1 1] = Return self'
        /\ map fields (RIPDaemon.routes self')
           = <[1%nat := (2, 2, 1)]> (map fields (RIPDaemon.routes daemon_1_detour_2)))
  /\ RIPDaemon.update_routing_table daemon_1_detour_2 [Route.new 2 1 1 6]
     = Return daemon_1_detour_2.
Proof.
  split; [|split; [|split; [|split; [|split]]]].
  - apply (own_id_entry_rebinds_direct_link daemon_1_lost_2 (Route.new 2 1 2 1));
      [reflexivity | reflexivity | reflexivity | reflexivity | reflexivity | ].
    simpl. lia.
  - destruct (own_id_entry_rebinds_direct_link daemon_1_lost_2 (Route.new 2 1 1 4))
      as [_ Htaken];
      [reflexivity | reflexivity | reflexivity | reflexivity | reflexivity | ].
    destruct (Htaken eq_refl) as [Habsent _]. apply Habsent. reflexivity.
  - destruct (own_id_entry_rebinds_direct_link daemon_1_timed_out_2 (Route.new 2 1 1 1))
      as [_ Htaken];
      [reflexivity | reflexivity | reflexivity | reflexivity | reflexivity | ].
    destruct (Htaken eq_refl) as [_ Hpresent].
    destruct (Hpresent 0%nat (Route.Build 1 2 2 16 (Some 0%nat)) eq_refl)
      as (Hrefresh & _).
    apply Hrefresh; [reflexivity|]. unfold INFINITE_METRIC. simpl. lia.
  - destruct (own_id_entry_rebinds_direct_link daemon_1 (Route.new 2 1 1 16))
      as [_ Htaken];
      [reflexivity | reflexivity | reflexivity | reflexivity | reflexivity | ].
    destruct (Htaken eq_refl) as [_ Hpresent].
    destruct (Hpresent 0%nat (Route.Build 1 2 2 1 (Some 0%nat)) eq_refl)
      as (_ & Hsame & _).
    apply Hsame; reflexivity.
  - destruct (own_id_entry_rebinds_direct_link daemon_1_detour_2 (Route.new 2 1 1 1))
      as [_ Htaken];
      [reflexivity | reflexivity | reflexivity | reflexivity | reflexivity | ].
    destruct (Htaken eq_refl) as [_ Hpresent].
    destruct (Hpresent 1%nat (Route.Build 1 2 3 6 (Some 0%nat)) eq_refl)
      as (_ & _ & Hadopt & _).
    apply Hadopt; simpl; lia.
  - destruct (own_id_entry_rebinds_direct_link daemon_1_detour_2 (Route.new 2 1 1 6))
      as [_ Htaken];
      [reflexivity | reflexivity | reflexivity | reflexivity | reflexivity | ].
    destruct (Htaken eq_refl) as [_ Hpresent].
    destruct (Hpresent 1%nat (Route.Build 1 2 3 6 (Some 0%nat)) eq_refl)
      as (_ & _ & _ & Hkeep).
    apply Hkeep; simpl; lia.
Defined.

(** C5, as stated, fails both ways.  Router 1 has lost its route to
    neighbour 2.  An entry from 2 for destination 1 whose next hop is 2 (the
    sender) is ignored, and one whose next hop is 1 (this router) adds the
    route (dest 2, via 2). *)
Lemma next_hop_sender_is_ignored :
  RIPDaemon.reachable daemon_1_lost_2
  /\ RIPDaemon.id daemon_1_lost_2 = 1
  /\ RIPDaemon.is_neighbor daemon_1_lost_2 2 = true
  /\ RIPDaemon.get_route_destinating_to daemon_1_lost_2 2 = None
  /\ RIPDaemon.update_routing_table daemon_1_lost_2 [Route.new 2 1 2 4]
     = Return daemon_1_lost_2
  /\ exists self',
       RIPDaemon.update_routing_table daemon_1_lost_2 [Route.new 2 1 1 4] = Return self'
       /\ map fields (RIPDaemon.routes self') = [(3, 3, 5); (2, 2, 4)].
Proof.
  split; [|repeat split].
  - apply (RIPDaemon.reachable_garbage_collection
             (RIPDaemon.timeout_timer_callback daemon_1 2 2) 2 2).
    apply RIPDaemon.reachable_timeout, daemon_1_reachable.
  - eexists. split; reflexivity.
Qed.

(** ** The configuration loader *)

Lemma check_decimal (s : string) (lo hi : Z) :
  negb (Str.isdecimal s) || (Str.int s <? lo) || (Str.int s >? hi) = false
  <-> decimal_in s lo hi.
Proof.
  unfold decimal_in. rewrite !orb_false_iff, negb_false_iff, Z.ltb_ge, Z.gtb_ltb, Z.ltb_ge.
  tauto.
Qed.

Lemma remove_dups_length (l : list Z) : (length (remove_dups l) <= length l)%nat.
Proof.
  induction l as [|x l IH]; [done|]. cbn. destruct (decide_rel _ x l); cbn; lia.
Qed.

Lemma remove_dups_same_length (l : list Z) :
  length (remove_dups l) = length l <-> NoDup l.
Proof.
  induction l as [|x l IH]; [by split; [constructor|]|].
  cbn [remove_dups]. pose proof (remove_dups_length l).
  destruct (decide_rel _ x l) as [Hin|Hnotin]; cbn [length].
  - split; [lia|]. by intros [? _]%NoDup_cons.
  - rewrite NoDup_cons. split.
    + intros Hlen. split; [done|]. apply IH. lia.
    + intros [_ Hnodup]. f_equal. by apply IH.
Qed.

Lemma parse_input_ports_ok (tokens : list string) :
  forall acc input_ports : list Z,
    RIPDaemon.parse_input_ports tokens acc = Some input_ports
    <-> exists ports, Forall2 input_port_of tokens ports /\ input_ports = acc ++ ports.
Proof.
  induction tokens as [|token rest IH]; intros acc input_ports;
    cbn [RIPDaemon.parse_input_ports].
  - split.
    + intros [= <-]. exists []. by rewrite app_nil_r.
    + intros (ports & ->%Forall2_nil_inv_l & ->). by rewrite app_nil_r.
  - destruct (negb _ || _ || _) eqn:Hcheck.
    + split; [done|]. intros (ports & Hports & _).
      apply Forall2_cons_inv_l in Hports as (p & ps & [Hp _] & _ & _).
      apply check_decimal in Hp. congruence.
    + apply check_decimal in Hcheck. rewrite IH. split.
      * intros (ports & Hports & ->). eexists (_ :: ports).
        split; [by constructor|]. by rewrite <- app_assoc.
      * intros (ports & Hports & ->).
        apply Forall2_cons_inv_l in Hports as (p & ps & [_ ->] & Hps & ->).
        exists ps. split; [done|]. by rewrite <- app_assoc.
Qed.

Lemma parse_outputs_ok (tokens : list string) (input_ports : list Z) :
  forall acc outputs : list (Z * Z * Z),
    RIPDaemon.parse_outputs tokens input_ports acc = Return (Some outputs)
    <-> exists outs, Forall2 (output_of input_ports) tokens outs /\ outputs = acc ++ outs.
Proof.
  induction tokens as [|token rest IH]; intros acc outputs;
    cbn [RIPDaemon.parse_outputs].
  - split.
    + intros [= <-]. exists []. by rewrite app_nil_r.
    + intros (outs & ->%Forall2_nil_inv_l & ->). by rewrite app_nil_r.
  - destruct (Str.split_on "-" (Str.strip_char "," token))
      as [|port [|metric [|neighbor_id [|extra parts]]]] eqn:Hsplit;
      try (split; [done|]; intros (outs & Houts & _);
           apply Forall2_cons_inv_l in Houts as (o & os & (p & m & n & Hs & _) & _ & _);
           congruence).
    destruct (negb (Str.isdecimal port) || (Str.int port <? 1024) || (Str.int port >? 64000))
      eqn:Hport; cbn [orb].
    { split; [done|]. intros (outs & Houts & _).
      apply Forall2_cons_inv_l in Houts as (o & os & (p & m & n & Hs & Hp & _) & _ & _).
      rewrite Hsplit in Hs. injection Hs as <- <- <-.
      apply check_decimal in Hp. congruence. }
    apply check_decimal in Hport.
    destruct (bool_decide (Str.int port ∈ input_ports)) eqn:Hin.
    { apply bool_decide_eq_true in Hin. split; [done|]. intros (outs & Houts & _).
      apply Forall2_cons_inv_l in Houts as (o & os & (p & m & n & Hs & _ & Hnotin & _) & _ & _).
      rewrite Hsplit in Hs. by injection Hs as <- <- <-. }
    apply bool_decide_eq_false in Hin.
    destruct (negb (Str.isdecimal metric) || (Str.int metric <? 1) || (Str.int metric >? 16))
      eqn:Hmetric.
    { split; [done|]. intros (outs & Houts & _).
      apply Forall2_cons_inv_l in Houts
        as (o & os & (p & m & n & Hs & _ & _ & Hm & _) & _ & _).
      rewrite Hsplit in Hs. injection Hs as <- <- <-.
      apply check_decimal in Hm. congruence. }
    apply check_decimal in Hmetric.
    destruct (negb (Str.isdecimal neighbor_id) || (Str.int neighbor_id <? 1)
              || (Str.int neighbor_id >? 64000)) eqn:Hid.
    { split; [done|]. intros (outs & Houts & _).
      apply Forall2_cons_inv_l in Houts
        as (o & os & (p & m & n & Hs & _ & _ & _ & Hn & _) & _ & _).
      rewrite Hsplit in Hs. injection Hs as <- <- <-.
      apply check_decimal in Hn. congruence. }
    apply check_decimal in Hid.
    rewrite IH. split.
    + intros (outs & Houts & ->). eexists (_ :: outs). split.
      * constructor; [|done]. exists port, metric, neighbor_id. done.
      * by rewrite <- app_assoc.
    + intros (outs & Houts & ->).
      apply Forall2_cons_inv_l in Houts
        as (o & os & (p & m & n & Hs & _ & _ & _ & _ & ->) & Hos & ->).
      rewrite Hsplit in Hs. injection Hs as <- <- <-.
      exists os. split; [done|]. by rewrite <- app_assoc.
Qed.

Lemma load_config_file_accepted (f : file) (id : Z) (input_ports : list Z)
    (outputs : list (Z * Z * Z)) :
  RIPDaemon.load_config_file f = Return (Some (id, input_ports, outputs))
  <-> accepted f id input_ports outputs.
Proof.
  split.
  - unfold RIPDaemon.load_config_file. destruct f as [|raw_lines]; [done|].
    destruct (RIPDaemon.content_lines raw_lines) as [|line0 [|line1 [|line2 more]]]
      eqn:Hlines; try done.
    destruct (Str.split line0) as [|keyword0 [|route_id rest]] eqn:Hfirst; try done.
    destruct (String.eqb_spec keyword0 "router-id") as [->|]; [|done]. cbn [negb].
    destruct (negb (Str.isdecimal route_id) || _ || _) eqn:Hid; [done|].
    apply check_decimal in Hid.
    destruct (Str.split line1) as [|keyword1 [|port0 ports]] eqn:Hsecond; try done.
    destruct (String.eqb_spec keyword1 "input-ports") as [->|]; [|done]. cbn [negb].
    destruct (RIPDaemon.parse_input_ports (port0 :: ports) []) as [parsed|] eqn:Hports;
      [|done].
    apply parse_input_ports_ok in Hports as (ports' & Hports & ->). cbn [app].
    destruct (Nat.eqb_spec (length (remove_dups ports')) (length ports')) as [Hdups|];
      [|done].
    apply remove_dups_same_length in Hdups. cbn [negb].
    destruct (Str.split line2) as [|keyword2 [|output0 outs]] eqn:Hthird; try done.
    destruct (String.eqb_spec keyword2 "outputs") as [->|]; [|done]. cbn [negb].
    destruct (RIPDaemon.parse_outputs (output0 :: outs) ports' [])
      as [[parsed|]|] eqn:Houts; cbn [bind]; try done.
    apply parse_outputs_ok in Houts as (outs' & Houts & ->). cbn [app].
    destruct (Nat.eqb_spec (length ports') (length outs')) as [Hlen|]; [|done].
    intros [= <- <- <-].
    exists raw_lines, line0, line1, line2, more, route_id, rest, (port0 :: ports),
      (output0 :: outs).
    repeat split; try done. all: apply Hid.
  - intros (raw_lines & line0 & line1 & line2 & more & route_id & rest & port_tokens
            & output_tokens & -> & Hlines & Hfirst & Hid & -> & Hsecond & Hsome
            & Hports & Hdups & Hthird & Hsome' & Houts & Hlen).
    unfold RIPDaemon.load_config_file. rewrite Hlines, Hfirst.
    rewrite String.eqb_refl. cbn [negb].
    rewrite (proj2 (check_decimal route_id 1 64000) Hid), Hsecond.
    destruct port_tokens as [|port0 ports]; [done|].
    rewrite String.eqb_refl. cbn [negb].
    rewrite (proj2 (parse_input_ports_ok (port0 :: ports) [] input_ports));
      [|by exists input_ports].
    rewrite (proj2 (remove_dups_same_length input_ports) Hdups), Nat.eqb_refl. cbn [negb].
    rewrite Hthird. destruct output_tokens as [|output0 outs]; [done|].
    rewrite String.eqb_refl. cbn [negb].
    rewrite (proj2 (parse_outputs_ok (output0 :: outs) input_ports [] outputs));
      [|by exists outputs].
    cbn [bind]. by rewrite Hlen, Nat.eqb_refl.
Qed.

Lemma parse_outputs_raises (tokens : list string) (input_ports : list Z) :
  forall (acc : list (Z * Z * Z)) (e : exn),
    RIPDaemon.parse_outputs tokens input_ports acc = Raise e -> e = ValueError.
Proof.
  induction tokens as [|token rest IH]; intros acc e; cbn [RIPDaemon.parse_outputs];
    [done|].
  destruct (Str.split_on "-" (Str.strip_char "," token))
    as [|port [|metric [|neighbor_id [|extra parts]]]]; try by intros [= <-].
  repeat match goal with |- context [if ?b then _ else _] => destruct b; [done|] end.
  apply IH.
Qed.

Lemma load_config_file_raises (f : file) (e : exn) :
  RIPDaemon.load_config_file f = Raise e -> e = ValueError.
Proof.
  unfold RIPDaemon.load_config_file. destruct f as [|raw_lines]; [done|].
  repeat match goal with
         | |- context [match ?l with [] => _ | _ :: _ => _ end] => destruct l; [done|]
         | |- context [if ?b then _ else _] => destruct b; [done|]
         | |- context [match RIPDaemon.parse_input_ports ?t ?a with _ => _ end] =>
           destruct (RIPDaemon.parse_input_ports t a); [|done]
         end.
  destruct (RIPDaemon.parse_outputs _ _ _) as [[parsed|]|e'] eqn:Houts; cbn [bind].
  - by destruct (negb _).
  - done.
  - intros [= <-]. by eapply parse_outputs_raises.
Qed.

Lemma initial_routes_total (id : Z) (outputs : list (Z * Z * Z)) (indices : list nat) :
  Forall (fun index => (index < length outputs)%nat) indices ->
  forall acc, exists routes,
    RIPDaemon.initial_routes id outputs indices acc = Return routes.
Proof.
  induction 1 as [|index rest Hindex _ IH]; intros acc; cbn [RIPDaemon.initial_routes].
  - by eexists.
  - destruct (lookup_lt_is_Some_2 _ _ Hindex) as [[[port metric] neightbor] ->].
    apply IH.
Qed.

Lemma initial_connections_total (id : Z) (input_ports : list Z)
    (outputs : list (Z * Z * Z)) (indices : list nat) :
  Forall (fun index => (index < length input_ports)%nat
                       /\ (index < length outputs)%nat) indices ->
  forall acc, exists connections,
    RIPDaemon.initial_connections id input_ports outputs indices acc = Return connections.
Proof.
  induction 1 as [|index rest [Hin Hout] _ IH]; intros acc;
    cbn [RIPDaemon.initial_connections].
  - by eexists.
  - destruct (lookup_lt_is_Some_2 _ _ Hin) as [input_port ->].
    destruct (lookup_lt_is_Some_2 _ _ Hout) as [[[port metric] neightbor] ->].
    apply IH.
Qed.

Lemma parse_outputs_returns (tokens : list string) (input_ports : list Z) :
  Forall (fun token => length (Str.split_on "-" (Str.strip_char "," token)) = 3%nat)
         tokens ->
  forall acc, exists parsed,
    RIPDaemon.parse_outputs tokens input_ports acc = Return parsed.
Proof.
  induction 1 as [|token rest Hthree _ IH]; intros acc; cbn [RIPDaemon.parse_outputs].
  - by eexists.
  - destruct (Str.split_on "-" (Str.strip_char "," token))
      as [|port [|metric [|neighbor_id [|extra parts]]]]; try done.
    repeat match goal with
           | |- context [if ?b then _ else _] => destruct b; [by eexists|]
           end.
    apply IH.
Qed.

Lemma load_config_file_returns (f : file) :
  outputs_are_triples f ->
  exists loaded, RIPDaemon.load_config_file f = Return loaded.
Proof.
  intros Htriples. unfold RIPDaemon.load_config_file.
  destruct f as [|raw_lines]; [by eexists|].
  destruct (RIPDaemon.content_lines raw_lines) as [|line0 [|line1 [|line2 more]]]
    eqn:Hlines; try by eexists.
  specialize (Htriples raw_lines line0 line1 line2 more eq_refl Hlines).
  destruct (Str.split line0) as [|keyword0 [|route_id rest]]; try by eexists.
  destruct (negb (String.eqb keyword0 "router-id")); [by eexists|].
  destruct (negb (Str.isdecimal route_id) || _ || _); [by eexists|].
  destruct (Str.split line1) as [|keyword1 [|port0 ports]]; try by eexists.
  destruct (negb (String.eqb keyword1 "input-ports")); [by eexists|].
  destruct (RIPDaemon.parse_input_ports (port0 :: ports) []) as [input_ports|];
    [|by eexists].
  destruct (negb (length (remove_dups input_ports) =? length input_ports)%nat);
    [by eexists|].
  destruct (Str.split line2) as [|keyword2 [|output0 outs]]; try by eexists.
  destruct (negb (String.eqb keyword2 "outputs")); [by eexists|].
  cbn [tail] in Htriples.
  destruct (parse_outputs_returns (output0 :: outs) input_ports Htriples [])
    as [[outputs|] ->]; cbn [bind]; [|by eexists].
  destruct (negb (length input_ports =? length outputs)%nat); by eexists.
Qed.

(** C8, as the code has it, for a file whose lines have at most 4300
    characters.  The loader accepts the file, with the router id, input
    ports and outputs it returns, exactly when the file has at least three
    content lines of which the first three are, in order, the router-id,
    input-ports and outputs lines, each within its ranges, with distinct
    input ports, no output port among the input ports and as many outputs as
    input ports.  From an accepted file the daemon starts, with that id and
    those outputs.  From any other file whose outputs tokens all have three
    parts the loader reports failure and the daemon exits with status 1. *)
Theorem loader_accepts_exactly (f : file) :
  within_int_limit f ->
  (forall id input_ports outputs,
     RIPDaemon.load_config_file f = Return (Some (id, input_ports, outputs))
     <-> accepted f id input_ports outputs)
  /\ (forall id input_ports outputs,
        accepted f id input_ports outputs ->
        exists daemon,
          RIPDaemon.init f = RIPDaemon.Started daemon
          /\ RIPDaemon.id daemon = id /\ RIPDaemon.outputs daemon = outputs)
  /\ ((forall id input_ports outputs, ~ accepted f id input_ports outputs) ->
      outputs_are_triples f ->
      RIPDaemon.load_config_file f = Return None
      /\ RIPDaemon.init f = RIPDaemon.Exit 1).
Proof.
  intros _. split; [|split].
  - intros id input_ports outputs. apply load_config_file_accepted.
  - intros id input_ports outputs Haccepted.
    pose proof (proj2 (load_config_file_accepted _ _ _ _) Haccepted) as Hload.
    destruct Haccepted as (_ & _ & _ & _ & _ & _ & _ & _ & _ & _ & _ & _ & _ & _ & _
                           & _ & _ & _ & _ & _ & _ & Hlen).
    unfold RIPDaemon.init. rewrite Hload.
    destruct (initial_routes_total id outputs (seq 0 (length input_ports))) with (acc := @nil Route.t)
      as [routes ->].
    { apply Forall_lookup. intros i index [-> Hi]%lookup_seq. lia. }
    destruct (initial_connections_total id input_ports outputs (seq 0 (length input_ports)))
      with (acc := @nil Connection.t) as [connections ->].
    { apply Forall_lookup. intros i index [-> Hi]%lookup_seq. lia. }
    by eexists.
  - intros Hnone Htriples. unfold RIPDaemon.init.
    destruct (load_config_file_returns f Htriples) as [[[[id input_ports] outputs]|] Hload];
      rewrite Hload.
    + by apply load_config_file_accepted, Hnone in Hload.
    + done.
Qed.

Lemma loader_accepts_exactly_witness :
  (exists daemon,
     RIPDaemon.init config_1 = RIPDaemon.Started daemon
     /\ RIPDaemon.id daemon = 1
     /\ RIPDaemon.outputs daemon = [(5000, 1, 2); (5001, 5, 3)])
  /\ RIPDaemon.load_config_file config_bad_metric = Return None
  /\ RIPDaemon.init config_bad_metric = RIPDaemon.Exit 1.
Proof.
  split.
  - destruct (loader_accepts_exactly config_1) as (Hiff & Hstart & _).
    { cbn. repeat (constructor; [cbn; lia|]). constructor. }
    apply (Hstart 1 [6110; 6201]). apply Hiff. reflexivity.
  - destruct (loader_accepts_exactly config_bad_metric) as (Hiff & _ & Hfail).
    { cbn. repeat (constructor; [cbn; lia|]). constructor. }
    apply Hfail.
    + intros id input_ports outputs Haccepted. apply Hiff in Haccepted. discriminate.
    + intros raw_lines line0 line1 line2 more [= <-] Hlines.
      vm_compute in Hlines. injection Hlines as _ _ <- _.
      vm_compute. repeat constructor.
Defined.

(** C8, as stated, fails.  A file with four content lines is accepted and
    the daemon starts: the fourth line is not looked at.  So is a file whose
    router-id line has a third token: the token is not looked at. *)
Lemma more_lines_and_tokens_accepted :
  (exists raw_lines, config_four_lines = File raw_lines
                     /\ length (RIPDaemon.content_lines raw_lines) = 4%nat)
  /\ RIPDaemon.load_config_file config_four_lines
     = Return (Some (1, [6110; 6201], [(5000, 1, 2); (5001, 5, 3)]))
  /\ (exists daemon, RIPDaemon.init config_four_lines = RIPDaemon.Started daemon)
  /\ (exists raw_lines line0 rest,
        config_extra_token = File raw_lines
        /\ RIPDaemon.content_lines raw_lines = line0 :: rest
        /\ Str.split line0 = ["router-id"; "1"; "backbone"]%string)
  /\ RIPDaemon.load_config_file config_extra_token
     = Return (Some (1, [6110; 6201], [(5000, 1, 2); (5001, 5, 3)]))
  /\ exists daemon, RIPDaemon.init config_extra_token = RIPDaemon.Started daemon.
Proof.
  split; [eexists; split; reflexivity|]. split; [reflexivity|].
  split; [eexists; reflexivity|].
  split; [eexists _, _, _; split; [reflexivity|]; split; reflexivity|].
  split; [reflexivity|]. eexists. reflexivity.
Qed.

(** * Further properties of the code *)

(** ** Neighbours and link metrics *)

Lemma is_neighbor_elem (self : RIPDaemon.t) (n : Z) :
  RIPDaemon.is_neighbor self n = true
  <-> n ∈ map Connection.neighbor_router_id (RIPDaemon.connections self).
Proof.
  unfold RIPDaemon.is_neighbor. rewrite existsb_exists, list_elem_of_fmap.
  split.
  - intros (c & Hin & Heq%Z.eqb_eq). exists c. by rewrite list_elem_of_In.
  - intros (c & -> & Hin). exists c. by rewrite <- list_elem_of_In, Z.eqb_refl.
Qed.

Lemma metric_to_neighbor_elem (outputs : list (Z * Z * Z)) (n : Z) :
  n ∈ neighbor_ids outputs ->
  exists output, output ∈ outputs /\ output.2 = n
                 /\ RIPDaemon.metric_to_neighbor_in outputs n = Some output.1.2.
Proof.
  induction outputs as [|[[port metric] neightbor] rest IH]; cbn.
  - by intros ?%elem_of_nil.
  - intros Hin. destruct (Z.eqb_spec neightbor n) as [->|Hne].
    + exists (port, metric, n). split; [by left|done].
    + apply elem_of_cons in Hin as [->|Hin]; [done|].
      destruct (IH Hin) as (output & Hout & Hn & Hm).
      exists output. split; [by right|done].
Qed.

Lemma metric_to_neighbor_None (outputs : list (Z * Z * Z)) (n : Z) :
  RIPDaemon.metric_to_neighbor_in outputs n = None <-> n ∉ neighbor_ids outputs.
Proof.
  induction outputs as [|[[port metric] neightbor] rest IH]; cbn.
  - split; [intros _ ?%elem_of_nil; done | done].
  - rewrite not_elem_of_cons. destruct (Z.eqb_spec neightbor n) as [->|Hne].
    + split; [done | by intros [? _]].
    + rewrite IH. split; [by intros ? | by intros [_ ?]].
Qed.

(** ** Start-up *)

Lemma initial_connections_ok (id : Z) (input_ports : list Z) (outputs : list (Z * Z * Z))
    (n : nat) :
  forall (start : nat) (acc connections : list Connection.t),
    RIPDaemon.initial_connections id input_ports outputs (seq start n) acc
    = Return connections ->
    connections
    = acc ++ zip_with (connection_of id) (take n (drop start input_ports))
                      (take n (drop start outputs)).
Proof.
  induction n as [|n IH]; intros start acc connections Hrun.
  - injection Hrun as <-. by rewrite app_nil_r.
  - cbn [seq RIPDaemon.initial_connections] in Hrun.
    destruct (input_ports !! start) as [input_port|] eqn:Hin; [|done].
    destruct (outputs !! start) as [[[port metric] neightbor]|] eqn:Hout; [|done].
    apply IH in Hrun as ->.
    rewrite (drop_S _ _ _ Hin), (drop_S _ _ _ Hout). cbn. by rewrite <- app_assoc.
Qed.

Lemma accepted_ranges (f : file) (id : Z) (input_ports : list Z)
    (outputs : list (Z * Z * Z)) :
  accepted f id input_ports outputs ->
  1 <= id <= 64000
  /\ Forall (fun port => 1024 <= port <= 64000) input_ports
  /\ NoDup input_ports
  /\ Forall output_ok outputs
  /\ Forall (fun output => output.1.1 ∉ input_ports) outputs
  /\ length outputs = length input_ports
  /\ outputs <> [].
Proof.
  intros (raw_lines & line0 & line1 & line2 & more & route_id & rest & port_tokens
          & output_tokens & _ & _ & _ & [_ Hid] & -> & _ & _ & Hports & Hdups & _
          & Hsome & Houts & Hlen).
  split; [done|]. split; [|split; [done|]].
  { clear -Hports. induction Hports as [|token port ? ? [[_ Hrange] ->] _ IH];
      constructor; done. }
  split; [|split; [|split; [done|]]].
  - clear -Houts. induction Houts as [|token o ? ? Ho _ IH]; constructor; [|done].
    destruct Ho as (p & m & n & _ & [_ Hp] & _ & [_ Hm] & [_ Hn] & ->). done.
  - clear -Houts. induction Houts as [|token o ? ? Ho _ IH]; constructor; [|done].
    destruct Ho as (p & m & n & _ & _ & Hnotin & _ & _ & ->). done.
  - intros ->. apply Forall2_nil_inv_r in Houts. done.
Qed.

Lemma init_fields (f : file) (daemon : RIPDaemon.t) :
  RIPDaemon.init f = RIPDaemon.Started daemon ->
  exists input_ports,
    accepted f (RIPDaemon.id daemon) input_ports (RIPDaemon.outputs daemon)
    /\ RIPDaemon.routes daemon
       = map (direct_route (RIPDaemon.id daemon)) (RIPDaemon.outputs daemon)
    /\ RIPDaemon.connections daemon
       = zip_with (connection_of (RIPDaemon.id daemon)) input_ports
                  (RIPDaemon.outputs daemon)
    /\ RIPDaemon.garbage_collection_timers daemon = []
    /\ RIPDaemon.triggered_update_timers daemon = []
    /\ RIPDaemon.now daemon = 0%nat.
Proof.
  unfold RIPDaemon.init. intros Hinit.
  destruct (RIPDaemon.load_config_file f) as [[[[id input_ports] outputs]|]|] eqn:Hload;
    try done.
  apply load_config_file_accepted in Hload.
  pose proof (accepted_ranges _ _ _ _ Hload) as (_ & _ & _ & _ & _ & Hlen & _).
  destruct (RIPDaemon.initial_routes _ _ _ _) as [routes|] eqn:Hroutes; [|done].
  destruct (RIPDaemon.initial_connections _ _ _ _ _) as [connections|] eqn:Hconns; [|done].
  injection Hinit as <-. cbn. exists input_ports. split; [done|].
  apply initial_routes_ok in Hroutes as (outs & Houts & ->).
  apply range_take in Houts as ->.
  apply initial_connections_ok in Hconns as ->.
  rewrite drop_0, drop_0, <- Hlen, !take_ge by lia. done.
Qed.

(** X1.  A daemon that starts holds the id and outputs of an accepted
    file; its table is one route per output, to the output's neighbour, through
    that neighbour, at the output's metric, with its timeout running; it has
    one connection per (input port, output) pair; no garbage-collection or
    triggered-update timer exists yet. *)
Theorem init_state (f : file) (daemon : RIPDaemon.t) :
  RIPDaemon.init f = RIPDaemon.Started daemon ->
  exists input_ports,
    accepted f (RIPDaemon.id daemon) input_ports (RIPDaemon.outputs daemon)
    /\ RIPDaemon.routes daemon
       = map (direct_route (RIPDaemon.id daemon)) (RIPDaemon.outputs daemon)
    /\ RIPDaemon.connections daemon
       = zip_with (connection_of (RIPDaemon.id daemon)) input_ports
                  (RIPDaemon.outputs daemon)
    /\ RIPDaemon.garbage_collection_timers daemon = []
    /\ RIPDaemon.triggered_update_timers daemon = []
    /\ RIPDaemon.now daemon = 0%nat.
Proof. apply init_fields. Qed.

Lemma init_state_witness :
  exists input_ports,
    accepted config_1 (RIPDaemon.id daemon_1) input_ports (RIPDaemon.outputs daemon_1)
    /\ RIPDaemon.routes daemon_1
       = map (direct_route (RIPDaemon.id daemon_1)) (RIPDaemon.outputs daemon_1)
    /\ RIPDaemon.connections daemon_1
       = zip_with (connection_of (RIPDaemon.id daemon_1)) input_ports
                  (RIPDaemon.outputs daemon_1)
    /\ RIPDaemon.garbage_collection_timers daemon_1 = []
    /\ RIPDaemon.triggered_update_timers daemon_1 = []
    /\ RIPDaemon.now daemon_1 = 0%nat.
Proof. apply (init_state config_1 daemon_1). reflexivity. Defined.

(** ** The invariant of the daemon *)

Lemma connections_of_outputs (id : Z) (input_ports : list Z) (outputs : list (Z * Z * Z)) :
  length outputs = length input_ports ->
  map Connection.neighbor_router_id (zip_with (connection_of id) input_ports outputs)
  = neighbor_ids outputs.
Proof.
  revert outputs. induction input_ports as [|port ports IH]; intros [|output outputs] Hlen;
    try done.
  cbn. f_equal. apply IH. by injection Hlen.
Qed.

Lemma init_invariant (f : file) (daemon : RIPDaemon.t) :
  RIPDaemon.init f = RIPDaemon.Started daemon -> invariant daemon.
Proof.
  intros (input_ports & Haccepted & Hroutes & Hconns & Hgc & _)%init_fields.
  apply accepted_ranges in Haccepted as (Hid & _ & _ & Houts & _ & Hlen & _).
  unfold invariant. rewrite Hroutes, Hconns, Hgc.
  split; [done|]. split; [done|]. split; [by apply connections_of_outputs|].
  split; [|constructor].
  apply Forall_fmap, Forall_lookup. intros i output Hi.
  pose proof (Forall_lookup_1 _ _ _ _ Houts Hi) as (_ & Hmetric & Hn).
  unfold route_ok, direct_route, INFINITE_METRIC. cbn.
  split; [done|]. split; [|done].
  apply list_elem_of_fmap. exists output. split; [done|]. by eapply list_elem_of_lookup_2.
Qed.

Lemma invalidate_configuration (self : RIPDaemon.t) (n d : Z) :
  configuration (RIPDaemon.invalidate_garbage_collection_timer self n d)
  = configuration self.
Proof.
  unfold RIPDaemon.invalidate_garbage_collection_timer.
  by destruct (list_find _ _) as [[i e]|].
Qed.

Lemma invalidate_keys (self : RIPDaemon.t) (n d : Z) :
  NoDup (map timer_key (RIPDaemon.garbage_collection_timers self)) ->
  NoDup (map timer_key
           (RIPDaemon.garbage_collection_timers
              (RIPDaemon.invalidate_garbage_collection_timer self n d))).
Proof.
  intros Hkeys. unfold RIPDaemon.invalidate_garbage_collection_timer.
  destruct (list_find _ _) as [[i e]|]; [|done]. cbn.
  rewrite (list_fmap_delete timer_key).
  eapply sublist_NoDup; [exact Hkeys | apply sublist_delete].
Qed.

Lemma invariant_invalidate (self : RIPDaemon.t) (n d : Z) :
  invariant self -> invariant (RIPDaemon.invalidate_garbage_collection_timer self n d).
Proof.
  intros (Hid & Houts & Hconns & Hroutes & Hkeys). unfold invariant.
  pose proof (invalidate_configuration self n d) as [= -> -> ->].
  rewrite invalidate_routes. repeat (split; [done|]). by apply invalidate_keys.
Qed.

Lemma invariant_with_routes (self : RIPDaemon.t) (routes : list Route.t) :
  invariant self ->
  Forall (route_ok (RIPDaemon.id self) (neighbor_ids (RIPDaemon.outputs self))) routes ->
  invariant (RIPDaemon.with_routes self routes).
Proof. intros (Hid & Houts & Hconns & _ & Hkeys) Hroutes. by unfold invariant. Qed.

Lemma route_ok_activate (id : Z) (neighbors : list Z) (route : Route.t) (now : nat) :
  route_ok id neighbors route ->
  route_ok id neighbors (Route.activate_timeout_timer route now).
Proof. intros (? & ? & ? & ? & _). by unfold route_ok. Qed.

Lemma route_ok_set (id : Z) (neighbors : list Z) (route : Route.t) (via metric : Z) :
  route_ok id neighbors route -> via ∈ neighbors -> 1 <= metric <= INFINITE_METRIC ->
  route_ok id neighbors (Route.set_metric (Route.set_neighbor route via) metric)
  /\ route_ok id neighbors (Route.set_metric route metric).
Proof. intros (? & ? & ? & ? & ?) ? ?. by unfold route_ok. Qed.

Lemma invariant_reset (self : RIPDaemon.t) (n d : Z) :
  invariant self -> invariant (RIPDaemon.reset_timeout_timer self n d).
Proof.
  intros Hinv. unfold RIPDaemon.reset_timeout_timer.
  destruct (list_find _ _) as [[i route]|] eqn:Hfind; [|done].
  apply list_find_Some in Hfind as (Hi & _ & _).
  apply invariant_invalidate, invariant_with_routes; [done|].
  destruct Hinv as (_ & _ & _ & Hroutes & _).
  apply Forall_insert; [done|]. apply route_ok_activate.
  by eapply Forall_lookup_1.
Qed.

Lemma invariant_add (self : RIPDaemon.t) (n d m : Z) :
  invariant self -> n ∈ neighbor_ids (RIPDaemon.outputs self) ->
  1 <= d <= 64000 -> 1 <= m <= INFINITE_METRIC ->
  invariant (RIPDaemon.add_new_route self n d m).
Proof.
  intros Hinv Hn Hd Hm. unfold RIPDaemon.add_new_route.
  pose proof (invariant_invalidate self n d Hinv) as Hinv'.
  apply invariant_with_routes; [done|].
  destruct Hinv' as (_ & _ & _ & Hroutes & _).
  apply Forall_app_2; [done|]. constructor; [|constructor].
  pose proof (invalidate_configuration self n d) as [= -> -> _].
  by unfold route_ok.
Qed.

Lemma invariant_triggered (self : RIPDaemon.t) :
  invariant self -> invariant (RIPDaemon.activate_triggered_updates_timer self).
Proof. by unfold invariant. Qed.

Lemma invariant_garbage (self : RIPDaemon.t) (n d : Z) :
  invariant self -> invariant (RIPDaemon.activate_garbage_collection_timer self n d).
Proof.
  intros Hinv. unfold RIPDaemon.activate_garbage_collection_timer.
  destruct (existsb _ _) eqn:Hexists; [done|].
  destruct Hinv as (Hid & Houts & Hconns & Hroutes & Hkeys).
  unfold invariant. cbn. repeat (split; [done|]).
  rewrite map_app. apply NoDup_app. split; [done|]. split; [|apply NoDup_singleton].
  intros key (entry & -> & Hin)%list_elem_of_fmap Heq%list_elem_of_singleton.
  apply not_true_iff_false in Hexists. apply Hexists, existsb_exists.
  exists entry. split; [by apply list_elem_of_In|].
  unfold timer_key in Heq. injection Heq as -> ->. by rewrite !Z.eqb_refl.
Qed.

Lemma valid_router_id_range (router_id : Z) :
  RIPDaemon.is_valid_router_id router_id = true <-> 1 <= router_id <= 64000.
Proof. unfold RIPDaemon.is_valid_router_id. rewrite andb_true_iff, Z.leb_le, Z.gtb_gt. lia. Qed.

Lemma valid_metric_range (metric : Z) :
  RIPDaemon.is_valid_metric metric = true <-> 1 <= metric <= INFINITE_METRIC.
Proof. unfold RIPDaemon.is_valid_metric. rewrite andb_true_iff, Z.geb_le, Z.leb_le. lia. Qed.

Lemma link_metric_ok (self : RIPDaemon.t) (n : Z) :
  invariant self -> RIPDaemon.is_neighbor self n = true ->
  n ∈ neighbor_ids (RIPDaemon.outputs self)
  /\ exists link, RIPDaemon.get_metric_to_neighbor self n = Some link /\ 1 <= link <= 16.
Proof.
  intros (_ & Houts & Hconns & _) Hn%is_neighbor_elem. rewrite Hconns in Hn.
  split; [done|].
  destruct (metric_to_neighbor_elem _ _ Hn) as (output & Hin & _ & Hlink).
  exists output.1.2. split; [done|].
  by destruct (proj1 (Forall_forall _ _) Houts output Hin) as (_ & ? & _).
Qed.

(** One entry never raises in a state that satisfies the invariant, and
    leaves a state that satisfies it. *)
Lemma update_route_invariant (self : RIPDaemon.t) (route : Route.t) :
  invariant self ->
  exists self', RIPDaemon.update_route self route = Return self' /\ invariant self'.
Proof.
  intros Hinv. unfold RIPDaemon.update_route.
  destruct (RIPDaemon.is_neighbor self (Route.src route)) eqn:Hsrc; cbn [negb]; [|by eexists].
  destruct (RIPDaemon.is_valid_router_id (Route.neighbor route)) eqn:Hnext; cbn [negb];
    [|by eexists].
  destruct (RIPDaemon.is_valid_router_id (Route.dest route)) eqn:Hdest; cbn [negb];
    [|by eexists].
  destruct (RIPDaemon.is_valid_metric (Route.metric route)) eqn:Hmetric; cbn [negb];
    [|by eexists].
  destruct (link_metric_ok self _ Hinv Hsrc) as (Hvia & link & Hlink & Hrange).
  apply valid_router_id_range in Hdest. apply valid_metric_range in Hmetric.
  assert (Hsrc_range : 1 <= Route.src route <= 64000).
  { destruct Hinv as (_ & Houts & _).
    apply list_elem_of_fmap in Hvia as (output & -> & Hin).
    by destruct (proj1 (Forall_forall _ _) Houts output Hin) as (_ & _ & ?). }
  assert (Hstored : forall dest i existing,
             RIPDaemon.get_route_destinating_to self dest = Some (i, existing) ->
             route_ok (RIPDaemon.id self) (neighbor_ids (RIPDaemon.outputs self)) existing).
  { intros dest i existing [Hi _]%get_route_Some.
    destruct Hinv as (_ & _ & _ & Hroutes & _). by eapply Forall_lookup_1. }
  assert (Hset : forall i new,
             route_ok (RIPDaemon.id self) (neighbor_ids (RIPDaemon.outputs self)) new ->
             invariant (RIPDaemon.with_routes self (<[i:=new]> (RIPDaemon.routes self)))).
  { intros i new Hnew. apply invariant_with_routes; [done|].
    destruct Hinv as (_ & _ & _ & Hroutes & _). by apply Forall_insert. }
  destruct (Route.dest route =? RIPDaemon.id self).
  - destruct (Route.neighbor route =? RIPDaemon.id self); [|by eexists].
    destruct (RIPDaemon.get_route_destinating_to self (Route.src route))
      as [[i existing]|] eqn:Hget.
    + apply Hstored in Hget.
      destruct (route_ok_set _ _ _ (Route.src route) (Route.metric route) Hget Hvia Hmetric)
        as [Hadopt Hsame].
      destruct (Route.neighbor existing =? Route.src route).
      * destruct (negb (Route.metric route =? INFINITE_METRIC)); [|by eexists].
        eexists. split; [reflexivity|]. by apply invariant_reset, Hset.
      * destruct (Route.metric route <? Route.metric existing); [|by eexists].
        eexists. split; [reflexivity|]. by apply invariant_reset, Hset.
    + eexists. split; [reflexivity|]. by apply invariant_add.
  - unfold RIPDaemon.get_metric_to_neighbor in Hlink |- *. rewrite Hlink. cbn [bind].
    assert (Htotal : 1 <= Z.min (link + Route.metric route) INFINITE_METRIC
                     <= INFINITE_METRIC) by (unfold INFINITE_METRIC in *; lia).
    destruct (RIPDaemon.get_route_destinating_to self (Route.dest route))
      as [[i existing]|] eqn:Hget.
    + apply Hstored in Hget.
      destruct (route_ok_set _ _ _ (Route.src route) _ Hget Hvia Htotal) as [Hadopt Hsame].
      destruct (Route.neighbor existing =? Route.src route).
      * destruct (negb (Route.metric existing =? INFINITE_METRIC)); [|by eexists].
        destruct (_ =? INFINITE_METRIC).
        -- eexists. split; [reflexivity|].
           by apply invariant_garbage, invariant_triggered, Hset.
        -- eexists. split; [reflexivity|]. by apply invariant_reset, Hset.
      * destruct (_ <? Route.metric existing); [|by eexists].
        eexists. split; [reflexivity|]. by apply invariant_reset, Hset.
    + destruct (negb _); [|by eexists].
      eexists. split; [reflexivity|]. by apply invariant_add.
Qed.

Lemma update_routing_table_invariant (routes : list Route.t) :
  forall self : RIPDaemon.t,
    invariant self ->
    exists self', RIPDaemon.update_routing_table self routes = Return self'
                  /\ invariant self'.
Proof.
  induction routes as [|route rest IH]; intros self Hinv; [by eexists|].
  cbn [RIPDaemon.update_routing_table].
  destruct (update_route_invariant self route Hinv) as (self1 & -> & Hinv1).
  cbn [bind]. by apply IH.
Qed.

Lemma timeout_invariant (self : RIPDaemon.t) (n d : Z) :
  invariant self -> invariant (RIPDaemon.timeout_timer_callback self n d).
Proof.
  intros Hinv. unfold RIPDaemon.timeout_timer_callback.
  apply invariant_garbage, invariant_triggered, invariant_with_routes; [done|].
  destruct Hinv as (_ & _ & _ & Hroutes & _).
  apply Forall_fmap. eapply Forall_impl; [exact Hroutes|].
  intros route Hroute. cbn. destruct (_ && _); [|done].
  apply (route_ok_set _ _ _ (Route.neighbor route) INFINITE_METRIC Hroute);
    [by destruct Hroute as (_ & ? & _) | done].
Qed.

Lemma garbage_collection_invariant (self : RIPDaemon.t) (n d : Z) :
  invariant self -> invariant (RIPDaemon.garbage_collection_timer_callback self n d).
Proof.
  intros Hinv. apply invariant_with_routes; [done|].
  destruct Hinv as (_ & _ & _ & Hroutes & _).
  apply Forall_forall. intros route [_ Hin]%list_elem_of_filter.
  by apply (proj1 (Forall_forall _ _) Hroutes).
Qed.

Lemma reachable_invariant (self : RIPDaemon.t) :
  RIPDaemon.reachable self -> invariant self.
Proof.
  induction 1 as [f daemon Hinit | self routes self' _ IH Hrun | self n d _ IH
                 | self n d _ IH | self _ IH].
  - by eapply init_invariant.
  - destruct (update_routing_table_invariant routes self IH) as (self1 & Hrun1 & Hinv).
    rewrite Hrun in Hrun1. by injection Hrun1 as ->.
  - by apply timeout_invariant.
  - by apply garbage_collection_invariant.
  - exact IH.
Qed.

(** X2.  In a reachable state [update_routing_table] returns for every list
    of received routes: the link metric of a sender that passed
    [is_neighbor] is always found, so [None + int] never raises
    [TypeError]. *)
Theorem update_routing_table_returns (self : RIPDaemon.t) (routes : list Route.t) :
  RIPDaemon.reachable self ->
  exists self', RIPDaemon.update_routing_table self routes = Return self'.
Proof.
  intros Hinv%reachable_invariant.
  destruct (update_routing_table_invariant routes self Hinv) as (self' & Hrun & _).
  by exists self'.
Qed.

Lemma update_routing_table_returns_witness :
  exists self',
    RIPDaemon.update_routing_table daemon_1_poisoned
      [Route.new 3 7 3 2; Route.new 2 9 2 16; Route.new 5 1 1 1] = Return self'.
Proof.
  apply (update_routing_table_returns daemon_1_poisoned).
  apply daemon_1_poisoned_reachable.
Defined.

(** X3.  Every route of a reachable table was produced by this router, goes
    through a configured neighbour, has its destination in [1, 64000] and
    its metric in [1, 16], and holds a timeout timer. *)
Theorem reachable_routes_ok (self : RIPDaemon.t) (route : Route.t) :
  RIPDaemon.reachable self -> route ∈ RIPDaemon.routes self ->
  Route.src route = RIPDaemon.id self
  /\ RIPDaemon.is_neighbor self (Route.neighbor route) = true
  /\ 1 <= Route.dest route <= 64000
  /\ 1 <= Route.metric route <= INFINITE_METRIC
  /\ is_Some (Route.timeout_timer route).
Proof.
  intros (_ & _ & Hconns & Hroutes & _)%reachable_invariant Hin.
  destruct (proj1 (Forall_forall _ _) Hroutes route Hin) as (Hsrc & Hvia & Hrest).
  split; [done|]. split; [|done]. apply is_neighbor_elem. by rewrite Hconns.
Qed.

Lemma reachable_routes_ok_witness :
  Route.src (Route.Build 1 7 2 16 (Some 1%nat)) = RIPDaemon.id daemon_1_poisoned
  /\ RIPDaemon.is_neighbor daemon_1_poisoned
       (Route.neighbor (Route.Build 1 7 2 16 (Some 1%nat))) = true
  /\ 1 <= Route.dest (Route.Build 1 7 2 16 (Some 1%nat)) <= 64000
  /\ 1 <= Route.metric (Route.Build 1 7 2 16 (Some 1%nat)) <= INFINITE_METRIC
  /\ is_Some (Route.timeout_timer (Route.Build 1 7 2 16 (Some 1%nat))).
Proof.
  apply (reachable_routes_ok daemon_1_poisoned).
  - apply daemon_1_poisoned_reachable.
  - apply (list_elem_of_lookup_2 _ 2%nat). reflexivity.
Defined.

(** X4.  The timer helpers keep at most one garbage-collection timer per
    (neighbour, destination) pair.  On a list with at most one timer per
    pair, [activate_garbage_collection_timer] leaves the list as it is when
    the pair has a timer and appends a timer started now when it has none,
    so that the result again has at most one per pair; and
    [invalidate_garbage_collection_timer] leaves no timer for the pair and
    the timers of the other pairs as they were, in order. *)
Theorem one_timer_per_pair (self : RIPDaemon.t) (n d : Z) :
  NoDup (map timer_key (RIPDaemon.garbage_collection_timers self)) ->
  NoDup (map timer_key
           (RIPDaemon.garbage_collection_timers
              (RIPDaemon.activate_garbage_collection_timer self n d)))
  /\ ((exists timer, (timer, n, d) ∈ RIPDaemon.garbage_collection_timers self) ->
      RIPDaemon.garbage_collection_timers
        (RIPDaemon.activate_garbage_collection_timer self n d)
      = RIPDaemon.garbage_collection_timers self)
  /\ ((forall timer, (timer, n, d) ∉ RIPDaemon.garbage_collection_timers self) ->
      RIPDaemon.garbage_collection_timers
        (RIPDaemon.activate_garbage_collection_timer self n d)
      = RIPDaemon.garbage_collection_timers self ++ [(RIPDaemon.now self, n, d)])
  /\ (forall timer,
        (timer, n, d) ∉ RIPDaemon.garbage_collection_timers
                          (RIPDaemon.invalidate_garbage_collection_timer self n d))
  /\ RIPDaemon.garbage_collection_timers
       (RIPDaemon.invalidate_garbage_collection_timer self n d)
     = filter (fun entry => timer_key entry <> (n, d))
              (RIPDaemon.garbage_collection_timers self).
Proof.
  intros Hkeys. split; [|split; [|split; [|split]]].
  - unfold RIPDaemon.activate_garbage_collection_timer.
    destruct (existsb _ _) eqn:Hexists; [done|]. cbn.
    rewrite map_app. apply NoDup_app. split; [done|]. split; [|apply NoDup_singleton].
    intros key (entry & -> & Hin)%list_elem_of_fmap Heq%list_elem_of_singleton.
    apply not_true_iff_false in Hexists. apply Hexists, existsb_exists.
    exists entry. split; [by apply list_elem_of_In|].
    unfold timer_key in Heq. injection Heq as -> ->. by rewrite !Z.eqb_refl.
  - intros [timer Hin]. by rewrite (activate_garbage_existing self n d timer).
  - intros Hnone. by rewrite activate_garbage_fresh.
  - by apply invalidate_clears.
  - by apply invalidate_filter.
Qed.

Lemma one_timer_per_pair_witness :
  RIPDaemon.garbage_collection_timers
    (RIPDaemon.activate_garbage_collection_timer daemon_1_poisoned 2 7)
  = [(2%nat, 2, 7)]
  /\ RIPDaemon.garbage_collection_timers
       (RIPDaemon.activate_garbage_collection_timer daemon_1_poisoned 3 7)
     = [(2%nat, 2, 7); (2%nat, 3, 7)]
  /\ forall timer,
       (timer, 2, 7) ∉ RIPDaemon.garbage_collection_timers
                         (RIPDaemon.invalidate_garbage_collection_timer
                            daemon_1_poisoned 2 7).
Proof.
  split; [|split].
  - destruct (one_timer_per_pair daemon_1_poisoned 2 7) as (_ & Hsame & _);
      [cbn; apply NoDup_singleton|].
    apply Hsame. exists 2%nat. cbn. by left.
  - destruct (one_timer_per_pair daemon_1_poisoned 3 7) as (_ & _ & Hnew & _);
      [cbn; apply NoDup_singleton|].
    apply Hnew. intros timer [Heq|Hin%elem_of_nil]%elem_of_cons; [|done].
    discriminate.
  - destruct (one_timer_per_pair daemon_1_poisoned 2 7) as (_ & _ & _ & Hnone & _);
      [cbn; apply NoDup_singleton|].
    exact Hnone.
Defined.

Lemma reset_timeout_configuration (self : RIPDaemon.t) (n d : Z) :
  configuration (RIPDaemon.reset_timeout_timer self n d) = configuration self.
Proof.
  unfold RIPDaemon.reset_timeout_timer.
  destruct (list_find _ _) as [[i route]|]; [|done]. by rewrite invalidate_configuration.
Qed.

Lemma activate_garbage_configuration (self : RIPDaemon.t) (n d : Z) :
  configuration (RIPDaemon.activate_garbage_collection_timer self n d) = configuration self.
Proof. unfold RIPDaemon.activate_garbage_collection_timer. by destruct (existsb _ _). Qed.

Lemma add_new_route_configuration (self : RIPDaemon.t) (n d m : Z) :
  configuration (RIPDaemon.add_new_route self n d m) = configuration self.
Proof.
  unfold RIPDaemon.add_new_route.
  by rewrite <- (invalidate_configuration self n d).
Qed.

Lemma update_route_configuration (self self' : RIPDaemon.t) (route : Route.t) :
  RIPDaemon.update_route self route = Return self' ->
  configuration self' = configuration self.
Proof.
  unfold RIPDaemon.update_route. intros Hrun.
  repeat match type of Hrun with
         | (if ?b then _ else _) = _ => destruct b
         | bind ?m _ = _ => destruct m; cbn [bind] in Hrun
         | (match ?o with _ => _ end) = _ => destruct o as [[? ?]|]
         end;
    try discriminate; injection Hrun as <-;
    by rewrite ?reset_timeout_configuration, ?activate_garbage_configuration,
         ?add_new_route_configuration.
Qed.

Lemma update_routing_table_configuration (routes : list Route.t) :
  forall self self' : RIPDaemon.t,
    RIPDaemon.update_routing_table self routes = Return self' ->
    configuration self' = configuration self.
Proof.
  induction routes as [|route rest IH]; intros self self' Hrun.
  - by injection Hrun as <-.
  - cbn [RIPDaemon.update_routing_table] in Hrun.
    apply bind_inv in Hrun as (self1 & Hone & Hrest).
    rewrite (IH _ _ Hrest). by eapply update_route_configuration.
Qed.

(** X5.  Nothing after start-up writes the router id, the outputs or the
    connections: in every reachable state they are those of an accepted
    configuration file, one connection per (input port, output) pair. *)
Theorem reachable_configuration (self : RIPDaemon.t) :
  RIPDaemon.reachable self ->
  exists f input_ports,
    accepted f (RIPDaemon.id self) input_ports (RIPDaemon.outputs self)
    /\ RIPDaemon.connections self
       = zip_with (connection_of (RIPDaemon.id self)) input_ports (RIPDaemon.outputs self).
Proof.
  induction 1 as [f daemon Hinit | self routes self' _ IH Hrun | self n d _ IH
                 | self n d _ IH | self _ IH].
  - apply init_fields in Hinit as (input_ports & Haccepted & _ & Hconns & _).
    by exists f, input_ports.
  - by pose proof (update_routing_table_configuration _ _ _ Hrun) as [= -> -> ->].
  - unfold RIPDaemon.timeout_timer_callback.
    by pose proof (activate_garbage_configuration
                     (RIPDaemon.activate_triggered_updates_timer
                        (RIPDaemon.with_routes self
                           (map (fun route =>
                                   if (Route.neighbor route =? n) && (Route.dest route =? d)
                                   then Route.set_metric route INFINITE_METRIC
                                   else route) (RIPDaemon.routes self)))) n d)
      as [= -> -> ->].
  - exact IH.
  - exact IH.
Qed.

Lemma reachable_configuration_witness :
  exists f input_ports,
    accepted f (RIPDaemon.id daemon_1_poisoned) input_ports
      (RIPDaemon.outputs daemon_1_poisoned)
    /\ RIPDaemon.connections daemon_1_poisoned
       = zip_with (connection_of (RIPDaemon.id daemon_1_poisoned)) input_ports
           (RIPDaemon.outputs daemon_1_poisoned).
Proof.
  apply (reachable_configuration daemon_1_poisoned).
  apply daemon_1_poisoned_reachable.
Defined.

(** ** The distance-vector rules of [update_routing_table] *)

(** Replacing the table's route to a destination and resetting its timeout
    rewrites that one position and clears the pair's garbage-collection
    timer. *)
Lemma set_then_reset (self : RIPDaemon.t) (i : nat) (existing new : Route.t) (n d : Z) :
  RIPDaemon.get_route_destinating_to self d = Some (i, existing) ->
  Route.neighbor new = n -> Route.dest new = d ->
  RIPDaemon.reset_timeout_timer
    (RIPDaemon.with_routes self (<[i:=new]> (RIPDaemon.routes self))) n d
  = RIPDaemon.with_routes (RIPDaemon.invalidate_garbage_collection_timer self n d)
      (<[i := Route.activate_timeout_timer new (RIPDaemon.now self)]> (RIPDaemon.routes self)).
Proof.
  unfold RIPDaemon.get_route_destinating_to.
  intros (Hi & _ & Hfirst)%list_find_Some Hn Hd.
  pose proof (lookup_lt_Some _ _ _ Hi) as Hlt.
  rewrite (reset_timeout_first _ i new n d); try done.
  - rewrite !invalidate_with_routes. cbn. by rewrite list_insert_insert_eq.
  - cbn. by apply list_lookup_insert_eq.
  - cbn. intros j other Hj Hji. rewrite list_lookup_insert_ne in Hj by lia. eauto.
Qed.

(** X6.  A valid entry from neighbour [src] for a destination whose route
    goes through another neighbour: when the total metric
    [min (link + advertised) 16] is smaller than the stored one the route
    switches to [src] with that metric, its timeout restarts and the
    garbage-collection timer of ([src], destination) is cleared (the first
    timer of the pair is taken out of the list, so none is left when there
    was at most one), every other route and timer being left alone;
    otherwise nothing changes. *)
Theorem better_neighbor_adoption (self : RIPDaemon.t) (route : Route.t) (link : Z)
    (i : nat) (existing : Route.t) :
  RIPDaemon.is_neighbor self (Route.src route) = true ->
  RIPDaemon.is_valid_router_id (Route.neighbor route) = true ->
  RIPDaemon.is_valid_router_id (Route.dest route) = true ->
  RIPDaemon.is_valid_metric (Route.metric route) = true ->
  Route.dest route <> RIPDaemon.id self ->
  RIPDaemon.get_metric_to_neighbor self (Route.src route) = Some link ->
  RIPDaemon.get_route_destinating_to self (Route.dest route) = Some (i, existing) ->
  Route.neighbor existing <> Route.src route ->
  (Z.min (link + Route.metric route) INFINITE_METRIC < Route.metric existing ->
   exists self',
     RIPDaemon.update_routing_table self [route] = Return self'
     /\ RIPDaemon.routes self'
        = <[i := Route.Build (Route.src existing) (Route.dest route) (Route.src route)
                   (Z.min (link + Route.metric route) INFINITE_METRIC)
                   (Some (RIPDaemon.now self))]> (RIPDaemon.routes self)
     /\ first_timer_removed (Route.src route) (Route.dest route)
          (RIPDaemon.garbage_collection_timers self)
          (RIPDaemon.garbage_collection_timers self')
     /\ (NoDup (map timer_key (RIPDaemon.garbage_collection_timers self)) ->
         forall timer,
           (timer, Route.src route, Route.dest route)
           ∉ RIPDaemon.garbage_collection_timers self')
     /\ RIPDaemon.triggered_update_timers self' = RIPDaemon.triggered_update_timers self
     /\ configuration self' = configuration self
     /\ RIPDaemon.now self' = RIPDaemon.now self)
  /\ (Route.metric existing <= Z.min (link + Route.metric route) INFINITE_METRIC ->
      RIPDaemon.update_routing_table self [route] = Return self).
Proof.
  intros Hsrc Hnext Hdest Hmetric Hother Hlink Hget Hvia.
  rewrite update_one. unfold RIPDaemon.update_route.
  rewrite Hsrc, Hnext, Hdest, Hmetric. cbn [negb].
  destruct (Z.eqb_spec (Route.dest route) (RIPDaemon.id self)); [done|].
  rewrite Hlink. cbn [bind]. rewrite Hget.
  destruct (Z.eqb_spec (Route.neighbor existing) (Route.src route)); [done|].
  split; intros Hcmp.
  - destruct (Z.ltb_spec (Z.min (link + Route.metric route) INFINITE_METRIC)
                (Route.metric existing)); [|lia].
    destruct (get_route_Some _ _ _ _ Hget) as [_ Hto].
    eexists. split; [reflexivity|].
    rewrite (set_then_reset self i existing
               (Route.set_metric (Route.set_neighbor existing (Route.src route))
                  (Z.min (link + Route.metric route) INFINITE_METRIC))
               (Route.src route) (Route.dest route) Hget eq_refl Hto).
    match goal with
    | |- context [RIPDaemon.with_routes _ ?rs] =>
      destruct (cleared_effect self (Route.src route) (Route.dest route) rs)
        as (Hroutes & Hrest)
    end.
    split; [|exact Hrest]. rewrite Hroutes. f_equal.
    unfold Route.activate_timeout_timer. cbn. by rewrite Hto.
  - by destruct (Z.ltb_spec (Z.min (link + Route.metric route) INFINITE_METRIC)
                  (Route.metric existing)); [lia|].
Qed.

Lemma better_neighbor_adoption_witness :
  (exists self',
     RIPDaemon.update_routing_table daemon_1_stale_timer [Route.new 3 7 3 2] = Return self'
     /\ RIPDaemon.routes self'
        = <[2%nat := Route.Build 1 7 3 7 (Some 0%nat)]>
            (RIPDaemon.routes daemon_1_stale_timer)
     /\ first_timer_removed 3 7 [(0%nat, 3, 7)]
          (RIPDaemon.garbage_collection_timers self')
     /\ (NoDup (map timer_key [(0%nat, 3, 7)]) ->
         forall timer, (timer, 3, 7) ∉ RIPDaemon.garbage_collection_timers self')
     /\ RIPDaemon.triggered_update_timers self' = [0%nat]
     /\ configuration self' = configuration daemon_1_stale_timer
     /\ RIPDaemon.now self' = 0%nat)
  /\ RIPDaemon.update_routing_table daemon_1_learnt [Route.new 3 7 3 2]
     = Return daemon_1_learnt.
Proof.
  split.
  - destruct (better_neighbor_adoption daemon_1_stale_timer (Route.new 3 7 3 2) 5 2%nat
                (Route.Build 1 7 2 10 (Some 0%nat))) as [Hadopt _];
      [reflexivity | reflexivity | reflexivity | reflexivity | simpl; lia | reflexivity
      | reflexivity | simpl; lia | ].
    apply Hadopt. unfold INFINITE_METRIC. simpl. lia.
  - destruct (better_neighbor_adoption daemon_1_learnt (Route.new 3 7 3 2) 5 2%nat
                (Route.Build 1 7 2 4 (Some 1%nat))) as [_ Hkeep];
      [reflexivity | reflexivity | reflexivity | reflexivity | simpl; lia | reflexivity
      | reflexivity | simpl; lia | ].
    apply Hkeep. unfold INFINITE_METRIC. simpl. lia.
Defined.

(** X7.  A valid entry from the neighbour the stored route already goes
    through, the stored metric not being 16: a finite total replaces the
    metric, restarts the timeout and clears the pair's garbage-collection
    timer (the first timer of the pair is taken out of the list, so none is
    left when there was at most one); a total of 16 sets the metric to 16
    without touching the timeout, adds a triggered-update timer, and leaves
    the garbage-collection timers as they are when the pair has one,
    appending a timer started now when it has none. *)
Theorem same_neighbor_update (self : RIPDaemon.t) (route : Route.t) (link : Z)
    (i : nat) (existing : Route.t) :
  RIPDaemon.is_neighbor self (Route.src route) = true ->
  RIPDaemon.is_valid_router_id (Route.neighbor route) = true ->
  RIPDaemon.is_valid_router_id (Route.dest route) = true ->
  RIPDaemon.is_valid_metric (Route.metric route) = true ->
  Route.dest route <> RIPDaemon.id self ->
  RIPDaemon.get_metric_to_neighbor self (Route.src route) = Some link ->
  RIPDaemon.get_route_destinating_to self (Route.dest route) = Some (i, existing) ->
  Route.neighbor existing = Route.src route ->
  Route.metric existing <> INFINITE_METRIC ->
  (link + Route.metric route < INFINITE_METRIC ->
   exists self',
     RIPDaemon.update_routing_table self [route] = Return self'
     /\ RIPDaemon.routes self'
        = <[i := Route.Build (Route.src existing) (Route.dest route) (Route.src route)
                   (link + Route.metric route)
                   (Some (RIPDaemon.now self))]> (RIPDaemon.routes self)
     /\ first_timer_removed (Route.src route) (Route.dest route)
          (RIPDaemon.garbage_collection_timers self)
          (RIPDaemon.garbage_collection_timers self')
     /\ (NoDup (map timer_key (RIPDaemon.garbage_collection_timers self)) ->
         forall timer,
           (timer, Route.src route, Route.dest route)
           ∉ RIPDaemon.garbage_collection_timers self')
     /\ RIPDaemon.triggered_update_timers self' = RIPDaemon.triggered_update_timers self
     /\ configuration self' = configuration self
     /\ RIPDaemon.now self' = RIPDaemon.now self)
  /\ (INFINITE_METRIC <= link + Route.metric route ->
      exists self',
        RIPDaemon.update_routing_table self [route] = Return self'
        /\ RIPDaemon.routes self'
           = <[i := Route.set_metric existing INFINITE_METRIC]> (RIPDaemon.routes self)
        /\ RIPDaemon.triggered_update_timers self'
           = RIPDaemon.triggered_update_timers self ++ [RIPDaemon.now self]
        /\ ((exists timer,
               (timer, Route.src route, Route.dest route)
               ∈ RIPDaemon.garbage_collection_timers self) ->
            RIPDaemon.garbage_collection_timers self'
            = RIPDaemon.garbage_collection_timers self)
        /\ ((forall timer,
               (timer, Route.src route, Route.dest route)
               ∉ RIPDaemon.garbage_collection_timers self) ->
            RIPDaemon.garbage_collection_timers self'
            = RIPDaemon.garbage_collection_timers self
              ++ [(RIPDaemon.now self, Route.src route, Route.dest route)])
        /\ configuration self' = configuration self
        /\ RIPDaemon.now self' = RIPDaemon.now self).
Proof.
  intros Hsrc Hnext Hdest Hmetric Hother Hlink Hget Hvia Hfinite.
  rewrite update_one. unfold RIPDaemon.update_route.
  rewrite Hsrc, Hnext, Hdest, Hmetric. cbn [negb].
  destruct (Z.eqb_spec (Route.dest route) (RIPDaemon.id self)); [done|].
  rewrite Hlink. cbn [bind]. rewrite Hget.
  destruct (Z.eqb_spec (Route.neighbor existing) (Route.src route)); [|done].
  destruct (Z.eqb_spec (Route.metric existing) INFINITE_METRIC); [done|]. cbn [negb].
  destruct (get_route_Some _ _ _ _ Hget) as [Hi Hto].
  split; intros Hcmp.
  - rewrite Z.min_l by lia.
    destruct (Z.eqb_spec (link + Route.metric route) INFINITE_METRIC); [lia|].
    eexists. split; [reflexivity|].
    rewrite (set_then_reset self i existing
               (Route.set_metric existing (link + Route.metric route))
               (Route.src route) (Route.dest route) Hget Hvia Hto).
    match goal with
    | |- context [RIPDaemon.with_routes _ ?rs] =>
      destruct (cleared_effect self (Route.src route) (Route.dest route) rs)
        as (Hroutes & Hrest)
    end.
    split; [|exact Hrest]. rewrite Hroutes. f_equal.
    unfold Route.activate_timeout_timer. cbn. by rewrite Hto, Hvia.
  - rewrite Z.min_r by lia. rewrite Z.eqb_refl. eexists. split; [reflexivity|].
    rewrite activate_garbage_collection_routes. cbn [RIPDaemon.routes
      RIPDaemon.activate_triggered_updates_timer RIPDaemon.with_triggered_update_timers
      RIPDaemon.with_routes].
    split; [reflexivity|]. rewrite Hvia, Hto.
    split; [|split; [|split; [|split]]].
    + unfold RIPDaemon.activate_garbage_collection_timer. by destruct (existsb _ _).
    + intros [timer Hin].
      by rewrite (activate_garbage_existing _ (Route.src route) (Route.dest route) timer).
    + intros Hnone. by rewrite activate_garbage_fresh.
    + by rewrite activate_garbage_configuration.
    + unfold RIPDaemon.activate_garbage_collection_timer. by destruct (existsb _ _).
Qed.

Lemma same_neighbor_update_witness :
  (exists self',
     RIPDaemon.update_routing_table daemon_1_rebound_2 [Route.new 2 2 2 3] = Return self'
     /\ RIPDaemon.routes self'
        = <[1%nat := Route.Build 1 2 2 4 (Some 0%nat)]>
            (RIPDaemon.routes daemon_1_rebound_2)
     /\ first_timer_removed 2 2 [(0%nat, 2, 2)]
          (RIPDaemon.garbage_collection_timers self')
     /\ (NoDup (map timer_key [(0%nat, 2, 2)]) ->
         forall timer, (timer, 2, 2) ∉ RIPDaemon.garbage_collection_timers self')
     /\ RIPDaemon.triggered_update_timers self' = [0%nat]
     /\ configuration self' = configuration daemon_1_rebound_2
     /\ RIPDaemon.now self' = 0%nat)
  /\ exists self',
       RIPDaemon.update_routing_table daemon_1_learnt [Route.new 2 7 2 15] = Return self'
       /\ RIPDaemon.routes self'
          = <[2%nat := Route.set_metric (Route.Build 1 7 2 4 (Some 1%nat)) INFINITE_METRIC]>
              (RIPDaemon.routes daemon_1_learnt)
       /\ RIPDaemon.triggered_update_timers self' = [1%nat]
       /\ RIPDaemon.garbage_collection_timers self' = [(1%nat, 2, 7)].
Proof.
  split.
  - destruct (same_neighbor_update daemon_1_rebound_2 (Route.new 2 2 2 3) 1 1%nat
                (Route.Build 1 2 2 1 (Some 0%nat))) as [Hfinite _];
      [reflexivity | reflexivity | reflexivity | reflexivity | simpl; lia | reflexivity
      | reflexivity | reflexivity | unfold INFINITE_METRIC; simpl; lia | ].
    apply Hfinite. unfold INFINITE_METRIC. simpl. lia.
  - destruct (same_neighbor_update daemon_1_learnt (Route.new 2 7 2 15) 1 2%nat
                (Route.Build 1 7 2 4 (Some 1%nat))) as [_ Hpoison];
      [reflexivity | reflexivity | reflexivity | reflexivity | simpl; lia | reflexivity
      | reflexivity | reflexivity | unfold INFINITE_METRIC; simpl; lia | ].
    destruct Hpoison as (self' & Hrun & Hroutes & Htriggered & _ & Hstarted & _);
      [unfold INFINITE_METRIC; simpl; lia|].
    exists self'. split; [exact Hrun|]. split; [exact Hroutes|].
    split; [exact Htriggered|]. apply Hstarted. intros timer Hin.
    by apply elem_of_nil in Hin.
Defined.

(** ** Entries and frames that change nothing *)

Lemma update_route_rejected (self : RIPDaemon.t) (route : Route.t) :
  RIPDaemon.is_neighbor self (Route.src route) = false
  \/ RIPDaemon.is_valid_router_id (Route.neighbor route) = false
  \/ RIPDaemon.is_valid_router_id (Route.dest route) = false
  \/ RIPDaemon.is_valid_metric (Route.metric route) = false ->
  RIPDaemon.update_route self route = Return self.
Proof.
  unfold RIPDaemon.update_route. intros Hbad.
  destruct (RIPDaemon.is_neighbor _ _); [|done].
  destruct (RIPDaemon.is_valid_router_id (Route.neighbor route)); [|done].
  destruct (RIPDaemon.is_valid_router_id (Route.dest route)); [|done].
  destruct (RIPDaemon.is_valid_metric _); [|done].
  by destruct Hbad as [?|[?|[?|?]]].
Qed.

Lemma update_routing_table_rejected (self : RIPDaemon.t) (routes : list Route.t) :
  Forall (fun route =>
            RIPDaemon.is_neighbor self (Route.src route) = false
            \/ RIPDaemon.is_valid_router_id (Route.neighbor route) = false
            \/ RIPDaemon.is_valid_router_id (Route.dest route) = false
            \/ RIPDaemon.is_valid_metric (Route.metric route) = false) routes ->
  RIPDaemon.update_routing_table self routes = Return self.
Proof.
  induction 1 as [|route rest Hbad _ IH]; [done|].
  cbn [RIPDaemon.update_routing_table]. by rewrite update_route_rejected.
Qed.

(** X8.  A list of received routes each of which comes from a router that is
    not a configured neighbour, or has a next hop or destination outside
    [1, 64000], or a metric outside [1, 16] (the decoder lets metric 0
    through), leaves the daemon exactly as it was. *)
Theorem rejected_routes_change_nothing (self : RIPDaemon.t) (routes : list Route.t) :
  Forall (fun route =>
            RIPDaemon.is_neighbor self (Route.src route) = false
            \/ RIPDaemon.is_valid_router_id (Route.neighbor route) = false
            \/ RIPDaemon.is_valid_router_id (Route.dest route) = false
            \/ RIPDaemon.is_valid_metric (Route.metric route) = false) routes ->
  RIPDaemon.update_routing_table self routes = Return self.
Proof. apply update_routing_table_rejected. Qed.

Lemma rejected_routes_change_nothing_witness :
  RIPDaemon.update_routing_table daemon_1_learnt
    [Route.new 9 7 9 1; Route.new 2 7 0 1; Route.new 2 64001 2 1; Route.new 2 7 2 0;
     Route.new 2 7 2 17]
  = Return daemon_1_learnt.
Proof.
  apply (rejected_routes_change_nothing daemon_1_learnt).
  constructor; [by left|].
  constructor; [right; by left|].
  constructor; [right; right; by left|].
  constructor; [right; right; by right|].
  constructor; [right; right; by right|].
  constructor.
Defined.

(** ** Timeout and garbage collection *)

(** X9.  The timeout callback for (neighbour, destination) removes and
    reorders nothing and changes no destination or next hop; afterwards
    every route through that neighbour to that destination has metric 16 and
    every other route is as it was; one triggered-update timer is added; the
    garbage-collection timers are left as they are when the pair has one, and
    a timer started now is appended when it has none.  The timers are set
    even when no route matches. *)
Theorem timeout_poisons (self : RIPDaemon.t) (n d : Z) :
  map Route.dest (RIPDaemon.routes (RIPDaemon.timeout_timer_callback self n d))
  = map Route.dest (RIPDaemon.routes self)
  /\ map Route.neighbor (RIPDaemon.routes (RIPDaemon.timeout_timer_callback self n d))
     = map Route.neighbor (RIPDaemon.routes self)
  /\ (forall route,
        route ∈ RIPDaemon.routes (RIPDaemon.timeout_timer_callback self n d) ->
        Route.neighbor route = n -> Route.dest route = d ->
        Route.metric route = INFINITE_METRIC)
  /\ (forall i route,
        RIPDaemon.routes self !! i = Some route ->
        ~ (Route.neighbor route = n /\ Route.dest route = d) ->
        RIPDaemon.routes (RIPDaemon.timeout_timer_callback self n d) !! i = Some route)
  /\ RIPDaemon.triggered_update_timers (RIPDaemon.timeout_timer_callback self n d)
     = RIPDaemon.triggered_update_timers self ++ [RIPDaemon.now self]
  /\ ((exists timer, (timer, n, d) ∈ RIPDaemon.garbage_collection_timers self) ->
      RIPDaemon.garbage_collection_timers (RIPDaemon.timeout_timer_callback self n d)
      = RIPDaemon.garbage_collection_timers self)
  /\ ((forall timer, (timer, n, d) ∉ RIPDaemon.garbage_collection_timers self) ->
      RIPDaemon.garbage_collection_timers (RIPDaemon.timeout_timer_callback self n d)
      = RIPDaemon.garbage_collection_timers self ++ [(RIPDaemon.now self, n, d)]).
Proof.
  unfold RIPDaemon.timeout_timer_callback.
  rewrite activate_garbage_collection_routes.
  cbn [RIPDaemon.routes RIPDaemon.activate_triggered_updates_timer
       RIPDaemon.with_triggered_update_timers RIPDaemon.with_routes].
  split; [|split; [|split; [|split; [|split; [|split]]]]].
  - rewrite map_map. apply map_ext. intros route. by destruct (_ && _).
  - rewrite map_map. apply map_ext. intros route. by destruct (_ && _).
  - intros route (old & -> & _)%list_elem_of_fmap.
    destruct (Z.eqb_spec (Route.neighbor old) n), (Z.eqb_spec (Route.dest old) d); cbn;
      try done.
  - intros i route Hi Hother. rewrite list_lookup_fmap, Hi. cbn.
    destruct (Z.eqb_spec (Route.neighbor route) n), (Z.eqb_spec (Route.dest route) d); cbn;
      try done.
    by destruct Hother.
  - unfold RIPDaemon.activate_garbage_collection_timer. by destruct (existsb _ _).
  - intros [timer Hin]. by rewrite (activate_garbage_existing _ n d timer).
  - intros Hnone. by rewrite activate_garbage_fresh.
Qed.

Lemma unique_dest_route (routes : list Route.t) (x y : Route.t) :
  unique_dests routes -> x ∈ routes -> y ∈ routes ->
  Route.dest x = Route.dest y -> x = y.
Proof.
  unfold unique_dests. induction routes as [|r rest IH]; [by intros _ ?%elem_of_nil|].
  cbn [map]. intros [Hnotin Hrest]%NoDup_cons Hx Hy Heq.
  apply elem_of_cons in Hx as [->|Hx], Hy as [->|Hy]; try done.
  - destruct Hnotin. rewrite Heq. by apply list_elem_of_fmap_2.
  - destruct Hnotin. rewrite <- Heq. by apply list_elem_of_fmap_2.
  - by apply IH.
Qed.

Lemma find_dest_filter (routes : list Route.t) (n d dest : Z) :
  dest <> d ->
  snd <$> list_find (fun route => Route.dest route = dest)
            (filter (fun route => ~ (Route.neighbor route = n /\ Route.dest route = d)) routes)
  = snd <$> list_find (fun route => Route.dest route = dest) routes.
Proof.
  intros Hother. induction routes as [|route rest IH]; [done|].
  rewrite filter_cons. destruct (decide (Route.dest route = dest)) as [Hto|Hto].
  - destruct (decide (~ (Route.neighbor route = n /\ Route.dest route = d))) as [_|Hgone].
    + cbn. by rewrite !decide_True by done.
    + destruct Hgone. intros [_ Hd]. apply Hother. by rewrite <- Hto.
  - destruct (decide (~ (Route.neighbor route = n /\ Route.dest route = d))).
    + cbn. rewrite !decide_False by done.
      rewrite <- !option_fmap_compose. exact IH.
    + cbn. rewrite decide_False by done. rewrite <- option_fmap_compose. exact IH.
Qed.

Lemma find_dest_poison (routes : list Route.t) (n d dest : Z) :
  dest <> d ->
  list_find (fun route => Route.dest route = dest)
    (map (fun route =>
            if (Route.neighbor route =? n) && (Route.dest route =? d)
            then Route.set_metric route INFINITE_METRIC else route) routes)
  = list_find (fun route => Route.dest route = dest) routes.
Proof.
  intros Hother. induction routes as [|route rest IH]; [done|].
  cbn. rewrite IH.
  destruct (Z.eqb_spec (Route.dest route) d) as [Hd|Hd].
  - assert (Hne : Route.dest route <> dest) by (intros H; apply Hother; by rewrite <- H).
    destruct (Route.neighbor route =? n); cbn; by rewrite !decide_False by done.
  - by rewrite andb_false_r.
Qed.

Lemma activate_garbage_member (self : RIPDaemon.t) (n d : Z) :
  exists timer,
    (timer, n, d)
    ∈ RIPDaemon.garbage_collection_timers
        (RIPDaemon.activate_garbage_collection_timer self n d).
Proof.
  unfold RIPDaemon.activate_garbage_collection_timer.
  destruct (existsb _ _) eqn:Hexists; cbn.
  - apply existsb_exists in Hexists as ([[timer n'] d'] & Hin & Hkey).
    cbn in Hkey. apply andb_prop in Hkey as [->%Z.eqb_eq ->%Z.eqb_eq].
    exists timer. by apply list_elem_of_In.
  - exists (RIPDaemon.now self). apply elem_of_app. right. by left.
Qed.

(** X10.  Life cycle of a lost route.  In a table with one route per
    destination, let the route to [d] go through [n].  After the timeout
    callback and then the garbage-collection callback for ([n], [d]) the
    table has no route to [d], every other destination has the route it
    had, and the garbage-collection timer of the pair is still in the list
    (the callback does not remove it). *)
Theorem timed_out_route_is_collected (self : RIPDaemon.t) (n d : Z) (i : nat)
    (route : Route.t) :
  unique_dests (RIPDaemon.routes self) ->
  RIPDaemon.get_route_destinating_to self d = Some (i, route) ->
  Route.neighbor route = n ->
  RIPDaemon.get_route_destinating_to
    (RIPDaemon.garbage_collection_timer_callback
       (RIPDaemon.timeout_timer_callback self n d) n d) d = None
  /\ (forall dest, dest <> d ->
        snd <$> RIPDaemon.get_route_destinating_to
                  (RIPDaemon.garbage_collection_timer_callback
                     (RIPDaemon.timeout_timer_callback self n d) n d) dest
        = snd <$> RIPDaemon.get_route_destinating_to self dest)
  /\ exists timer,
       (timer, n, d)
       ∈ RIPDaemon.garbage_collection_timers
           (RIPDaemon.garbage_collection_timer_callback
              (RIPDaemon.timeout_timer_callback self n d) n d).
Proof.
  intros Hunique [Hi Hto]%get_route_Some Hvia.
  unfold RIPDaemon.get_route_destinating_to, RIPDaemon.garbage_collection_timer_callback,
    RIPDaemon.timeout_timer_callback.
  cbn [RIPDaemon.routes RIPDaemon.with_routes RIPDaemon.garbage_collection_timers].
  rewrite activate_garbage_collection_routes.
  cbn [RIPDaemon.routes RIPDaemon.activate_triggered_updates_timer
       RIPDaemon.with_triggered_update_timers RIPDaemon.with_routes].
  split; [|split].
  - apply list_find_None, Forall_forall.
    intros x [Hkept (y & -> & Hy)%list_elem_of_fmap]%list_elem_of_filter Hx.
    assert (Hdest : Route.dest y = d) by (by destruct (_ && _)).
    assert (y = route) as ->.
    { apply (unique_dest_route _ _ _ Hunique Hy); [|congruence].
      by eapply list_elem_of_lookup_2. }
    apply Hkept. rewrite Hvia, Hto, !Z.eqb_refl. done.
  - intros dest Hother. by rewrite find_dest_filter, find_dest_poison.
  - apply activate_garbage_member.
Qed.

Lemma timed_out_route_is_collected_witness :
  RIPDaemon.get_route_destinating_to
    (RIPDaemon.garbage_collection_timer_callback
       (RIPDaemon.timeout_timer_callback daemon_1_learnt 2 7) 2 7) 7 = None
  /\ (forall dest, dest <> 7 ->
        snd <$> RIPDaemon.get_route_destinating_to
                  (RIPDaemon.garbage_collection_timer_callback
                     (RIPDaemon.timeout_timer_callback daemon_1_learnt 2 7) 2 7) dest
        = snd <$> RIPDaemon.get_route_destinating_to daemon_1_learnt dest)
  /\ exists timer,
       (timer, 2, 7)
       ∈ RIPDaemon.garbage_collection_timers
           (RIPDaemon.garbage_collection_timer_callback
              (RIPDaemon.timeout_timer_callback daemon_1_learnt 2 7) 2 7).
Proof.
  apply (timed_out_route_is_collected daemon_1_learnt 2 7 2%nat
           (Route.Build 1 7 2 4 (Some 1%nat))).
  - apply (bool_decide_unpack _). vm_compute. exact I.
  - reflexivity.
  - reflexivity.
Defined.

(** ** When decoding succeeds, fails and raises *)

Lemma decode_entries_true (data : list Z) (n : nat) :
  forall (start_index : nat) (self msg : ResponseMessage.t),
    ResponseMessage.decode_entries data n start_index self = Return (true, msg) ->
    forall j, (j < n)%nat ->
      exists entry, entry_at data (start_index + 20 * j) = Some entry
                    /\ entry_fields_valid entry = true.
Proof.
  induction n as [|n IH]; intros start_index self msg Hrun j Hj; [lia|].
  cbn [ResponseMessage.decode_entries] in Hrun. unfold getitem in Hrun.
  destruct (data !! start_index) as [afi|] eqn:E0; [|done]. cbn [bind] in Hrun.
  destruct (afi =? 2) eqn:Hafi; [|done]. cbn [negb] in Hrun.
  destruct (data !! (start_index + 4)%nat) as [d4|] eqn:E4; [|done]. cbn [bind] in Hrun.
  destruct (data !! (start_index + 5)%nat) as [d5|] eqn:E5; [|done]. cbn [bind] in Hrun.
  destruct ((d4 + d5 * 256 >? 64000) || (d4 + d5 * 256 <? 1)) eqn:Hdest; [done|].
  destruct (data !! (start_index + 12)%nat) as [d12|] eqn:E12; [|done]. cbn [bind] in Hrun.
  destruct (data !! (start_index + 13)%nat) as [d13|] eqn:E13; [|done]. cbn [bind] in Hrun.
  destruct ((d12 + d13 * 256 >? 64000) || (d12 + d13 * 256 <? 1)) eqn:Hnext; [done|].
  destruct (data !! (start_index + 16)%nat) as [metric|] eqn:E16; [|done]. cbn [bind] in Hrun.
  destruct ((metric >? INFINITE_METRIC) || (d12 + d13 * 256 <? 1)) eqn:Hmetric; [done|].
  destruct j as [|j].
  - rewrite Nat.mul_0_r, Nat.add_0_r. unfold entry_at. rewrite E0, E4, E5, E12, E13, E16.
    eexists. split; [reflexivity|]. unfold entry_fields_valid. cbn.
    apply orb_false_iff in Hmetric as [-> _]. by rewrite Hafi, Hdest, Hnext.
  - destruct (IH _ _ _ Hrun j ltac:(lia)) as (entry & Hat & Hvalid).
    exists entry. split; [|done]. rewrite <- Hat. f_equal. lia.
Qed.

Lemma decode_true_header (self msg : ResponseMessage.t) (data : list Z) :
  ResponseMessage.decode self data = Return (true, msg) ->
  header_fields_valid data = true
  /\ ResponseMessage.decode_entries data (entry_count data) 4
       (ResponseMessage.set_sending_router_id
          (ResponseMessage.set_version (ResponseMessage.set_command self 2) 2)
          (default 0 (data !! 2%nat) + default 0 (data !! 3%nat) * 256))
     = Return (true, msg).
Proof.
  unfold ResponseMessage.decode, getitem, header_fields_valid. intros Hrun.
  destruct (data !! 0%nat) as [c|]; [|done]. cbn [bind] in Hrun.
  destruct (c =? 2) eqn:Hc; [|done]. cbn [negb] in Hrun.
  destruct (data !! 1%nat) as [v|]; [|done]. cbn [bind] in Hrun.
  destruct (v =? 2) eqn:Hv; [|done]. cbn [negb] in Hrun.
  destruct (data !! 2%nat) as [d2|]; [|done]. cbn [bind] in Hrun.
  destruct (data !! 3%nat) as [d3|] eqn:E3; [|done]. cbn [bind] in Hrun.
  cbn [ResponseMessage.sending_router_id ResponseMessage.set_sending_router_id] in Hrun.
  destruct (_ || _); [done|].
  rewrite entry_number_count in Hrun by (apply lookup_lt_Some in E3; lia).
  apply Z.eqb_eq in Hc, Hv. subst c v. done.
Qed.

Lemma decode_true_valid (data : list Z) (msg : ResponseMessage.t) :
  ResponseMessage.decode (ResponseMessage.new 0) data = Return (true, msg) ->
  header_fields_valid data = true
  /\ forall j, (j < entry_count data)%nat ->
       exists entry, entry_at data (4 + 20 * j) = Some entry
                     /\ entry_fields_valid entry = true.
Proof.
  intros [Hheader Hentries]%decode_true_header. split; [done|].
  by eapply decode_entries_true.
Qed.

(** X11.  Decoding a datagram into a fresh message succeeds exactly when the
    header fields are valid (command 2, version 2, sender id in [1, 64000])
    and each of the [(len - 4) div 20] complete entries has AFI 2,
    destination and next hop in [1, 64000] and metric at most 16. *)
Theorem decode_succeeds_iff (data : list Z) :
  (exists msg, ResponseMessage.decode (ResponseMessage.new 0) data = Return (true, msg))
  <-> header_fields_valid data = true
      /\ forall j, (j < entry_count data)%nat ->
           exists entry, entry_at data (4 + 20 * j) = Some entry
                         /\ entry_fields_valid entry = true.
Proof.
  split.
  - intros [msg Hrun]. by eapply decode_true_valid.
  - intros [Hheader Hentries].
    destruct (decode_complete_entries data Hheader Hentries) as (entries & Hrun & _).
    eexists. exact Hrun.
Qed.

Lemma decode_entries_returns (data : list Z) (n : nat) :
  forall (start_index : nat) (self : ResponseMessage.t),
    (start_index + 20 * n <= length data)%nat ->
    exists ok msg, ResponseMessage.decode_entries data n start_index self = Return (ok, msg).
Proof.
  induction n as [|n IH]; intros start_index self Hlen; [by eexists _, _|].
  cbn [ResponseMessage.decode_entries]. unfold getitem.
  repeat match goal with
         | |- context [match data !! ?i with _ => _ end] =>
           let E := fresh in
           destruct (lookup_lt_is_Some_2 data i ltac:(lia)) as [? E]; rewrite E;
           cbn [bind]
         | |- context [if ?b then _ else _] => destruct b; [by eexists _, _|]
         end.
  apply IH. lia.
Qed.

(** X12.  [decode] raises only on a datagram shorter than four bytes, and
    then [IndexError]: exactly when the bytes present at positions 0 and 1
    are both 2.  On four bytes or more it always returns. *)
Theorem decode_raises_iff (self : ResponseMessage.t) (data : list Z) (e : exn) :
  ResponseMessage.decode self data = Raise e
  <-> e = IndexError
      /\ (length data < 4)%nat
      /\ (forall b, data !! 0%nat = Some b -> b = 2)
      /\ (forall b, data !! 1%nat = Some b -> b = 2).
Proof.
  destruct (decide (4 <= length data)%nat) as [Hlen|Hlen].
  - split; [|lia]. unfold ResponseMessage.decode, getitem.
    destruct (lookup_lt_is_Some_2 data 0 ltac:(lia)) as [c ->].
    destruct (lookup_lt_is_Some_2 data 1 ltac:(lia)) as [v ->].
    destruct (lookup_lt_is_Some_2 data 2 ltac:(lia)) as [d2 ->].
    destruct (lookup_lt_is_Some_2 data 3 ltac:(lia)) as [d3 ->].
    cbn [bind]. destruct (negb (c =? 2)); [done|]. destruct (negb (v =? 2)); [done|].
    destruct (_ || _); [done|].
    rewrite entry_number_count by done.
    destruct (decode_entries_returns data (entry_count data) 4
                (ResponseMessage.set_sending_router_id
                   (ResponseMessage.set_version (ResponseMessage.set_command self c) v)
                   (d2 + d3 * 256)) (entry_count_bound _ Hlen)) as (ok & msg & Hrun).
    cbn in Hrun |- *. by rewrite Hrun.
  - destruct data as [|c [|v [|d2 [|d3 rest]]]]; cbn in Hlen; try lia;
      unfold ResponseMessage.decode, getitem; cbn.
    + split; [intros [= <-] | intros [-> _]]; repeat split; try done; lia.
    + destruct (Z.eqb_spec c 2) as [->|Hc]; cbn.
      * split; [intros [= <-] | intros [-> _]]; repeat split; try done; try lia.
        by intros b [= <-].
      * split; [done|]. intros (_ & _ & Hfirst & _). by destruct Hc, (Hfirst c).
    + destruct (Z.eqb_spec c 2) as [->|Hc]; cbn.
      * destruct (Z.eqb_spec v 2) as [->|Hv]; cbn.
        -- split; [intros [= <-] | intros [-> _]]; repeat split; try done; try lia;
             by intros b [= <-].
        -- split; [done|]. intros (_ & _ & _ & Hsecond). by destruct Hv, (Hsecond v).
      * split; [done|]. intros (_ & _ & Hfirst & _). by destruct Hc, (Hfirst c).
    + destruct (Z.eqb_spec c 2) as [->|Hc]; cbn.
      * destruct (Z.eqb_spec v 2) as [->|Hv]; cbn.
        -- split; [intros [= <-] | intros [-> _]]; repeat split; try done; try lia;
             by intros b [= <-].
        -- split; [done|]. intros (_ & _ & _ & Hsecond). by destruct Hv, (Hsecond v).
      * split; [done|]. intros (_ & _ & Hfirst & _). by destruct Hc, (Hfirst c).
Qed.

(** ** Encoding never raises on a message the code builds *)

Lemma fold_add_rip_entry (routes : list Route.t) :
  forall self : ResponseMessage.t,
    fold_left ResponseMessage.add_rip_entry routes self
    = ResponseMessage.Build (ResponseMessage.command self) (ResponseMessage.version self)
        (ResponseMessage.sending_router_id self)
        (ResponseMessage.rip_entries self ++ map RIPEntry.of_route routes).
Proof.
  induction routes as [|route rest IH]; intros self; cbn [fold_left map].
  - rewrite app_nil_r. by destruct self.
  - rewrite IH. cbn. by rewrite <- app_assoc.
Qed.

Lemma frame_bytes_are_bytes (self : ResponseMessage.t) :
  is_byte (ResponseMessage.command self) -> is_byte (ResponseMessage.version self) ->
  Forall is_byte (frame_bytes self).
Proof.
  intros Hc Hv. unfold frame_bytes. apply Forall_app. split.
  - unfold header_bytes.
    repeat (constructor; [first [assumption | apply land_255_byte]|]). constructor.
  - induction (ResponseMessage.rip_entries self) as [|entry rest IH]; [constructor|].
    cbn [map concat]. apply Forall_app. split; [|done]. unfold entry_bytes.
    repeat (constructor; [first [apply land_255_byte | apply zero_byte]|]). constructor.
Qed.

(** X13.  [encode] never raises on a message made by the constructor and
    [add_rip_entry], whatever the ids and metrics of the routes (negative or
    large values are masked): it returns [4 + 20 n] bytes for [n] routes,
    each in [0, 255]. *)
Theorem encode_built (router_id : Z) (routes : list Route.t) :
  exists data,
    ResponseMessage.encode (built router_id routes) = Return data
    /\ length data = (4 + 20 * length routes)%nat
    /\ Forall is_byte data.
Proof.
  unfold built. rewrite fold_add_rip_entry. cbn [ResponseMessage.new
    ResponseMessage.command ResponseMessage.version ResponseMessage.sending_router_id
    ResponseMessage.rip_entries app].
  eexists. split; [apply encode_frame; cbn; unfold is_byte; lia|].
  split.
  - rewrite frame_bytes_length. cbn [ResponseMessage.rip_entries].
    by rewrite length_map.
  - apply frame_bytes_are_bytes; cbn; unfold is_byte; lia.
Qed.

(** ** What is sent, and how it is received *)

Lemma message_count_ceiling (n : nat) : message_count n = ((n + 24) / 25)%nat.
Proof.
  unfold message_count.
  pose proof (Nat.div_mod_eq n 25) as Hn.
  pose proof (Nat.mod_upper_bound n 25 ltac:(lia)) as Hr.
  destruct (Nat.eqb_spec (n mod 25) 0) as [Hzero|Hpos]; cbn [negb].
  - apply (Nat.div_unique _ 25 _ 24); lia.
  - apply (Nat.div_unique _ 25 _ (n mod 25 - 1)); lia.
Qed.

(** X14.  Sending a table of [len] routes, [len] at most 3274 (so that
    every datagram is within the largest UDP payload and [sendto] takes it),
    hands [ceil(len / 25)] datagrams to [sendto], none for an empty table (so
    an empty table does not advertise the direct link either); datagram [i]
    starts with the header (2, 2, sender id low byte, sender id high byte)
    and has [4 + 20 (len - 25 i + 1)] bytes, at most 65507. *)
Theorem send_datagrams (self : Connection.t) (routes : list ref) (h : Store.t) :
  allocated h routes ->
  (length routes <= 3274)%nat ->
  exists h' sent,
    Connection.send_routing_table_entries_to_neighbor self routes h = Return (h', sent)
    /\ length sent = ((length routes + 24) / 25)%nat
    /\ (routes = [] -> sent = [])
    /\ forall i data, sent !! i = Some data ->
         take 4 data = [2; 2; Z.land (Connection.sending_router_id self) 255;
                        Z.land (Z.shiftr (Connection.sending_router_id self) 8) 255]
         /\ length data = (4 + 20 * (length routes - i * 25 + 1))%nat
         /\ Z.of_nat (length data) <= UDP_MAX_PAYLOAD.
Proof.
  intros Halloc Hfits.
  destruct (send_routing_table_ok self routes h Halloc) as (h' & Hrun & _).
  eexists h', _. split; [exact Hrun|]. split; [|split].
  - by rewrite length_fmap, length_seq, message_count_ceiling.
  - by intros ->.
  - intros i data Hdata. rewrite list_lookup_fmap in Hdata.
    destruct (seq 0 (message_count (length routes)) !! i) as [k|] eqn:Ek; [|done].
    apply lookup_seq in Ek as [-> _]. injection Hdata as <-. split; [reflexivity|].
    rewrite frame_bytes_length, message_for_length, length_fmap.
    split; [done|]. unfold UDP_MAX_PAYLOAD. lia.
Qed.

Lemma send_datagrams_witness :
  exists h' sent,
    Connection.send_routing_table_entries_to_neighbor link_1_2
      (table_refs table_26) (table_store table_26) = Return (h', sent)
    /\ length sent = ((length (table_refs table_26) + 24) / 25)%nat
    /\ (table_refs table_26 = [] -> sent = [])
    /\ forall i data, sent !! i = Some data ->
         take 4 data = [2; 2; Z.land (Connection.sending_router_id link_1_2) 255;
                        Z.land (Z.shiftr (Connection.sending_router_id link_1_2) 8) 255]
         /\ length data = (4 + 20 * (length (table_refs table_26) - i * 25 + 1))%nat
         /\ Z.of_nat (length data) <= UDP_MAX_PAYLOAD.
Proof.
  apply (send_datagrams link_1_2 (table_refs table_26) (table_store table_26)).
  - apply allocated_table.
  - vm_compute. lia.
Defined.

Lemma small_high_byte (x : Z) : 0 <= x < 256 -> Z.shiftr x 8 = 0.
Proof. intros Hx. rewrite Z.shiftr_div_pow2 by lia. by apply Z.div_small. Qed.

Lemma advertised_well_formed (self : Connection.t) (route : Route.t) :
  small_route route ->
  well_formed_entry (advertised self route) /\ same_high_byte (advertised self route).
Proof.
  intros (Hdest & Hvia & Hmetric). unfold well_formed_entry, same_high_byte, advertised.
  cbn. rewrite !small_high_byte by lia. unfold INFINITE_METRIC in *.
  repeat split; try lia; destruct (_ && _); lia.
Qed.

(** X15.  When the table has at most 50 routes (so that every datagram fits
    the 1024-byte receive buffer) with destinations and next hops below 256,
    every datagram sent to a neighbour is received intact: the receiving
    side's [receive_routing_table_entries_from_neighbor] returns, stamped
    with the sender's id, the advertised routes of the message followed by
    the direct-link route. *)
Theorem small_ids_survive_the_wire (self : Connection.t) (routes : list ref) (h : Store.t) :
  allocated h routes ->
  (length routes <= 50)%nat ->
  Forall (fun l => small_route (Store.load h l)) routes ->
  1 <= Connection.sending_router_id self <= 64000 ->
  1 <= Connection.neighbor_router_id self <= 64000 ->
  1 <= Connection.metric self <= INFINITE_METRIC ->
  exists h' sent,
    Connection.send_routing_table_entries_to_neighbor self routes h = Return (h', sent)
    /\ forall i data, sent !! i = Some data ->
         Connection.receive_routing_table_entries_from_neighbor (recvfrom 1024 data)
         = Return (Some (routes_of (message_for self (map (Store.load h) routes) i))).
Proof.
  intros Halloc Hfits Hsmall Hid Hn Hlink.
  destruct (send_routing_table_ok self routes h Halloc) as (h' & Hrun & _).
  eexists h', _. split; [exact Hrun|].
  intros i data Hdata.
  pose proof (datagram_length self routes h h' _ i data Halloc Hrun Hdata) as Hlen.
  unfold recvfrom. rewrite take_ge by lia. clear Hlen.
  rewrite list_lookup_fmap in Hdata.
  destruct (seq 0 (message_count (length routes)) !! i) as [k|] eqn:Ek; [|done].
  apply lookup_seq in Ek as [-> _]. injection Hdata as <-. change (0 + i)%nat with i.
  set (msg := message_for self (map (Store.load h) routes) i).
  assert (Hentries : Forall (fun entry => well_formed_entry entry /\ same_high_byte entry)
                       (ResponseMessage.rip_entries msg)).
  { subst msg. unfold message_for. cbn [ResponseMessage.rip_entries].
    apply Forall_app. split.
    - apply Forall_fmap, Forall_drop, Forall_fmap.
      eapply Forall_impl; [exact Hsmall|]. intros l Hl. by apply advertised_well_formed.
    - constructor; [|constructor]. unfold well_formed_entry, same_high_byte, direct_link.
      cbn. done. }
  destruct (decode_encode_same_high_byte msg) as (data' & Hencode & Hdecode).
  { split; [done|]. split; [done|]. split; [done|].
    eapply Forall_impl; [exact Hentries|]. by intros entry [? _]. }
  { eapply Forall_impl; [exact Hentries|]. by intros entry [_ ?]. }
  rewrite encode_frame in Hencode by (cbn; unfold is_byte; lia).
  injection Hencode as <-.
  unfold Connection.receive_routing_table_entries_from_neighbor. rewrite Hdecode.
  reflexivity.
Qed.

Lemma small_ids_survive_the_wire_witness :
  exists h' sent,
    Connection.send_routing_table_entries_to_neighbor link_1_2
      (table_refs table_4) (table_store table_4) = Return (h', sent)
    /\ forall i data, sent !! i = Some data ->
         Connection.receive_routing_table_entries_from_neighbor (recvfrom 1024 data)
         = Return (Some (routes_of
                           (message_for link_1_2
                              (map (Store.load (table_store table_4)) (table_refs table_4))
                              i))).
Proof.
  apply (small_ids_survive_the_wire link_1_2 (table_refs table_4) (table_store table_4)).
  - apply allocated_table.
  - simpl. lia.
  - unfold small_route, INFINITE_METRIC.
    repeat (constructor; [cbn; lia|]). constructor.
  - simpl. lia.
  - simpl. lia.
  - unfold INFINITE_METRIC. simpl. lia.
Defined.

(** ** Received datagrams *)

Lemma receive_Some (data : list Z) (routes : list Route.t) :
  Connection.receive_routing_table_entries_from_neighbor data = Return (Some routes)
  <-> exists msg,
        ResponseMessage.decode (ResponseMessage.new 0) data = Return (true, msg)
        /\ routes = routes_of msg.
Proof.
  unfold Connection.receive_routing_table_entries_from_neighbor. split.
  - intros ([[|] msg] & Hdecode & Hroutes)%bind_inv; [|done].
    injection Hroutes as <-. by exists msg.
  - intros (msg & -> & ->). reflexivity.
Qed.

Lemma decoded_message (data : list Z) (msg : ResponseMessage.t) :
  ResponseMessage.decode (ResponseMessage.new 0) data = Return (true, msg) ->
  ResponseMessage.sending_router_id msg
  = default 0 (data !! 2%nat) + default 0 (data !! 3%nat) * 256
  /\ 1 <= ResponseMessage.sending_router_id msg <= 64000
  /\ length (ResponseMessage.rip_entries msg) = entry_count data
  /\ Forall (fun entry => entry_fields_valid entry = true) (ResponseMessage.rip_entries msg).
Proof.
  intros Hrun.
  destruct (decode_true_valid data msg Hrun) as [Hheader Hentries].
  destruct (decode_complete_entries data Hheader Hentries)
    as (entries & Hrun' & Hlen & Hlook & _).
  cbv zeta in Hrun'. rewrite Hrun in Hrun'. injection Hrun' as ->.
  cbn [ResponseMessage.sending_router_id ResponseMessage.rip_entries].
  split; [done|]. split; [|split; [done|]].
  - unfold header_fields_valid in Hheader.
    destruct (data !! 0%nat), (data !! 1%nat), (data !! 2%nat), (data !! 3%nat); try done.
    apply andb_prop in Hheader as [_ Hid]. apply negb_true_iff, orb_false_iff in Hid.
    cbn. lia.
  - apply Forall_lookup. intros j entry Hj.
    pose proof (lookup_lt_Some _ _ _ Hj) as Hlt. rewrite Hlen in Hlt.
    destruct (Hentries j Hlt) as (entry' & Hat & Hvalid).
    rewrite Hlook, Hat in Hj by done. by injection Hj as <-.
Qed.

(** X16.  The routes made of a received datagram all carry the sender id of
    the frame header, which lies in [1, 64000]; there is one per complete
    entry; each has its next hop and destination valid for
    [is_valid_router_id], a metric of at most 16 and no timer.  Of the
    checks of [update_routing_table] only those on the sender being a
    neighbour and on the metric being at least 1 can still fail. *)
Theorem received_routes (data : list Z) (routes : list Route.t) :
  Connection.receive_routing_table_entries_from_neighbor data = Return (Some routes) ->
  length routes = entry_count data
  /\ 1 <= default 0 (data !! 2%nat) + default 0 (data !! 3%nat) * 256 <= 64000
  /\ Forall (fun route =>
               Route.src route = default 0 (data !! 2%nat) + default 0 (data !! 3%nat) * 256
               /\ RIPDaemon.is_valid_router_id (Route.neighbor route) = true
               /\ RIPDaemon.is_valid_router_id (Route.dest route) = true
               /\ Route.metric route <= INFINITE_METRIC
               /\ Route.timeout_timer route = None) routes.
Proof.
  intros (msg & Hdecode & ->)%receive_Some.
  destruct (decoded_message _ _ Hdecode) as (Hsender & Hid & Hlen & Hentries).
  unfold routes_of. rewrite length_map, <- Hsender. split; [done|]. split; [done|].
  apply Forall_fmap. eapply Forall_impl; [exact Hentries|].
  intros entry Hvalid. unfold entry_fields_valid in Hvalid. cbn.
  apply andb_prop in Hvalid as [Hvalid Hm]. apply andb_prop in Hvalid as [Hvalid Hn].
  apply andb_prop in Hvalid as [_ Hd].
  apply negb_true_iff in Hm, Hn, Hd. apply orb_false_iff in Hn, Hd.
  rewrite !(proj2 (valid_router_id_range _)) by lia. repeat split; lia.
Qed.

Lemma received_routes_witness :
  length [Route.new 9 5 5 3] = entry_count trailing_frame
  /\ 1 <= default 0 (trailing_frame !! 2%nat) + default 0 (trailing_frame !! 3%nat) * 256
       <= 64000
  /\ Forall (fun route =>
               Route.src route
               = default 0 (trailing_frame !! 2%nat) + default 0 (trailing_frame !! 3%nat) * 256
               /\ RIPDaemon.is_valid_router_id (Route.neighbor route) = true
               /\ RIPDaemon.is_valid_router_id (Route.dest route) = true
               /\ Route.metric route <= INFINITE_METRIC
               /\ Route.timeout_timer route = None) [Route.new 9 5 5 3].
Proof. apply (received_routes trailing_frame [Route.new 9 5 5 3]). reflexivity. Defined.

(** X17.  In a reachable state the read branch of the event loop returns a
    new state (again reachable) exactly for the datagrams that decode
    successfully; a datagram that [decode] rejects is not discarded: the
    loop iterates over [None] and raises [TypeError]. *)
Theorem on_readable_outcome (self : RIPDaemon.t) (data : list Z) :
  RIPDaemon.reachable self ->
  ((exists self', RIPDaemon.on_readable self data = Return self'
                  /\ RIPDaemon.reachable self')
   <-> exists msg, ResponseMessage.decode (ResponseMessage.new 0) data = Return (true, msg))
  /\ forall msg,
       ResponseMessage.decode (ResponseMessage.new 0) data = Return (false, msg) ->
       RIPDaemon.on_readable self data = Raise TypeError.
Proof.
  intros Hreach. split; [split|].
  - intros (self' & Hrun & _). unfold RIPDaemon.on_readable in Hrun.
    apply bind_inv in Hrun as ([routes|] & Hreceive & Hupdate); [|done].
    apply receive_Some in Hreceive as (msg & Hdecode & _). by exists msg.
  - intros (msg & Hdecode).
    destruct (update_routing_table_invariant (routes_of msg) self
                (reachable_invariant _ Hreach)) as (self' & Hrun & _).
    exists self'. split.
    + unfold RIPDaemon.on_readable.
      by rewrite (proj2 (receive_Some data (routes_of msg)) (ex_intro _ msg (conj Hdecode eq_refl))).
    + by eapply RIPDaemon.reachable_update.
  - intros msg Hdecode. unfold RIPDaemon.on_readable,
      Connection.receive_routing_table_entries_from_neighbor.
    by rewrite Hdecode.
Qed.

Lemma on_readable_outcome_witness :
  ((exists self', RIPDaemon.on_readable daemon_1 zero_entry_frame = Return self'
                  /\ RIPDaemon.reachable self')
   <-> exists msg,
         ResponseMessage.decode (ResponseMessage.new 0) zero_entry_frame = Return (true, msg))
  /\ forall msg,
       ResponseMessage.decode (ResponseMessage.new 0) zero_entry_frame = Return (false, msg) ->
       RIPDaemon.on_readable daemon_1 zero_entry_frame = Raise TypeError.
Proof. apply (on_readable_outcome daemon_1 zero_entry_frame). apply daemon_1_reachable. Defined.

(** X18.  A datagram whose header names a router that is not a configured
    neighbour changes nothing, whatever its entries and whichever socket it
    arrived on. *)
Theorem frame_from_stranger_changes_nothing (self : RIPDaemon.t) (data : list Z)
    (msg : ResponseMessage.t) :
  ResponseMessage.decode (ResponseMessage.new 0) data = Return (true, msg) ->
  RIPDaemon.is_neighbor self (ResponseMessage.sending_router_id msg) = false ->
  RIPDaemon.on_readable self data = Return self.
Proof.
  intros Hdecode Hstranger. unfold RIPDaemon.on_readable.
  rewrite (proj2 (receive_Some data (routes_of msg)) (ex_intro _ msg (conj Hdecode eq_refl))).
  cbn [bind]. apply update_routing_table_rejected.
  unfold routes_of. apply Forall_fmap, Forall_forall. intros entry _. by left.
Qed.

Lemma frame_from_stranger_changes_nothing_witness :
  RIPDaemon.on_readable daemon_1 trailing_frame = Return daemon_1.
Proof.
  apply (frame_from_stranger_changes_nothing daemon_1 trailing_frame
           (ResponseMessage.Build 2 2 9 [RIPEntry.Build 2 5 5 3])); reflexivity.
Defined.

(** ** Configuration files *)

Lemma content_lines_app (before after : list string) :
  RIPDaemon.content_lines (before ++ after)
  = RIPDaemon.content_lines before ++ RIPDaemon.content_lines after.
Proof.
  induction before as [|line rest IH]; [done|].
  cbn [app RIPDaemon.content_lines]. rewrite IH. by destruct (_ && _).
Qed.

(** X19.  A blank line or a line whose first non-blank character is '#' can
    be inserted anywhere in a configuration file without changing what the
    loader returns or how the daemon starts. *)
Theorem comment_lines_are_skipped (before after : list string) (line : string) :
  Str.is_empty (Str.strip line) = true
  \/ Str.startswith_char "#" (Str.strip line) = true ->
  RIPDaemon.load_config_file (File (before ++ line :: after))
  = RIPDaemon.load_config_file (File (before ++ after))
  /\ RIPDaemon.init (File (before ++ line :: after))
     = RIPDaemon.init (File (before ++ after)).
Proof.
  intros Hskipped.
  assert (Hlines : RIPDaemon.content_lines (before ++ line :: after)
                   = RIPDaemon.content_lines (before ++ after)).
  { rewrite !content_lines_app. f_equal. cbn [RIPDaemon.content_lines].
    by destruct Hskipped as [-> | ->]; rewrite ?andb_false_r. }
  assert (Hload : RIPDaemon.load_config_file (File (before ++ line :: after))
                  = RIPDaemon.load_config_file (File (before ++ after))).
  { unfold RIPDaemon.load_config_file. by rewrite Hlines. }
  split; [done|]. unfold RIPDaemon.init. by rewrite Hload.
Qed.

Lemma comment_lines_are_skipped_witness :
  RIPDaemon.load_config_file
    (File ([("router-id 1" ++ nl)%string] ++ ("  # ports" ++ nl)%string
           :: [("input-ports 6110" ++ nl)%string; ("outputs 5000-1-2" ++ nl)%string]))
  = RIPDaemon.load_config_file
      (File ([("router-id 1" ++ nl)%string]
             ++ [("input-ports 6110" ++ nl)%string; ("outputs 5000-1-2" ++ nl)%string]))
  /\ RIPDaemon.init
       (File ([("router-id 1" ++ nl)%string] ++ ("  # ports" ++ nl)%string
              :: [("input-ports 6110" ++ nl)%string; ("outputs 5000-1-2" ++ nl)%string]))
     = RIPDaemon.init
         (File ([("router-id 1" ++ nl)%string]
                ++ [("input-ports 6110" ++ nl)%string; ("outputs 5000-1-2" ++ nl)%string])).
Proof.
  apply (comment_lines_are_skipped [("router-id 1" ++ nl)%string]
           [("input-ports 6110" ++ nl)%string; ("outputs 5000-1-2" ++ nl)%string]
           ("  # ports" ++ nl)%string).
  right. reflexivity.
Defined.

(** X20.  What the loader returns on success: a router id in [1, 64000];
    input ports in [1024, 64000], pairwise distinct; at least one output;
    as many outputs as input ports; every output with its port in
    [1024, 64000] and not among the input ports, its metric in [1, 16] and
    its neighbour id in [1, 64000]. *)
Theorem loaded_values (f : file) (id : Z) (input_ports : list Z)
    (outputs : list (Z * Z * Z)) :
  RIPDaemon.load_config_file f = Return (Some (id, input_ports, outputs)) ->
  1 <= id <= 64000
  /\ Forall (fun port => 1024 <= port <= 64000) input_ports
  /\ NoDup input_ports
  /\ Forall output_ok outputs
  /\ Forall (fun output => output.1.1 ∉ input_ports) outputs
  /\ length outputs = length input_ports
  /\ outputs <> [].
Proof. intros Hload%load_config_file_accepted. by apply accepted_ranges in Hload. Qed.

Lemma loaded_values_witness :
  1 <= 1 <= 64000
  /\ Forall (fun port => 1024 <= port <= 64000) [6110; 6201]
  /\ NoDup [6110; 6201]
  /\ Forall output_ok [(5000, 1, 2); (5001, 5, 3)]
  /\ Forall (fun output => output.1.1 ∉ [6110; 6201]) [(5000, 1, 2); (5001, 5, 3)]
  /\ length [(5000, 1, 2); (5001, 5, 3)] = length [6110; 6201]
  /\ [(5000, 1, 2); (5001, 5, 3)] <> [].
Proof.
  apply (loaded_values config_1 1 [6110; 6201] [(5000, 1, 2); (5001, 5, 3)]).
  reflexivity.
Defined.

(** ** Neighbours *)

(** X21.  In a reachable state [is_neighbor] and [get_metric_to_neighbor]
    agree: a router id is a neighbour exactly when a link metric is found for
    it, and that metric lies in [1, 16]. *)
Theorem neighbor_has_link_metric (self : RIPDaemon.t) (n : Z) :
  RIPDaemon.reachable self ->
  (RIPDaemon.is_neighbor self n = true
   <-> exists link, RIPDaemon.get_metric_to_neighbor self n = Some link)
  /\ forall link, RIPDaemon.get_metric_to_neighbor self n = Some link -> 1 <= link <= 16.
Proof.
  intros Hinv%reachable_invariant. split; [split|].
  - intros Hn. destruct (link_metric_ok self n Hinv Hn) as (_ & link & Hlink & _).
    by exists link.
  - intros [link Hlink]. apply is_neighbor_elem.
    destruct Hinv as (_ & _ & -> & _).
    destruct (decide (n ∈ neighbor_ids (RIPDaemon.outputs self))) as [|Hnot]; [done|].
    apply metric_to_neighbor_None in Hnot.
    unfold RIPDaemon.get_metric_to_neighbor in Hlink. congruence.
  - intros link Hlink.
    destruct (decide (n ∈ neighbor_ids (RIPDaemon.outputs self))) as [Hin|Hnot].
    + destruct Hinv as (_ & Houts & _).
      destruct (metric_to_neighbor_elem _ _ Hin) as (output & Hout & _ & Hfound).
      unfold RIPDaemon.get_metric_to_neighbor in Hlink. rewrite Hfound in Hlink.
      injection Hlink as <-.
      by destruct (proj1 (Forall_forall _ _) Houts output Hout) as (_ & ? & _).
    + apply metric_to_neighbor_None in Hnot.
      unfold RIPDaemon.get_metric_to_neighbor in Hlink. congruence.
Qed.

Lemma neighbor_has_link_metric_witness :
  (RIPDaemon.is_neighbor daemon_1_poisoned 3 = true
   <-> exists link, RIPDaemon.get_metric_to_neighbor daemon_1_poisoned 3 = Some link)
  /\ forall link,
       RIPDaemon.get_metric_to_neighbor daemon_1_poisoned 3 = Some link -> 1 <= link <= 16.
Proof.
  apply (neighbor_has_link_metric daemon_1_poisoned 3). apply daemon_1_poisoned_reachable.
Defined.

(** ** Adding a route *)

(** X22.  [add_new_route] appends one route (to the destination, through the
    neighbour, with the metric, its timeout started now), keeps every route
    already there, and leaves no garbage-collection timer for the pair when
    the list held at most one.  In a table with one route per destination
    the result again has one route per destination exactly when no route to
    the destination existed: the lookup its callers make first is
    needed. *)
Theorem add_new_route_appends (self : RIPDaemon.t) (n d m : Z) :
  unique_dests (RIPDaemon.routes self) ->
  NoDup (map timer_key (RIPDaemon.garbage_collection_timers self)) ->
  RIPDaemon.routes (RIPDaemon.add_new_route self n d m)
  = RIPDaemon.routes self
    ++ [Route.Build (RIPDaemon.id self) d n m (Some (RIPDaemon.now self))]
  /\ (forall timer,
        (timer, n, d) ∉ RIPDaemon.garbage_collection_timers
                          (RIPDaemon.add_new_route self n d m))
  /\ (unique_dests (RIPDaemon.routes (RIPDaemon.add_new_route self n d m))
      <-> RIPDaemon.get_route_destinating_to self d = None).
Proof.
  intros Hunique Hkeys. split; [apply add_new_route_routes|]. split.
  - intros timer. rewrite add_new_route_timers. by apply invalidate_clears.
  - unfold unique_dests. rewrite add_new_route_dests. split.
    + intros [_ [Hfresh _]]%NoDup_app.
      unfold RIPDaemon.get_route_destinating_to. apply list_find_None, Forall_forall.
      intros route Hin Hto. apply (Hfresh d); [|by left].
      rewrite <- Hto. by apply list_elem_of_fmap_2.
    + intros Hnone%get_route_None. apply NoDup_app. split; [done|].
      split; [|apply NoDup_singleton]. by intros x Hx ->%list_elem_of_singleton.
Qed.

Lemma add_new_route_appends_witness :
  RIPDaemon.routes (RIPDaemon.add_new_route daemon_1_poisoned 3 9 6)
  = RIPDaemon.routes daemon_1_poisoned
    ++ [Route.Build (RIPDaemon.id daemon_1_poisoned) 9 3 6
          (Some (RIPDaemon.now daemon_1_poisoned))]
  /\ (forall timer,
        (timer, 3, 9) ∉ RIPDaemon.garbage_collection_timers
                          (RIPDaemon.add_new_route daemon_1_poisoned 3 9 6))
  /\ (unique_dests (RIPDaemon.routes (RIPDaemon.add_new_route daemon_1_poisoned 3 9 6))
      <-> RIPDaemon.get_route_destinating_to daemon_1_poisoned 9 = None).
Proof.
  apply (add_new_route_appends daemon_1_poisoned 3 9 6).
  - apply (bool_decide_unpack _). vm_compute. exact I.
  - apply (bool_decide_unpack _). vm_compute. exact I.
Defined.

(** ** Advertisements of unreachability *)

Lemma metric_same_or_poisoned_insert (routes : list Route.t) (i : nat) (existing : Route.t) :
  routes !! i = Some existing ->
  Forall2 (fun old new => Route.dest new = Route.dest old
                          /\ Route.neighbor new = Route.neighbor old
                          /\ (Route.metric new = Route.metric old
                              \/ Route.metric new = INFINITE_METRIC))
          routes (<[i := Route.set_metric existing INFINITE_METRIC]> routes).
Proof.
  intros Hi. apply Forall2_same_length_lookup_2; [by rewrite length_insert|].
  intros j old new Hold Hnew. destruct (decide (i = j)) as [<-|Hne].
  - rewrite list_lookup_insert_eq in Hnew by (by eapply lookup_lt_Some).
    injection Hnew as <-. rewrite Hi in Hold. injection Hold as <-. cbn. auto.
  - rewrite list_lookup_insert_ne in Hnew by done.
    rewrite Hold in Hnew. injection Hnew as <-. auto.
Qed.

Lemma metric_same_or_poisoned_refl (routes : list Route.t) :
  Forall2 (fun old new => Route.dest new = Route.dest old
                          /\ Route.neighbor new = Route.neighbor old
                          /\ (Route.metric new = Route.metric old
                              \/ Route.metric new = INFINITE_METRIC))
          routes routes.
Proof. induction routes; constructor; auto. Qed.

(** X23.  In a reachable state, a valid entry for another destination whose
    total metric reaches 16 never adds a route, never changes a destination
    or next hop and never lowers a metric: route by route the table is as it
    was, except that a metric may have become 16. *)
Theorem unreachable_advertisement (self : RIPDaemon.t) (route : Route.t) (link : Z) :
  RIPDaemon.reachable self ->
  RIPDaemon.is_neighbor self (Route.src route) = true ->
  RIPDaemon.is_valid_router_id (Route.neighbor route) = true ->
  RIPDaemon.is_valid_router_id (Route.dest route) = true ->
  RIPDaemon.is_valid_metric (Route.metric route) = true ->
  Route.dest route <> RIPDaemon.id self ->
  RIPDaemon.get_metric_to_neighbor self (Route.src route) = Some link ->
  INFINITE_METRIC <= link + Route.metric route ->
  exists self',
    RIPDaemon.update_routing_table self [route] = Return self'
    /\ Forall2 (fun old new => Route.dest new = Route.dest old
                               /\ Route.neighbor new = Route.neighbor old
                               /\ (Route.metric new = Route.metric old
                                   \/ Route.metric new = INFINITE_METRIC))
               (RIPDaemon.routes self) (RIPDaemon.routes self').
Proof.
  intros Hinv%reachable_invariant Hsrc Hnext Hdest Hmetric Hother Hlink Hinf.
  rewrite update_one. unfold RIPDaemon.update_route.
  rewrite Hsrc, Hnext, Hdest, Hmetric. cbn [negb].
  destruct (Z.eqb_spec (Route.dest route) (RIPDaemon.id self)); [done|].
  rewrite Hlink. cbn [bind]. rewrite Z.min_r by lia. rewrite Z.eqb_refl. cbn [negb].
  destruct (RIPDaemon.get_route_destinating_to self (Route.dest route))
    as [[i existing]|] eqn:Hget.
  - destruct (get_route_Some _ _ _ _ Hget) as [Hi _].
    destruct (Route.neighbor existing =? Route.src route).
    + destruct (negb (Route.metric existing =? INFINITE_METRIC)).
      * eexists. split; [reflexivity|].
        rewrite activate_garbage_collection_routes. cbn.
        by apply metric_same_or_poisoned_insert.
      * eexists. split; [reflexivity|]. apply metric_same_or_poisoned_refl.
    + destruct Hinv as (_ & _ & _ & Hroutes & _).
      destruct (Forall_lookup_1 _ _ _ _ Hroutes Hi) as (_ & _ & _ & Hrange & _).
      destruct (Z.ltb_spec INFINITE_METRIC (Route.metric existing)); [lia|].
      eexists. split; [reflexivity|]. apply metric_same_or_poisoned_refl.
  - eexists. split; [reflexivity|]. apply metric_same_or_poisoned_refl.
Qed.

Lemma unreachable_advertisement_witness :
  exists self',
    RIPDaemon.update_routing_table daemon_1_learnt [Route.new 2 7 2 16] = Return self'
    /\ Forall2 (fun old new => Route.dest new = Route.dest old
                               /\ Route.neighbor new = Route.neighbor old
                               /\ (Route.metric new = Route.metric old
                                   \/ Route.metric new = INFINITE_METRIC))
               (RIPDaemon.routes daemon_1_learnt) (RIPDaemon.routes self').
Proof.
  apply (unreachable_advertisement daemon_1_learnt (Route.new 2 7 2 16) 1);
    [apply daemon_1_learnt_reachable | reflexivity | reflexivity | reflexivity
    | reflexivity | simpl; lia | reflexivity | unfold INFINITE_METRIC; simpl; lia].
Defined.
